(** * The self-check cache of [ins._internal.utils.outdated]

    A shallow embedding of [SelfCheckState] (load and save of
    [selfcheck.json]), [was_installed_by_ins] and [ins_version_check],
    with the library functions they call: the [json] codec, the
    [datetime] calls with [SELFCHECK_DATE_FMT], a file system with
    lock files, and the collaborators of the orchestrator.

    Text is modelled by [string]: a character is a code point below 256.
    JSON numbers are integers.  A file holding a float literal ([1.5],
    [1e3], [NaN], [Infinity]) or a [\u] escape above [00ff] is outside
    the model (the embedded decoder rejects it).

    On the file system an [open(path, "w")] followed by [json.dump]
    replaces the whole content or fails at [open]; a lock that another
    process holds for ever, on which [acquire] would wait without end,
    is outside the model too. *)

From Stdlib Require Import Ascii ZArith Lia DecimalString DecimalPos DecimalN DecimalFacts.
From stdpp Require Import gmap strings list.

Set Warnings "-register-all".

(** ** Exceptions and results *)

(** The exception classes the code raises, catches or lets through.
    [IOError] is also [OSError], its name on Python 3.
    [BaseExceptionOnly] stands for the classes that derive from
    [BaseException] and not from [Exception] ([KeyboardInterrupt],
    [SystemExit]): [except Exception] lets them through. *)
Inductive exn : Type :=
| IOError
| ValueError
| KeyError
| TypeError
| LockFailed
| DistributionNotFound
| OtherException (name : string)
| BaseExceptionOnly (name : string).

Definition is_Exception (e : exn) : bool :=
  match e with
  | BaseExceptionOnly _ => false
  | _ => true
  end.

(** A call returns a value or raises. *)
Inductive res (A : Type) : Type :=
| Ret (a : A)
| Raise (e : exn).
Arguments Ret {A} a.
Arguments Raise {A} e.

(** ** JSON values *)

Module Json.

(** The double quote character. *)
Abbreviation dquote := (Ascii false true false false false true false false).

(** A decoded document.  A [dict] is kept as an association list in
    increasing key order: the code never observes the insertion order
    (lookups are by key, and [json.dump] is called with
    [sort_keys=True]). *)
Inductive json : Type :=
| JNull
| JBool (b : bool)
| JInt (z : Z)
| JStr (s : string)
| JArr (items : list json)
| JObj (members : list (string * json)).

Fixpoint dict_get (k : string) (d : list (string * json)) : option json :=
  match d with
  | [] => None
  | (k', v) :: d' => if String.eqb k k' then Some v else dict_get k d'
  end.

(** [d[k] = v] *)
Fixpoint dict_set (k : string) (v : json) (d : list (string * json))
  : list (string * json) :=
  match d with
  | [] => [(k, v)]
  | (k', v') :: d' =>
      match String.compare k k' with
      | Lt => (k, v) :: d
      | Eq => (k, v) :: d'
      | Gt => (k', v') :: dict_set k v d'
      end
  end.

(** [dict(pairs)]: later pairs win. *)
Definition dict_of_pairs (l : list (string * json)) : list (string * json) :=
  fold_left (fun d kv => dict_set (fst kv) (snd kv) d) l [].

Fixpoint keys_sorted (ks : list string) : bool :=
  match ks with
  | [] => true
  | k :: ks' =>
      match ks' with
      | [] => true
      | k' :: _ => String.ltb k k' && keys_sorted ks'
      end
  end.

(** Every dict of the value has its keys in strictly increasing order. *)
Fixpoint canonical (v : json) : bool :=
  match v with
  | JArr l => forallb canonical l
  | JObj d =>
      keys_sorted (map fst d) && forallb (fun kv => canonical (snd kv)) d
  | _ => true
  end.

(** *** Encoding: [json.dump(obj, sort_keys=True, separators=(",", ":"))] *)

Definition hex_digit (n : N) : ascii :=
  if (n <? 10)%N then ascii_of_N (48 + n) else ascii_of_N (87 + n).

(** [ESCAPE_ASCII] with [ESCAPE_DCT]: the replacement of one character
    by [encode_basestring_ascii]. *)
Definition escape_char (c : ascii) : string :=
  let n := N_of_ascii c in
  if (n =? 34)%N then String "\" (String dquote "")
  else if (n =? 92)%N then "\\"
  else if (n =? 8)%N then "\b"
  else if (n =? 12)%N then "\f"
  else if (n =? 10)%N then "\n"
  else if (n =? 13)%N then "\r"
  else if (n =? 9)%N then "\t"
  else if ((32 <=? n) && (n <=? 126))%N then String c ""
  else "\u00" +:+ String (hex_digit (n / 16)) (String (hex_digit (n mod 16)) "").

Fixpoint escape_body (s : string) : string :=
  match s with
  | EmptyString => ""
  | String c r => escape_char c +:+ escape_body r
  end.

Definition encode_basestring_ascii (s : string) : string :=
  String dquote (escape_body s +:+ String dquote "").

Definition encode_int (z : Z) : string :=
  match z with
  | Z0 => "0"
  | Zpos p => NilZero.string_of_uint (Pos.to_uint p)
  | Zneg p => String "-" (NilZero.string_of_uint (Pos.to_uint p))
  end.

Fixpoint join_comma (l : list string) : string :=
  match l with
  | [] => ""
  | [x] => x
  | x :: l' => x +:+ String "," (join_comma l')
  end.

(** [sorted(items, key=lambda kv: kv[0])], by insertion. *)
Fixpoint insert_item {A} (kv : string * A) (l : list (string * A))
  : list (string * A) :=
  match l with
  | [] => [kv]
  | kv' :: l' =>
      if String.leb (fst kv) (fst kv') then kv :: l
      else kv' :: insert_item kv l'
  end.

Fixpoint sort_items {A} (l : list (string * A)) : list (string * A) :=
  match l with
  | [] => []
  | kv :: l' => insert_item kv (sort_items l')
  end.

Definition encode_member (kt : string * string) : string :=
  encode_basestring_ascii (fst kt) +:+ String ":" (snd kt).

Fixpoint dumps (v : json) : string :=
  match v with
  | JNull => "null"
  | JBool true => "true"
  | JBool false => "false"
  | JInt z => encode_int z
  | JStr s => encode_basestring_ascii s
  | JArr l => String "[" (join_comma (map dumps l) +:+ "]")
  | JObj d =>
      String "{"
        (join_comma
           (map encode_member
              (sort_items (map (fun kv => (fst kv, dumps (snd kv))) d)))
         +:+ "}")
  end.

(** *** Decoding: [json.load] *)

Definition is_ws (c : ascii) : bool :=
  let n := N_of_ascii c in
  ((n =? 32) || (n =? 9) || (n =? 10) || (n =? 13))%N.

(** [WHITESPACE.match(s, end).end()] *)
Fixpoint skip_ws (s : string) : string :=
  match s with
  | EmptyString => ""
  | String c r => if is_ws c then skip_ws r else s
  end.

Definition hex_value (c : ascii) : option N :=
  let n := N_of_ascii c in
  if ((48 <=? n) && (n <=? 57))%N then Some (n - 48)%N
  else if ((97 <=? n) && (n <=? 102))%N then Some (n - 87)%N
  else if ((65 <=? n) && (n <=? 70))%N then Some (n - 55)%N
  else None.

Definition hex4 (a b c d : ascii) : option N :=
  match hex_value a, hex_value b, hex_value c, hex_value d with
  | Some x, Some y, Some z, Some w => Some (((x * 16 + y) * 16 + z) * 16 + w)%N
  | _, _, _, _ => None
  end.

(** [BACKSLASH]: the character a one-letter escape stands for. *)
Definition unescape (e : ascii) : option ascii :=
  let n := N_of_ascii e in
  if (n =? 34)%N then Some (ascii_of_N 34)
  else if (n =? 92)%N then Some (ascii_of_N 92)
  else if (n =? 47)%N then Some (ascii_of_N 47)
  else if (n =? 98)%N then Some (ascii_of_N 8)
  else if (n =? 102)%N then Some (ascii_of_N 12)
  else if (n =? 110)%N then Some (ascii_of_N 10)
  else if (n =? 114)%N then Some (ascii_of_N 13)
  else if (n =? 116)%N then Some (ascii_of_N 9)
  else None.

Definition push (c : ascii) (o : option (string * string))
  : option (string * string) :=
  match o with
  | Some (s, r) => Some (String c s, r)
  | None => None
  end.

(** [scanstring], strict, from the character after the opening quote:
    the decoded string and the text after the closing quote. *)
Fixpoint scanstring (s : string) : option (string * string) :=
  match s with
  | EmptyString => None
  | String c r =>
      let n := N_of_ascii c in
      if (n =? 34)%N then Some ("", r)
      else if (n =? 92)%N then
        match r with
        | EmptyString => None
        | String e r' =>
            if (N_of_ascii e =? 117)%N then
              match r' with
              | String h1 (String h2 (String h3 (String h4 r''))) =>
                  match hex4 h1 h2 h3 h4 with
                  | Some u =>
                      if (u <? 256)%N then push (ascii_of_N u) (scanstring r'')
                      else None
                  | None => None
                  end
              | _ => None
              end
            else
              match unescape e with
              | Some c' => push c' (scanstring r')
              | None => None
              end
        end
      else if (n <? 32)%N then None
      else push c (scanstring r)
  end.

Definition is_digit (c : ascii) : bool :=
  let n := N_of_ascii c in ((48 <=? n) && (n <=? 57))%N.

(** The longest run of digits at the head of the text. *)
Fixpoint scan_digits (s : string) : string * string :=
  match s with
  | EmptyString => ("", "")
  | String c r =>
      if is_digit c then
        let '(ds, r') := scan_digits r in (String c ds, r')
      else ("", s)
  end.

Definition starts_float_tail (s : string) : bool :=
  match s with
  | String c _ =>
      let n := N_of_ascii c in ((n =? 46) || (n =? 101) || (n =? 69))%N
  | EmptyString => false
  end.

(** [NUMBER_RE], integer part: [0] or a run of digits that does not
    start with [0]; a fraction or an exponent is outside the model. *)
Definition scan_nat (s : string) : option (N * string) :=
  match s with
  | EmptyString => None
  | String c r =>
      if (N_of_ascii c =? 48)%N then
        if starts_float_tail r then None else Some (0%N, r)
      else if is_digit c then
        let '(ds, r') := scan_digits s in
        if starts_float_tail r' then None
        else
          match NilZero.uint_of_string ds with
          | Some u => Some (N.of_uint u, r')
          | None => None
          end
      else None
  end.

(** The text after the literal [lit], when the text starts with it. *)
Fixpoint expect (lit s : string) : option string :=
  match lit with
  | EmptyString => Some s
  | String c lit' =>
      match s with
      | String c' s' => if Ascii.eqb c c' then expect lit' s' else None
      | EmptyString => None
      end
  end.

Definition peek (c : ascii) (s : string) : option string :=
  match s with
  | String c' r => if Ascii.eqb c c' then Some r else None
  | EmptyString => None
  end.

(** [scan_once] with [JSONObject] and [JSONArray].  An object's pairs
    are collected in text order; [parse_value] turns them into a dict. *)
Fixpoint parse_value (fuel : nat) (s : string) : option (json * string) :=
  match fuel with
  | O => None
  | S fuel' =>
      match s with
      | EmptyString => None
      | String c r =>
          if Ascii.eqb c dquote then
            match scanstring r with
            | Some (str, r') => Some (JStr str, r')
            | None => None
            end
          else if Ascii.eqb c "{" then
            match peek "}" (skip_ws r) with
            | Some r' => Some (JObj [], r')
            | None =>
                match parse_members fuel' (skip_ws r) with
                | Some (ps, r') => Some (JObj (dict_of_pairs ps), r')
                | None => None
                end
            end
          else if Ascii.eqb c "[" then
            match peek "]" (skip_ws r) with
            | Some r' => Some (JArr [], r')
            | None =>
                match parse_elements fuel' (skip_ws r) with
                | Some (vs, r') => Some (JArr vs, r')
                | None => None
                end
            end
          else if Ascii.eqb c "n" then
            match expect "ull" r with
            | Some r' => Some (JNull, r') | None => None end
          else if Ascii.eqb c "t" then
            match expect "rue" r with
            | Some r' => Some (JBool true, r') | None => None end
          else if Ascii.eqb c "f" then
            match expect "alse" r with
            | Some r' => Some (JBool false, r') | None => None end
          else if Ascii.eqb c "-" then
            match scan_nat r with
            | Some (m, r') => Some (JInt (- Z.of_N m)%Z, r')
            | None => None
            end
          else
            match scan_nat s with
            | Some (m, r') => Some (JInt (Z.of_N m), r')
            | None => None
            end
      end
  end
with parse_members (fuel : nat) (s : string)
  : option (list (string * json) * string) :=
  match fuel with
  | O => None
  | S fuel' =>
      match peek dquote s with
      | Some r =>
          match scanstring r with
          | Some (k, r1) =>
              match peek ":" (skip_ws r1) with
              | Some r2 =>
                  match parse_value fuel' (skip_ws r2) with
                  | Some (v, r3) =>
                      match peek "}" (skip_ws r3) with
                      | Some r4 => Some ([(k, v)], r4)
                      | None =>
                          match peek "," (skip_ws r3) with
                          | Some r4 =>
                              match parse_members fuel' (skip_ws r4) with
                              | Some (ps, r5) => Some ((k, v) :: ps, r5)
                              | None => None
                              end
                          | None => None
                          end
                      end
                  | None => None
                  end
              | None => None
              end
          | None => None
          end
      | None => None
      end
  end
with parse_elements (fuel : nat) (s : string)
  : option (list json * string) :=
  match fuel with
  | O => None
  | S fuel' =>
      match parse_value fuel' s with
      | Some (v, r1) =>
          match peek "]" (skip_ws r1) with
          | Some r2 => Some ([v], r2)
          | None =>
              match peek "," (skip_ws r1) with
              | Some r2 =>
                  match parse_elements fuel' (skip_ws r2) with
                  | Some (vs, r3) => Some (v :: vs, r3)
                  | None => None
                  end
              | None => None
              end
          end
      | None => None
      end
  end.

(** [json.loads]: one value, white space around it, nothing else.
    [None] stands for the [ValueError] the decoder raises. *)
Definition loads (s : string) : option json :=
  match parse_value (S (String.length s)) (skip_ws s) with
  | Some (v, r) =>
      match skip_ws r with
      | EmptyString => Some v
      | _ => None
      end
  | None => None
  end.

End Json.

(** ** Notions for the proofs about the codec *)

Module JsonShape.
Import Json.

(** The text after a value of an encoded document: the end, or one of
    [,], [\]] and [}]. *)
Definition at_delim (s : string) : bool :=
  match s with
  | EmptyString => true
  | String c _ => Ascii.eqb c "," || Ascii.eqb c "]" || Ascii.eqb c "}"
  end.

(** The first character of an encoded value. *)
Definition value_head (c : ascii) : bool :=
  Ascii.eqb c dquote || Ascii.eqb c "{" || Ascii.eqb c "[" || Ascii.eqb c "n"
  || Ascii.eqb c "t" || Ascii.eqb c "f" || Ascii.eqb c "-" || is_digit c.

Ltac by_cases_on c := destruct c as [[] [] [] [] [] [] [] []]; try discriminate; try reflexivity.

Ltac split_match H :=
  repeat match type of H with
         | context [match ?x with _ => _ end] =>
             destruct x eqn:?; try discriminate H
         end.

(** Induction on documents, through the lists of an array and of a dict. *)

Section json_induction.
Variable P : json -> Prop.
Hypothesis Hnull : P JNull.
Hypothesis Hbool : forall b, P (JBool b).
Hypothesis Hint : forall z, P (JInt z).
Hypothesis Hstr : forall s, P (JStr s).
Hypothesis Harr : forall l, Forall P l -> P (JArr l).
Hypothesis Hobj : forall d, Forall (fun kv => P (snd kv)) d -> P (JObj d).

Fixpoint json_nested_ind (v : json) : P v :=
  match v with
  | JNull => Hnull
  | JBool b => Hbool b
  | JInt z => Hint z
  | JStr s => Hstr s
  | JArr l =>
      Harr l ((fix go (l : list json) : Forall P l :=
                 match l with
                 | [] => @List.Forall_nil _ P
                 | x :: l' => @List.Forall_cons _ P x l' (json_nested_ind x) (go l')
                 end) l)
  | JObj d =>
      Hobj d ((fix go (d : list (string * json))
                 : Forall (fun kv => P (snd kv)) d :=
                 match d with
                 | [] => @List.Forall_nil _ _
                 | kv :: d' =>
                     @List.Forall_cons _ (fun kv => P (snd kv)) kv d'
                       (json_nested_ind (snd kv)) (go d')
                 end) d)
  end.
End json_induction.

(** A canonical document is decoded from its encoding, whatever
    delimiter follows, with fuel for its length. *)
Definition roundtrips (v : json) : Prop :=
  canonical v = true ->
  forall (fuel : nat) (rest : string),
    at_delim rest = true ->
    (String.length (dumps v) <= fuel)%nat ->
    parse_value fuel (dumps v +:+ rest) = Some (v, rest).

Definition member_text (kv : string * json) : string :=
  encode_basestring_ascii (fst kv) +:+ String ":" (dumps (snd kv)).

End JsonShape.

Import Json.

(** ** Python operations on decoded values *)

(** [item in container] for a [str] item. *)
Definition py_contains (item : string) (container : json) : res bool :=
  match container with
  | JObj d =>
      Ret (match dict_get item d with Some _ => true | None => false end)
  | JArr l =>
      Ret (existsb
             (fun v => match v with JStr s => String.eqb item s | _ => false end)
             l)
  | JStr s =>
      Ret (match String.index 0 item s with Some _ => true | None => false end)
  | _ => Raise TypeError
  end.

(** [container[key]] for a [str] key. *)
Definition py_getitem (container : json) (key : string) : res json :=
  match container with
  | JObj d =>
      match dict_get key d with
      | Some v => Ret v
      | None => Raise KeyError
      end
  | _ => Raise TypeError
  end.

(** [container[key] = value] for a [str] key. *)
Definition py_setitem (container : json) (key : string) (value : json)
  : res json :=
  match container with
  | JObj d => Ret (JObj (dict_set key value d))
  | _ => Raise TypeError
  end.

(** ** [datetime] *)

Module Datetime.

Record datetime : Type := {
  year : Z;
  month : Z;
  day : Z;
  hour : Z;
  minute : Z;
  second : Z;
  microsecond : Z
}.

Definition is_leap (y : Z) : bool :=
  ((y mod 4 =? 0) && (negb (y mod 100 =? 0) || (y mod 400 =? 0)))%Z.

Definition days_in_month (y m : Z) : Z :=
  if (m =? 2)%Z then (if is_leap y then 29 else 28)%Z
  else if ((m =? 4) || (m =? 6) || (m =? 9) || (m =? 11))%Z then 30%Z
  else 31%Z.

Definition days_before_year (y : Z) : Z :=
  let y' := (y - 1)%Z in (y' * 365 + y' / 4 - y' / 100 + y' / 400)%Z.

Fixpoint days_before_month_upto (y : Z) (n : nat) : Z :=
  match n with
  | O => 0%Z
  | S n' => (days_before_month_upto y n' + days_in_month y (Z.of_nat n))%Z
  end.

(** The days of the year before the first of month [m]. *)
Definition days_before_month (y m : Z) : Z :=
  days_before_month_upto y (Z.to_nat (m - 1)).

(** [toordinal]: the day number, 1 for 0001-01-01. *)
Definition ymd_to_ord (y m d : Z) : Z :=
  (days_before_year y + days_before_month y m + d)%Z.

(** The instant as microseconds since the start of day 0. *)
Definition to_microseconds (t : datetime) : Z :=
  ((((ymd_to_ord (year t) (month t) (day t) * 24 + hour t) * 60 + minute t)
      * 60 + second t) * 1000000 + microsecond t)%Z.

(** [(a - b)], a [timedelta], as its whole number of microseconds. *)
Definition sub (a b : datetime) : Z := (to_microseconds a - to_microseconds b)%Z.

(** [delta.total_seconds() < seconds] for an integer bound.
    [total_seconds] is the quotient of the microseconds by [10**6],
    rounded to a float.  Rounding is monotone, the bound [7 * 24 * 60 *
    60] is a float, and the quotients next to it, one microsecond away,
    are further from it than the floats around it are from each other:
    the comparison of the floats is the comparison of the microseconds. *)
Definition total_seconds_lt (delta : Z) (seconds : Z) : bool :=
  (delta <? seconds * 1000000)%Z.

(** The constructor's range checks; [ValueError] outside them. *)
Definition valid (t : datetime) : bool :=
  ((1 <=? year t) && (year t <=? 9999)
   && (1 <=? month t) && (month t <=? 12)
   && (1 <=? day t) && (day t <=? days_in_month (year t) (month t))
   && (0 <=? hour t) && (hour t <=? 23)
   && (0 <=? minute t) && (minute t <=? 59)
   && (0 <=? second t) && (second t <=? 59)
   && (0 <=? microsecond t) && (microsecond t <=? 999999))%Z.

(** *** [strftime] and [strptime] *)

Definition digit_char (n : Z) : ascii := ascii_of_N (48 + Z.to_N (n mod 10)).

Definition pad2 (n : Z) : string :=
  String (digit_char (n / 10)) (String (digit_char n) "").

Definition pad4 (n : Z) : string :=
  String (digit_char (n / 1000)) (String (digit_char (n / 100)) (pad2 n)).

(** A character class of the directives' patterns. *)
Inductive cclass : Type :=
| Digit
| Between (lo hi : N)
| Space.

Definition in_class (k : cclass) (c : ascii) : bool :=
  let n := N_of_ascii c in
  match k with
  | Digit => ((48 <=? n) && (n <=? 57))%N
  | Between lo hi => ((48 + lo <=? n) && (n <=? 48 + hi))%N
  | Space => (n =? 32)%N
  end.

(** A piece of the compiled format: a directive, as its alternatives in
    the order the pattern lists them, or a literal character (matched
    without regard to case: the pattern is compiled with [IGNORECASE]). *)
Inductive piece : Type :=
| Directive (alternatives : list (list cclass))
| Literal (c : ascii).

Definition lower (c : ascii) : ascii :=
  let n := N_of_ascii c in
  if ((65 <=? n) && (n <=? 90))%N then ascii_of_N (n + 32) else c.

(** The text matched by one alternative, and the rest. *)
Fixpoint match_classes (ks : list cclass) (s : string)
  : option (string * string) :=
  match ks with
  | [] => Some ("", s)
  | k :: ks' =>
      match s with
      | String c r =>
          if in_class k c then
            match match_classes ks' r with
            | Some (m, r') => Some (String c m, r')
            | None => None
            end
          else None
      | EmptyString => None
      end
  end.

(** [regex.match]: the groups of the first match in backtracking order,
    and the text after it. *)
Fixpoint match_pieces (ps : list piece) (s : string)
  : option (list string * string) :=
  match ps with
  | [] => Some ([], s)
  | Literal c :: ps' =>
      match s with
      | String c' r =>
          if Ascii.eqb (lower c) (lower c') then match_pieces ps' r else None
      | EmptyString => None
      end
  | Directive alts :: ps' =>
      (fix try (alts : list (list cclass)) : option (list string * string) :=
         match alts with
         | [] => None
         | a :: alts' =>
             match match_classes a s with
             | Some (m, r) =>
                 match match_pieces ps' r with
                 | Some (gs, r') => Some (m :: gs, r')
                 | None => try alts'
                 end
             | None => try alts'
             end
         end) alts
  end.

Definition dir_Y : piece := Directive [[Digit; Digit; Digit; Digit]].
Definition dir_m : piece :=
  Directive [[Between 1 1; Between 0 2]; [Between 0 0; Between 1 9]; [Between 1 9]].
Definition dir_d : piece :=
  Directive [[Between 3 3; Between 0 1]; [Between 1 2; Digit];
             [Between 0 0; Between 1 9]; [Between 1 9]; [Space; Between 1 9]].
Definition dir_H : piece :=
  Directive [[Between 2 2; Between 0 3]; [Between 0 1; Digit]; [Digit]].
Definition dir_M : piece := Directive [[Between 0 5; Digit]; [Digit]].
Definition dir_S : piece :=
  Directive [[Between 6 6; Between 0 1]; [Between 0 5; Digit]; [Digit]].

(** [int(group)]: the digits of the group; a leading space is skipped. *)
Definition int_of_group (g : string) : Z :=
  fold_left
    (fun acc c => if in_class Digit c then (acc * 10 + Z.of_N (N_of_ascii c - 48))%Z else acc)
    (String.list_ascii_of_string g) 0%Z.

End Datetime.
Export Datetime(datetime).

(** [SELFCHECK_DATE_FMT = "%Y-%m-%dT%H:%M:%SZ"] *)
Definition SELFCHECK_DATE_FMT : list Datetime.piece :=
  [Datetime.dir_Y; Datetime.Literal "-"; Datetime.dir_m; Datetime.Literal "-";
   Datetime.dir_d; Datetime.Literal "T"; Datetime.dir_H; Datetime.Literal ":";
   Datetime.dir_M; Datetime.Literal ":"; Datetime.dir_S; Datetime.Literal "Z"].

(** [t.strftime(SELFCHECK_DATE_FMT)], for the years from 1000 on, which
    [%Y] writes with four digits. *)
Definition strftime (t : datetime) : string :=
  Datetime.pad4 (Datetime.year t) +:+ "-" +:+ Datetime.pad2 (Datetime.month t)
  +:+ "-" +:+ Datetime.pad2 (Datetime.day t) +:+ "T"
  +:+ Datetime.pad2 (Datetime.hour t) +:+ ":"
  +:+ Datetime.pad2 (Datetime.minute t) +:+ ":"
  +:+ Datetime.pad2 (Datetime.second t) +:+ "Z".

(** [datetime.datetime.strptime(s, SELFCHECK_DATE_FMT)]: [ValueError]
    when the text does not match, when text remains after the match,
    and when the fields are not a date and a time of day. *)
Definition strptime (s : string) : res datetime :=
  match Datetime.match_pieces SELFCHECK_DATE_FMT s with
  | Some ([gY; gm; gd; gH; gM; gS], EmptyString) =>
      let t := {| Datetime.year := Datetime.int_of_group gY;
                  Datetime.month := Datetime.int_of_group gm;
                  Datetime.day := Datetime.int_of_group gd;
                  Datetime.hour := Datetime.int_of_group gH;
                  Datetime.minute := Datetime.int_of_group gM;
                  Datetime.second := Datetime.int_of_group gS;
                  Datetime.microsecond := 0 |} in
      if Datetime.valid t then Ret t else Raise ValueError
  | _ => Raise ValueError
  end.

(** [strptime] on a decoded value: a value that is not a [str] is a
    [TypeError]. *)
Definition strptime_value (v : json) : res datetime :=
  match v with
  | JStr s => strptime s
  | _ => Raise TypeError
  end.

(** ** Collaborators *)

(** What is passed to [PackageFinder]; the session is named by a
    number. *)
Record PackageFinder : Type := {
  finder_find_links : list string;
  finder_index_urls : list string;
  finder_allow_all_prereleases : bool;
  finder_trusted_hosts : list string;
  finder_session : nat
}.

(** The fields of [options] the check reads.  [cache_dir] is [None]
    when the option holds no path. *)
Record Options : Type := {
  cache_dir : option string;
  find_links : list string;
  index_url : string;
  extra_index_urls : list string;
  trusted_hosts : list string
}.

(** A distribution as [pkg_resources.get_distribution] returns it. *)
Record Distribution : Type := {
  has_metadata : string -> bool;
  get_metadata_lines : string -> res (list string)
}.

(** The environment of one invocation: the process, the platform's
    [os.path], the clock, and the collaborators that are outside this
    module, each with the result of calling it. *)
Record World : Type := {
  sys_prefix : string;
  WINDOWS : bool;
  utcnow : datetime;
  path_join : string -> string -> string;
  path_dirname : string -> string;
  (** [ins._internal.utils.filesystem.check_path_owner] *)
  check_path_owner : string -> bool;
  (** [os.makedirs] failing with an error other than [EEXIST] *)
  makedirs_error : string -> option exn;
  (** [lockfile.LockFile(path).acquire()] failing *)
  lock_error : string -> option exn;
  (** [ins._internal.utils.misc.get_installed_version] *)
  get_installed_version : string -> res (option string);
  (** [ins._vendor.packaging.version] *)
  version : Type;
  parse : string -> res version;
  version_lt : version -> version -> bool;
  base_version : version -> string;
  version_str : version -> string;
  (** [finder.find_candidates(name).get_best()], as the candidate's
      [version] *)
  find_best_candidate : PackageFinder -> string -> res (option version);
  (** [pkg_resources.get_distribution] *)
  get_distribution : string -> res Distribution
}.

(** ** The file system *)

(** What is at a path: a file that can be read and written, or
    something that exists and cannot be opened (a directory, a file of
    another user). *)
Inductive node : Type :=
| Regular (content : string)
| Unreadable.

Record FS : Type := {
  files : gmap string node;
  dirs : gset string;
  locks : gset string
}.

(** The trace of a run, in order: the queries of the index, the calls
    of [save], and the log records. *)
Inductive event : Type :=
| IndexQuery (finder : PackageFinder)
| SaveCall (pypi_version : string) (current_time : datetime)
| LogWarning (message : string)
| LogDebug (message : string).

(** ** Computations: a result, the file system after, the events *)

Record outcome (A : Type) : Type := {
  result : res A;
  fs_after : FS;
  emitted : list event
}.
Arguments result {A} o.
Arguments fs_after {A} o.
Arguments emitted {A} o.

Definition M (A : Type) : Type := FS -> outcome A.

Definition ret {A} (a : A) : M A :=
  fun fs => {| result := Ret a; fs_after := fs; emitted := [] |}.

Definition raise {A} (e : exn) : M A :=
  fun fs => {| result := Raise e; fs_after := fs; emitted := [] |}.

Definition bind {A B} (m : M A) (k : A -> M B) : M B :=
  fun fs =>
    let o := m fs in
    match result o with
    | Ret a =>
        let o' := k a (fs_after o) in
        {| result := result o'; fs_after := fs_after o';
           emitted := emitted o ++ emitted o' |}
    | Raise e =>
        {| result := Raise e; fs_after := fs_after o; emitted := emitted o |}
    end.

Notation "'let!' x ':=' m 'in' k" := (bind m (fun x => k))
  (at level 10, x name, m at level 100, k at level 200).
Notation "'do!' m 'in' k" := (bind m (fun _ => k))
  (at level 10, m at level 100, k at level 200).

Definition lift {A} (r : res A) : M A :=
  match r with
  | Ret a => ret a
  | Raise e => raise e
  end.

Definition emit (e : event) : M unit :=
  fun fs => {| result := Ret tt; fs_after := fs; emitted := [e] |}.

Definition get_fs : M FS :=
  fun fs => {| result := Ret fs; fs_after := fs; emitted := [] |}.

Definition put_fs (fs' : FS) : M unit :=
  fun _ => {| result := Ret tt; fs_after := fs'; emitted := [] |}.

(** [try: body except <classes>: handler] *)
Definition try_except {A} (body : M A) (caught : exn -> bool)
  (handler : M A) : M A :=
  fun fs =>
    let o := body fs in
    match result o with
    | Ret a => o
    | Raise e =>
        if caught e then
          let o' := handler (fs_after o) in
          {| result := result o'; fs_after := fs_after o';
             emitted := emitted o ++ emitted o' |}
        else o
    end.

(** [try: body finally: cleanup], the way a [with] block leaves. *)
Definition finally {A} (body : M A) (cleanup : M unit) : M A :=
  fun fs =>
    let o := body fs in
    let o' := cleanup (fs_after o) in
    {| result := result o; fs_after := fs_after o';
       emitted := emitted o ++ emitted o' |}.

(** *** File operations *)

(** [os.path.exists] *)
Definition path_exists (path : string) : M bool :=
  let! fs := get_fs in
  ret (match files fs !! path with Some _ => true | None => false end).

(** [with open(path) as f: json.load(f)] *)
Definition load_json_file (path : string) : M json :=
  let! fs := get_fs in
  match files fs !! path with
  | Some (Regular text) =>
      match loads text with
      | Some v => ret v
      | None => raise ValueError
      end
  | Some Unreadable => raise IOError
  | None => raise IOError
  end.

(** [with open(path, "w") as f:
       json.dump(v, f, sort_keys=True, separators=(",", ":"))] *)
Definition dump_json_file (path : string) (v : json) : M unit :=
  let! fs := get_fs in
  match files fs !! path with
  | Some Unreadable => raise IOError
  | _ =>
      put_fs {| files := <[path := Regular (dumps v)]> (files fs);
                dirs := dirs fs; locks := locks fs |}
  end.

(** [ins._internal.utils.misc.ensure_dir] *)
Definition ensure_dir (w : World) (path : string) : M unit :=
  match makedirs_error w path with
  | Some e => raise e
  | None =>
      let! fs := get_fs in
      put_fs {| files := files fs; dirs := {[path]} ∪ dirs fs;
                locks := locks fs |}
  end.

(** [LockFile.acquire()]: the lock is taken, or the acquisition
    fails with the exception the world has for it. *)
Definition lock_acquire (w : World) (path : string) : M unit :=
  match lock_error w path with
  | Some e => raise e
  | None =>
      let! fs := get_fs in
      put_fs {| files := files fs; dirs := dirs fs;
                locks := {[path]} ∪ locks fs |}
  end.

(** [LockFile.release()] *)
Definition lock_release (path : string) : M unit :=
  let! fs := get_fs in
  put_fs {| files := files fs; dirs := dirs fs;
            locks := locks fs ∖ {[path]} |}.

(** [with lockfile.LockFile(path): body] *)
Definition with_LockFile {A} (w : World) (path : string) (body : M A) : M A :=
  do! lock_acquire w path in finally body (lock_release path).

(** ** [SelfCheckState] *)

Record SelfCheckState : Type := {
  state : json;
  statefile_path : option string
}.

Definition caught_on_load (e : exn) : bool :=
  match e with
  | IOError | ValueError | KeyError => true
  | _ => false
  end.

(** [SelfCheckState.__init__] *)
Definition SelfCheckState_init (w : World) (cache_dir : option string)
  : M SelfCheckState :=
  match cache_dir with
  | Some (String c dir' as dir) =>
      let path := path_join w dir "selfcheck.json" in
      try_except
        (let! doc := load_json_file path in
         let! st := lift (py_getitem doc (sys_prefix w)) in
         ret {| state := st; statefile_path := Some path |})
        caught_on_load
        (ret {| state := JObj []; statefile_path := Some path |})
  | _ => ret {| state := JObj []; statefile_path := None |}
  end.

(** The entry [save] stores under [sys.prefix]. *)
Definition entry (pypi_version : string) (current_time : datetime) : json :=
  JObj [("last_check", JStr (strftime current_time));
        ("pypi_version", JStr pypi_version)].

(** Lines 63-76 of [save]: what is done while the lock is held. *)
Definition save_locked (w : World) (path : string) (pypi_version : string)
  (current_time : datetime) : M unit :=
  let! there := path_exists path in
  let! doc := (if there then load_json_file path else ret (JObj [])) in
  let! doc' := lift (py_setitem doc (sys_prefix w)
                       (entry pypi_version current_time)) in
  dump_json_file path doc'.

(** [SelfCheckState.save] *)
Definition save (w : World) (self : SelfCheckState) (pypi_version : string)
  (current_time : datetime) : M unit :=
  match statefile_path self with
  | None => ret tt
  | Some path =>
      if negb (check_path_owner w (path_dirname w path)) then ret tt
      else
        do! ensure_dir w (path_dirname w path) in
        with_LockFile w path (save_locked w path pypi_version current_time)
  end.

(** ** [was_installed_by_ins] *)

Definition was_installed_by_ins (w : World) (pkg : string) : res bool :=
  let attempt : res bool :=
    match get_distribution w pkg with
    | Ret dist =>
        if has_metadata dist "INSTALLER" then
          match get_metadata_lines dist "INSTALLER" with
          | Ret lines => Ret (existsb (String.eqb "ins") lines)
          | Raise e => Raise e
          end
        else Ret false
    | Raise e => Raise e
    end in
  match attempt with
  | Raise DistributionNotFound => Ret false
  | r => r
  end.

(** ** [ins_version_check] *)

Definition newline : string := String (ascii_of_N 10) "".

Definition upgrade_message (ins_version pypi_version ins_cmd : string) : string :=
  "You are using ins version " +:+ ins_version +:+ ", however version "
  +:+ pypi_version +:+ " is available." +:+ newline
  +:+ "You should consider upgrading via the '" +:+ ins_cmd
  +:+ " install --upgrade ins' command.".

Definition debug_message : string :=
  "There was an error checking the latest version of ins".

(** [7 * 24 * 60 * 60] *)
Definition week_seconds : Z := (7 * 24 * 60 * 60)%Z.

(** Lines 114-120: the cached version when the cache is fresh.  [None]
    is Python's [None]; a cached [null] is [None] too. *)
Definition cached_pypi_version (st : json) (current_time : datetime)
  : res (option json) :=
  match py_contains "last_check" st with
  | Raise e => Raise e
  | Ret has_last_check =>
      match (if has_last_check then py_contains "pypi_version" st
             else Ret false) with
      | Raise e => Raise e
      | Ret false => Ret None
      | Ret true =>
          match py_getitem st "last_check" with
          | Raise e => Raise e
          | Ret lc =>
              match strptime_value lc with
              | Raise e => Raise e
              | Ret last_check =>
                  if Datetime.total_seconds_lt
                       (Datetime.sub current_time last_check) week_seconds
                  then
                    match py_getitem st "pypi_version" with
                    | Raise e => Raise e
                    | Ret JNull => Ret None
                    | Ret v => Ret (Some v)
                    end
                  else Ret None
              end
          end
      end
  end.

Definition make_finder (session : nat) (options : Options) : PackageFinder :=
  {| finder_find_links := find_links options;
     finder_index_urls := index_url options :: extra_index_urls options;
     finder_allow_all_prereleases := false;
     finder_trusted_hosts := trusted_hosts options;
     finder_session := session |}.

(** Lines 123-138: the version to compare with, from the cache or from
    the index; [None] where the code returns for want of a candidate. *)
Definition resolve_pypi_version (w : World) (session : nat)
  (options : Options) (self : SelfCheckState) (current_time : datetime)
  : M (option json) :=
  let! cached := lift (cached_pypi_version (state self) current_time) in
  match cached with
  | Some v => ret (Some v)
  | None =>
      let finder := make_finder session options in
      do! emit (IndexQuery finder) in
      let! candidate := lift (find_best_candidate w finder "ins") in
      match candidate with
      | None => ret None
      | Some cv =>
          let pypi_version := version_str w cv in
          do! emit (SaveCall pypi_version current_time) in
          do! save w self pypi_version current_time in
          ret (Some (JStr pypi_version))
      end
  end.

(** [packaging_version.parse] on a value of the cache: the pattern
    search on a value that is not a [str] is a [TypeError]. *)
Definition parse_value_version (w : World) (v : json) : res (version w) :=
  match v with
  | JStr s => parse w s
  | _ => Raise TypeError
  end.

Definition str_value (v : json) : string :=
  match v with
  | JStr s => s
  | _ => ""
  end.

(** Lines 140-157: the comparison and the warning. *)
Definition compare_and_warn (w : World) (ins_version : version w)
  (pypi_version : json) : M unit :=
  let! remote_version := lift (parse_value_version w pypi_version) in
  if version_lt w ins_version remote_version
     && negb (String.eqb (base_version w ins_version)
                (base_version w remote_version))
  then
    let! installed_by_ins := lift (was_installed_by_ins w "ins") in
    if installed_by_ins then
      let ins_cmd := if WINDOWS w then "python -m ins" else "ins" in
      emit (LogWarning (upgrade_message (version_str w ins_version)
                          (str_value pypi_version) ins_cmd))
    else ret tt
  else ret tt.

(** Lines 110-157: the body of the [try]. *)
Definition guarded_check (w : World) (session : nat) (options : Options)
  (ins_version : version w) : M unit :=
  let! self := SelfCheckState_init w (cache_dir options) in
  let current_time := utcnow w in
  let! pypi_version := resolve_pypi_version w session options self
                         current_time in
  match pypi_version with
  | None => ret tt
  | Some v => compare_and_warn w ins_version v
  end.

(** [try: ... except Exception: logger.debug(...)] *)
Definition guard (body : M unit) : M unit :=
  try_except body is_Exception (emit (LogDebug debug_message)).

Definition ins_version_check (w : World) (session : nat) (options : Options)
  : M unit :=
  let! installed_version := lift (get_installed_version w "ins") in
  match installed_version with
  | Some (String _ _ as installed) =>
      let! ins_version := lift (parse w installed) in
      guard (guarded_check w session options ins_version)
  | _ => ret tt
  end.

(** ** What a run shows *)

Definition is_query (e : event) : bool :=
  match e with IndexQuery _ => true | _ => false end.

Definition is_save_call (e : event) : bool :=
  match e with SaveCall _ _ => true | _ => false end.

Definition is_warning (e : event) : bool :=
  match e with LogWarning _ => true | _ => false end.

(** The index was queried. *)
Definition queried (evs : list event) : bool := existsb is_query evs.

(** [save] was called. *)
Definition saved (evs : list event) : bool := existsb is_save_call evs.

(** The upgrade warning was logged. *)
Definition warned (evs : list event) : bool := existsb is_warning evs.

(** ** The ends of [save] *)

(** The file system after a save that wrote the document [d] with the
    entry of [sys.prefix] set. *)
Definition written (w : World) (path : string) (pypi_version : string)
  (current_time : datetime) (d : list (string * json)) (fs : FS) : FS :=
  {| files := <[path := Regular (dumps (JObj (dict_set (sys_prefix w)
                                   (entry pypi_version current_time) d)))]>
                (files fs);
     dirs := {[path_dirname w path]} ∪ dirs fs;
     locks := ({[path]} ∪ locks fs) ∖ {[path]} |}.

(** The file system once the directory of the state file is there. *)
Definition after_makedirs (w : World) (path : string) (fs : FS) : FS :=
  {| files := files fs; dirs := {[path_dirname w path]} ∪ dirs fs;
     locks := locks fs |}.

(** The file system while the lock of the state file is held. *)
Definition while_locked (w : World) (path : string) (fs : FS) : FS :=
  {| files := files fs; dirs := {[path_dirname w path]} ∪ dirs fs;
     locks := {[path]} ∪ locks fs |}.

(** The three ways [save] ends: nothing to do, an exception with the
    files as they were, or the merged document written. *)
Inductive save_end (w : World) (self : SelfCheckState) (pv : string)
  (t : datetime) (fs : FS) : outcome unit -> Prop :=
| save_skipped :
    (statefile_path self = None
     \/ exists path, statefile_path self = Some path
                     /\ check_path_owner w (path_dirname w path) = false) ->
    save_end w self pv t fs (ret tt fs)
| save_raised o e :
    result o = Raise e -> files (fs_after o) = files fs ->
    emitted o = [] ->
    save_end w self pv t fs o
| save_written path d :
    statefile_path self = Some path ->
    check_path_owner w (path_dirname w path) = true ->
    makedirs_error w (path_dirname w path) = None ->
    lock_error w path = None ->
    (files fs !! path = None /\ d = []
     \/ exists text, files fs !! path = Some (Regular text)
                     /\ loads text = Some (JObj d)) ->
    save_end w self pv t fs
      {| result := Ret tt; fs_after := written w path pv t d fs; emitted := [] |}.

(** The state of a store that loaded nothing. *)
Definition empty_state (path : option string) : SelfCheckState :=
  {| state := JObj []; statefile_path := path |}.


(** ** Instances of the collaborators for the examples

    A POSIX [os.path] for two-part paths, and a version type that covers
    the releases [N(.N)*] with an optional [rcN] or [.postN]; other
    strings are legacy versions, which sort before every release. *)

Module Sample.

Definition slash : ascii := "/"%char.

(** [posixpath.join(a, b)] *)
Definition join (a b : string) : string :=
  match b with
  | String c _ =>
      if Ascii.eqb c slash then b
      else
        match String.rev a with
        | EmptyString => b
        | String l _ =>
            if Ascii.eqb l slash then a +:+ b else a +:+ String slash b
        end
  | EmptyString =>
      match String.rev a with
      | EmptyString => b
      | String l _ =>
          if Ascii.eqb l slash then a else a +:+ String slash ""
      end
  end.

Fixpoint drop_slashes (s : string) : string :=
  match s with
  | String c r => if Ascii.eqb c slash then drop_slashes r else s
  | EmptyString => ""
  end.

Fixpoint drop_to_slash (s : string) : string :=
  match s with
  | String c r => if Ascii.eqb c slash then s else drop_to_slash r
  | EmptyString => ""
  end.

(** [posixpath.dirname(p)] *)
Definition dirname (p : string) : string :=
  let head := drop_to_slash (String.rev p) in
  match drop_slashes head with
  | EmptyString => String.rev head
  | stripped => String.rev stripped
  end.

Inductive stage : Type := Rc | Final | Post.

Inductive sample_version : Type :=
| Release (release : list N) (st : stage) (n : N)
| Legacy (text : string).

Definition stage_rank (s : stage) : N :=
  match s with Rc => 0 | Final => 1 | Post => 2 end.

(** The numbers of a dotted release, and what follows them. *)
Fixpoint scan_release (fuel : nat) (s : string) : option (list N * string) :=
  match fuel with
  | O => None
  | S fuel' =>
      match scan_digits s with
      | (EmptyString, _) => None
      | (ds, r) =>
          match NilZero.uint_of_string ds with
          | None => None
          | Some u =>
              match r with
              | String "." (String c r' as r1) =>
                  if is_digit c then
                    match scan_release fuel' r1 with
                    | Some (ns, r2) => Some (N.of_uint u :: ns, r2)
                    | None => None
                    end
                  else Some ([N.of_uint u], r)
              | _ => Some ([N.of_uint u], r)
              end
          end
      end
  end.

Definition scan_number (s : string) : option N :=
  match scan_digits s with
  | (EmptyString, _) => None
  | (ds, EmptyString) =>
      match NilZero.uint_of_string ds with
      | Some u => Some (N.of_uint u)
      | None => None
      end
  | _ => None
  end.

Definition parse_sample (s : string) : sample_version :=
  match scan_release (S (String.length s)) s with
  | Some (ns, EmptyString) => Release ns Final 0
  | Some (ns, String "r" (String "c" r)) =>
      match scan_number r with
      | Some n => Release ns Rc n
      | None => Legacy s
      end
  | Some (ns, String "." (String "p" (String "o" (String "s" (String "t" r))))) =>
      match scan_number r with
      | Some n => Release ns Post n
      | None => Legacy s
      end
  | _ => Legacy s
  end.

Definition some_nonzero (l : list N) : bool :=
  existsb (fun n => negb (N.eqb n 0)) l.

(** Releases compare number by number, a missing number being [0]. *)
Fixpoint release_compare (a b : list N) : comparison :=
  match a, b with
  | [], _ => if some_nonzero b then Lt else Eq
  | _, [] => if some_nonzero a then Gt else Eq
  | x :: a', y :: b' =>
      match N.compare x y with Eq => release_compare a' b' | c => c end
  end.

Definition lt (a b : sample_version) : bool :=
  match a, b with
  | Legacy x, Legacy y => String.ltb x y
  | Legacy _, Release _ _ _ => true
  | Release _ _ _, Legacy _ => false
  | Release ra sa na, Release rb sb nb =>
      match release_compare ra rb with
      | Lt => true
      | Gt => false
      | Eq =>
          match N.compare (stage_rank sa) (stage_rank sb) with
          | Lt => true
          | Gt => false
          | Eq => N.ltb na nb
          end
      end
  end.

Definition show_N (n : N) : string := NilZero.string_of_uint (N.to_uint n).

Fixpoint join_dot (l : list string) : string :=
  match l with
  | [] => ""
  | [x] => x
  | x :: l' => x +:+ String "." (join_dot l')
  end.

Definition base (v : sample_version) : string :=
  match v with
  | Release r _ _ => join_dot (map show_N r)
  | Legacy s => s
  end.

Definition show (v : sample_version) : string :=
  match v with
  | Release r Final _ => join_dot (map show_N r)
  | Release r Rc n => join_dot (map show_N r) +:+ "rc" +:+ show_N n
  | Release r Post n => join_dot (map show_N r) +:+ ".post" +:+ show_N n
  | Legacy s => s
  end.

Definition prefix : string := "/usr".
Definition cache : string := "/home/u/.cache/ins".
Definition statefile : string := "/home/u/.cache/ins/selfcheck.json".

Definition now : datetime :=
  {| Datetime.year := 2019; Datetime.month := 3; Datetime.day := 15;
     Datetime.hour := 12; Datetime.minute := 0; Datetime.second := 0;
     Datetime.microsecond := 250000 |}.

Definition installer (lines : list string) : Distribution :=
  {| has_metadata := fun name => String.eqb name "INSTALLER";
     get_metadata_lines := fun _ => Ret lines |}.

(** A self-installed [ins] of version [installed], the index offering
    [remote], at the instant [t]. *)
Definition world (installed : res (option string)) (remote : res (option string))
  (t : datetime) (owner : bool) : World :=
  {| sys_prefix := prefix;
     WINDOWS := false;
     utcnow := t;
     path_join := join;
     path_dirname := dirname;
     check_path_owner := fun _ => owner;
     makedirs_error := fun _ => None;
     lock_error := fun _ => None;
     get_installed_version := fun _ => installed;
     version := sample_version;
     parse := fun s => Ret (parse_sample s);
     version_lt := lt;
     base_version := base;
     version_str := show;
     find_best_candidate := fun _ _ =>
       match remote with
       | Ret (Some s) => Ret (Some (parse_sample s))
       | Ret None => Ret None
       | Raise e => Raise e
       end;
     get_distribution := fun _ => Ret (installer ["ins"]) |}.

Definition options : Options :=
  {| cache_dir := Some cache;
     find_links := [];
     index_url := "https://pypi.org/simple";
     extra_index_urls := [];
     trusted_hosts := [] |}.

Definition empty_fs : FS := {| files := ∅; dirs := ∅; locks := ∅ |}.

(** A file system holding only the state file, with the given text. *)
Definition fs_with (text : string) : FS :=
  {| files := {[statefile := Regular text]}; dirs := {[cache]}; locks := ∅ |}.

End Sample.

(** ** The sample installation in a few situations *)

Module Cases.
Import Sample.

(** [ins] 1.0.0 installed by itself, 1.1.0 on the index. *)
Definition w_upgrade : World :=
  world (Ret (Some "1.0.0")) (Ret (Some "1.1.0")) now true.

(** The same, the cache directory belonging to someone else. *)
Definition w_foreign : World :=
  world (Ret (Some "1.0.0")) (Ret (Some "1.1.0")) now false.

(** The installed version cannot be determined: the lookup raises. *)
Definition w_conflict : World :=
  world (Raise (OtherException "VersionConflict")) (Ret (Some "1.1.0")) now true.

Definition unloaded : SelfCheckState :=
  {| state := JObj []; statefile_path := Some statefile |}.

Definition other_entry : json :=
  JObj [("last_check", JStr "2019-03-01T08:00:00Z");
        ("pypi_version", JStr "19.0.3")].

Definition cached_entry_at (last_check : string) : list (string * json) :=
  [("last_check", JStr last_check); ("pypi_version", JStr "1.1.0")].

(** A state file written by another environment. *)
Definition other_text : string := dumps (JObj [("/opt/venv", other_entry)]).

(** A state file with an entry of this environment. *)
Definition cached_text (last_check : string) : string :=
  dumps (JObj [("/usr", JObj (cached_entry_at last_check))]).

Definition loaded (last_check : string) : SelfCheckState :=
  {| state := JObj (cached_entry_at last_check);
     statefile_path := Some statefile |}.

Definition at_time (y mo d h mi s : Z) : datetime :=
  {| Datetime.year := y; Datetime.month := mo; Datetime.day := d;
     Datetime.hour := h; Datetime.minute := mi; Datetime.second := s;
     Datetime.microsecond := 0 |}.

End Cases.

(** ** The timestamp that is stored *)

(** The instant [strftime] keeps of [t]: [SELFCHECK_DATE_FMT] has no
    directive for the microseconds. *)
Definition whole_second (t : datetime) : datetime :=
  {| Datetime.year := Datetime.year t; Datetime.month := Datetime.month t;
     Datetime.day := Datetime.day t; Datetime.hour := Datetime.hour t;
     Datetime.minute := Datetime.minute t; Datetime.second := Datetime.second t;
     Datetime.microsecond := 0 |}.

(** Whether a class of the directives' patterns takes the digit [d]. *)
Definition accepts_digit (k : Datetime.cclass) (d : Z) : bool :=
  match k with
  | Datetime.Digit => true
  | Datetime.Between lo hi => ((Z.of_N lo <=? d) && (d <=? Z.of_N hi))%Z
  | Datetime.Space => false
  end.

Ltac decide_digits :=
  cbn [accepts_digit];
  rewrite ?andb_true_iff, ?andb_false_iff, ?Z.leb_le, ?Z.leb_gt;
  Z.to_euclidean_division_equations; lia.

(** ** A later invocation *)

(** The same installation when the clock shows [t]. *)
Definition at_clock (w : World) (t : datetime) : World :=
  {| sys_prefix := sys_prefix w;
     WINDOWS := WINDOWS w;
     utcnow := t;
     path_join := path_join w;
     path_dirname := path_dirname w;
     check_path_owner := check_path_owner w;
     makedirs_error := makedirs_error w;
     lock_error := lock_error w;
     get_installed_version := get_installed_version w;
     version := version w;
     parse := parse w;
     version_lt := version_lt w;
     base_version := base_version w;
     version_str := version_str w;
     find_best_candidate := find_best_candidate w;
     get_distribution := get_distribution w |}.

(** ** The bytes of the state file *)

(** Every character is a printable ASCII character: from the space to
    the tilde. *)
Fixpoint printable (s : string) : bool :=
  match s with
  | EmptyString => true
  | String c r =>
      ((32 <=? N_of_ascii c) && (N_of_ascii c <=? 126))%N && printable r
  end.

(** ** More situations of the sample installation *)

Module Situations.
Import Sample Cases.

(** The index has no candidate for [ins]. *)
Definition w_no_candidate : World :=
  world (Ret (Some "1.0.0")) (Ret None) now true.

(** The lock of the state file cannot be taken. *)
Definition w_lock_fails : World :=
  {| sys_prefix := prefix;
     WINDOWS := false;
     utcnow := now;
     path_join := join;
     path_dirname := dirname;
     check_path_owner := fun _ => true;
     makedirs_error := fun _ => None;
     lock_error := fun _ => Some LockFailed;
     get_installed_version := fun _ => Ret (Some "1.0.0");
     version := sample_version;
     parse := fun s => Ret (parse_sample s);
     version_lt := lt;
     base_version := base;
     version_str := show;
     find_best_candidate := fun _ _ => Ret (Some (parse_sample "1.1.0"));
     get_distribution := fun _ => Ret (installer ["ins"]) |}.

(** A virtual environment of the same user: another [sys.prefix], the
    same cache directory. *)
Definition w_venv : World :=
  {| sys_prefix := "/opt/venv";
     WINDOWS := false;
     utcnow := now;
     path_join := join;
     path_dirname := dirname;
     check_path_owner := fun _ => true;
     makedirs_error := fun _ => None;
     lock_error := fun _ => None;
     get_installed_version := fun _ => Ret (Some "1.0.0");
     version := sample_version;
     parse := fun s => Ret (parse_sample s);
     version_lt := lt;
     base_version := base;
     version_str := show;
     find_best_candidate := fun _ _ => Ret (Some (parse_sample "1.1.0"));
     get_distribution := fun _ => Ret (installer ["ins"]) |}.

(** [ins] installed by the system's package manager. *)
Definition rpm_installed : Distribution := installer ["rpm"].

(** Options without a cache directory. *)
Definition options_no_cache : Options :=
  {| cache_dir := None;
     find_links := [];
     index_url := "https://pypi.org/simple";
     extra_index_urls := [];
     trusted_hosts := [] |}.

(** Five days after [now], and eight days after. *)
Definition five_days_later : datetime := at_time 2019 3 20 12 0 0.
Definition eight_days_later : datetime := at_time 2019 3 23 12 0 0.

End Situations.

(** * Facts about the JSON codec *)

Module JsonFacts.
Import Json JsonShape.

Lemma append_cons (c : ascii) (s t : string) :
  String c s +:+ t = String c (s +:+ t).
Proof. reflexivity. Qed.

Lemma append_nil_l (t : string) : "" +:+ t = t.
Proof. reflexivity. Qed.

Lemma append_assoc (s1 s2 s3 : string) :
  (s1 +:+ s2) +:+ s3 = s1 +:+ (s2 +:+ s3).
Proof.
  induction s1 as [|c s1 IH]; [reflexivity |].
  rewrite !append_cons. now f_equal.
Qed.

Lemma append_nil_r (s : string) : s +:+ "" = s.
Proof.
  induction s as [|c s IH]; [reflexivity |].
  rewrite append_cons. now f_equal.
Qed.

Lemma length_append (s1 s2 : string) :
  String.length (s1 +:+ s2) = (String.length s1 + String.length s2)%nat.
Proof.
  induction s1 as [|c s1 IH]; [reflexivity |].
  rewrite append_cons. simpl. now rewrite IH.
Qed.

(** *** Strings *)

Lemma scanstring_escape_char (c : ascii) (rest : string) :
  scanstring (escape_char c +:+ rest) = push c (scanstring rest).
Proof. destruct c as [[] [] [] [] [] [] [] []]; reflexivity. Qed.

Lemma scanstring_escape_body (s rest : string) :
  scanstring (escape_body s +:+ String dquote rest) = Some (s, rest).
Proof.
  induction s as [|c s IH]; [reflexivity |].
  change (escape_body (String c s)) with (escape_char c +:+ escape_body s).
  now rewrite append_assoc, scanstring_escape_char, IH.
Qed.

(** *** Character classes *)

Lemma is_digit_head c : is_digit c = true -> value_head c = true.
Proof. by_cases_on c. Qed.

Lemma value_head_not_ws c : value_head c = true -> is_ws c = false.
Proof. by_cases_on c. Qed.

Lemma value_head_not_close c :
  value_head c = true -> Ascii.eqb "]" c = false /\ Ascii.eqb "}" c = false.
Proof. by_cases_on c; now split. Qed.

Lemma is_digit_dispatch c :
  is_digit c = true ->
  Ascii.eqb c dquote = false /\ Ascii.eqb c "{" = false /\ Ascii.eqb c "[" = false
  /\ Ascii.eqb c "n" = false /\ Ascii.eqb c "t" = false
  /\ Ascii.eqb c "f" = false /\ Ascii.eqb c "-" = false.
Proof. by_cases_on c; repeat split. Qed.

Lemma at_delim_not_digit rest : at_delim rest = true -> scan_digits rest = ("", rest).
Proof.
  destruct rest as [|c r]; [reflexivity |]. simpl.
  intros H. replace (is_digit c) with false; [reflexivity |].
  revert H. by_cases_on c.
Qed.

Lemma at_delim_not_float rest : at_delim rest = true -> starts_float_tail rest = false.
Proof. destruct rest as [|c r]; [reflexivity |]. simpl. by_cases_on c. Qed.

Lemma at_delim_skip_ws rest : at_delim rest = true -> skip_ws rest = rest.
Proof.
  destruct rest as [|c r]; [reflexivity |]. simpl. intros H.
  replace (is_ws c) with false; [reflexivity |]. revert H. by_cases_on c.
Qed.

(** *** Integers *)

Lemma scan_digits_uint (d : Decimal.uint) (rest : string) :
  at_delim rest = true ->
  scan_digits (NilEmpty.string_of_uint d +:+ rest)
  = (NilEmpty.string_of_uint d, rest).
Proof.
  intros Hr. induction d; simpl NilEmpty.string_of_uint;
    rewrite ?append_cons, ?append_nil_l;
    try (now apply at_delim_not_digit);
    cbn [scan_digits]; rewrite IHd; reflexivity.
Qed.

Lemma nzhead_not_D0 (u v : Decimal.uint) : Decimal.nzhead u <> Decimal.D0 v.
Proof. induction u; simpl; try discriminate; assumption. Qed.

Lemma pos_to_uint_not_D0 (p : positive) (u : Decimal.uint) :
  Pos.to_uint p <> Decimal.D0 u.
Proof.
  intros H.
  pose proof (DecimalN.Unsigned.to_of (Pos.to_uint p)) as E.
  rewrite (DecimalN.Unsigned.of_to (Npos p) : N.of_uint (Pos.to_uint p) = Npos p) in E.
  change (N.to_uint (N.pos p)) with (Pos.to_uint p) in E.
  rewrite H in E. rewrite unorm_D0 in E. unfold Decimal.unorm in E.
  pose proof (nzhead_not_D0 u) as Hnz.
  destruct (Decimal.nzhead u) eqn:Hn; try discriminate.
  - apply (DecimalPos.Unsigned.to_uint_nonzero p). rewrite H. exact E.
  - now apply (Hnz u0).
Qed.

Lemma uint_string_head (d : Decimal.uint) :
  d <> Decimal.Nil -> (forall u, d <> Decimal.D0 u) ->
  exists c r, NilEmpty.string_of_uint d = String c r
              /\ is_digit c = true /\ (N_of_ascii c =? 48)%N = false.
Proof.
  intros Hnil H0. destruct d; try congruence;
    try (eexists _, _; repeat split; reflexivity).
Qed.

Lemma scan_nat_pos (p : positive) (rest : string) :
  at_delim rest = true ->
  scan_nat (NilZero.string_of_uint (Pos.to_uint p) +:+ rest) = Some (Npos p, rest).
Proof.
  intros Hr.
  pose proof (DecimalPos.Unsigned.to_uint_nonnil p) as Hnil.
  assert (NilZero.string_of_uint (Pos.to_uint p)
          = NilEmpty.string_of_uint (Pos.to_uint p)) as E0.
  { unfold NilZero.string_of_uint. destruct (Pos.to_uint p); congruence. }
  destruct (uint_string_head _ Hnil (pos_to_uint_not_D0 p)) as (c & r & E & Hd & Hz).
  rewrite E0, E, append_cons. unfold scan_nat. rewrite Hz, Hd.
  rewrite <- append_cons, <- E, scan_digits_uint by exact Hr.
  rewrite at_delim_not_float by exact Hr.
  rewrite <- E0, NilZero.usu by exact Hnil.
  f_equal. f_equal. apply (DecimalN.Unsigned.of_to (Npos p)).
Qed.

Lemma encode_int_head (z : Z) :
  exists c r, encode_int z = String c r /\ value_head c = true.
Proof.
  destruct z as [|p|p]; simpl.
  - eexists _, _; split; reflexivity.
  - pose proof (DecimalPos.Unsigned.to_uint_nonnil p) as Hnil.
    destruct (uint_string_head _ Hnil (pos_to_uint_not_D0 p)) as (c & r & E & Hd & _).
    exists c, r. split; [| now apply is_digit_head].
    rewrite <- E. unfold NilZero.string_of_uint.
    destruct (Pos.to_uint p); congruence.
  - eexists _, _; split; reflexivity.
Qed.

Lemma dumps_head (v : json) :
  exists c r, dumps v = String c r /\ value_head c = true.
Proof.
  destruct v as [|[]|z|s|l|d]; try (eexists _, _; split; reflexivity).
  apply encode_int_head.
Qed.

Lemma skip_ws_head (c : ascii) (r : string) :
  value_head c = true -> skip_ws (String c r) = String c r.
Proof. intros H. simpl. now rewrite value_head_not_ws. Qed.

Lemma skip_ws_dumps (v : json) (rest : string) :
  skip_ws (dumps v +:+ rest) = dumps v +:+ rest.
Proof.
  destruct (dumps_head v) as (c & r & E & H). rewrite E, append_cons.
  now apply skip_ws_head.
Qed.

Lemma peek_close_dumps (v : json) (rest : string) :
  peek "]" (dumps v +:+ rest) = None /\ peek "}" (dumps v +:+ rest) = None.
Proof.
  destruct (dumps_head v) as (c & r & E & H). rewrite E, append_cons.
  destruct (value_head_not_close c H) as [H1 H2]. unfold peek. now rewrite H1, H2.
Qed.

Lemma parse_int (z : Z) (fuel : nat) (rest : string) :
  at_delim rest = true ->
  parse_value (S fuel) (encode_int z +:+ rest) = Some (JInt z, rest).
Proof.
  intros Hr. destruct z as [|p|p]; unfold encode_int.
  - rewrite append_cons, append_nil_l. simpl.
    now rewrite at_delim_not_float.
  - pose proof (scan_nat_pos p rest Hr) as Hs.
    pose proof (DecimalPos.Unsigned.to_uint_nonnil p) as Hnil.
    destruct (uint_string_head _ Hnil (pos_to_uint_not_D0 p)) as (c & r & E & Hd & _).
    assert (NilZero.string_of_uint (Pos.to_uint p) = String c r) as E'.
    { rewrite <- E. unfold NilZero.string_of_uint.
      destruct (Pos.to_uint p); congruence. }
    rewrite E', append_cons in *.
    destruct (is_digit_dispatch c Hd) as (H1 & H2 & H3 & H4 & H5 & H6 & H7).
    cbn [parse_value]. rewrite H1, H2, H3, H4, H5, H6, H7, Hs. reflexivity.
  - rewrite append_cons. cbn [parse_value]. simpl Ascii.eqb. cbv iota.
    now rewrite scan_nat_pos.
Qed.

(** *** Key order *)

Lemma compare_refl (a : string) : String.compare a a = Eq.
Proof.
  induction a as [|c a IH]; [reflexivity |]. simpl.
  unfold Ascii.compare. now rewrite N.compare_refl.
Qed.

Lemma ltb_leb (a b : string) : String.ltb a b = true -> String.leb a b = true.
Proof. unfold String.ltb, String.leb. now destruct (String.compare a b). Qed.

Lemma ltb_neq (a b : string) : String.ltb a b = true -> a <> b.
Proof.
  unfold String.ltb. intros H ->. now rewrite compare_refl in H.
Qed.

Lemma ltb_of_leb (a b : string) :
  String.leb a b = true -> a <> b -> String.ltb a b = true.
Proof.
  unfold String.ltb, String.leb. intros H Hne.
  destruct (String.compare a b) eqn:E; try reflexivity; try discriminate.
  now apply String.compare_eq_iff in E.
Qed.

Lemma ltb_trans (a b c : string) :
  String.ltb a b = true -> String.ltb b c = true -> String.ltb a c = true.
Proof.
  intros Hab Hbc.
  assert (String.le a b) as Lab by (now apply Is_true_true, ltb_leb).
  assert (String.le b c) as Lbc by (now apply Is_true_true, ltb_leb).
  apply ltb_of_leb.
  - apply Is_true_true. change (String.le a c). now transitivity b.
  - intros ->. apply (ltb_neq _ _ Hab). now apply (anti_symm String.le).
Qed.

Lemma ltb_compare_gt (a b : string) :
  String.ltb a b = true -> String.compare b a = Gt.
Proof.
  unfold String.ltb. rewrite (String.compare_antisym a b).
  now destruct (String.compare b a).
Qed.

Lemma keys_sorted_tail (k : string) (ks : list string) :
  keys_sorted (k :: ks) = true -> keys_sorted ks = true.
Proof. destruct ks as [|k' ks]; [reflexivity |]. simpl. now intros [_ H]%andb_prop. Qed.

Lemma keys_sorted_snoc_inv (ks : list string) (k : string) :
  keys_sorted (ks ++ [k]) = true ->
  keys_sorted ks = true /\ Forall (fun k' => String.ltb k' k = true) ks.
Proof.
  induction ks as [|a ks IH]; [now split |].
  destruct ks as [|b ks].
  - simpl. rewrite andb_true_r. intros H. split; [reflexivity |].
    now constructor.
  - change (keys_sorted ((a :: b :: ks) ++ [k]))
      with (String.ltb a b && keys_sorted ((b :: ks) ++ [k])).
    intros [Hab Hs]%andb_prop. destruct (IH Hs) as [Hs' Hall].
    split.
    + change (String.ltb a b && keys_sorted (b :: ks) = true).
      now rewrite Hab, Hs'.
    + constructor; [| exact Hall].
      inversion Hall; subst. now apply (ltb_trans a b k).
Qed.

Lemma insert_item_sorted {A} (kv : string * A) (l : list (string * A)) :
  keys_sorted (map fst (kv :: l)) = true -> insert_item kv l = kv :: l.
Proof.
  destruct l as [|kv' l]; [reflexivity |]. simpl.
  intros [H _]%andb_prop. now rewrite (ltb_leb _ _ H).
Qed.

Lemma sort_items_sorted {A} (l : list (string * A)) :
  keys_sorted (map fst l) = true -> sort_items l = l.
Proof.
  induction l as [|kv l IH]; [reflexivity |]. intros H.
  change (sort_items (kv :: l)) with (insert_item kv (sort_items l)).
  rewrite IH by (now apply (keys_sorted_tail (fst kv))).
  now apply insert_item_sorted.
Qed.

(** *** Dicts *)

Lemma dict_set_append (k : string) (v : json) (d : list (string * json)) :
  Forall (fun k' => String.ltb k' k = true) (map fst d) ->
  dict_set k v d = d ++ [(k, v)].
Proof.
  induction d as [|[k' v'] d IH]; [reflexivity |]. simpl.
  intros H. inversion H; subst.
  rewrite (ltb_compare_gt k' k) by assumption. now rewrite IH.
Qed.

Lemma dict_of_pairs_sorted (d : list (string * json)) :
  keys_sorted (map fst d) = true -> dict_of_pairs d = d.
Proof.
  unfold dict_of_pairs.
  induction d as [|[k v] d IH] using rev_ind; [reflexivity |].
  rewrite map_app. simpl map. intros [Hs Hall]%keys_sorted_snoc_inv.
  rewrite fold_left_app. simpl. rewrite IH by exact Hs.
  now apply dict_set_append.
Qed.

Lemma dict_get_set_eq (k : string) (v : json) (d : list (string * json)) :
  dict_get k (dict_set k v d) = Some v.
Proof.
  induction d as [|[k' v'] d IH]; simpl.
  - now rewrite String.eqb_refl.
  - destruct (String.compare k k') eqn:E; simpl.
    + now rewrite String.eqb_refl.
    + now rewrite String.eqb_refl.
    + destruct (String.eqb_spec k k') as [->|]; [| exact IH].
      now rewrite compare_refl in E.
Qed.

Lemma dict_get_set_ne (k k' : string) (v : json) (d : list (string * json)) :
  k <> k' -> dict_get k' (dict_set k v d) = dict_get k' d.
Proof.
  intros Hne. induction d as [|[k0 v0] d IH]; simpl.
  - destruct (String.eqb_spec k' k); congruence.
  - destruct (String.compare k k0) eqn:E; simpl.
    + apply String.compare_eq_iff in E. subst k0.
      destruct (String.eqb_spec k' k); congruence.
    + destruct (String.eqb_spec k' k); congruence.
    + destruct (String.eqb_spec k' k0); [reflexivity | exact IH].
Qed.

Lemma dict_set_idem (k : string) (v : json) (d : list (string * json)) :
  dict_set k v (dict_set k v d) = dict_set k v d.
Proof.
  induction d as [|[k' v'] d IH]; simpl.
  - now rewrite compare_refl.
  - destruct (String.compare k k') eqn:E; simpl.
    + now rewrite compare_refl.
    + now rewrite compare_refl.
    + now rewrite E, IH.
Qed.

Lemma dict_set_keys_sorted (k : string) (v : json) (d : list (string * json)) :
  keys_sorted (map fst d) = true ->
  keys_sorted (map fst (dict_set k v d)) = true.
Proof.
  induction d as [|[k' v'] d IH]; [reflexivity |].
  intros Hs. simpl dict_set. destruct (String.compare k k') eqn:E.
  - apply String.compare_eq_iff in E. now subst k'.
  - change (String.ltb k k' && keys_sorted (map fst ((k', v') :: d)) = true).
    unfold String.ltb at 1. now rewrite E, Hs.
  - pose proof (IH (keys_sorted_tail _ _ Hs)) as IH'.
    assert (String.ltb k' k = true) as Hlt.
    { unfold String.ltb. rewrite (String.compare_antisym k' k), E. reflexivity. }
    destruct d as [|[k2 v2] d].
    + simpl. now rewrite Hlt.
    + simpl in Hs. apply andb_prop in Hs as [H12 _].
      revert IH'. simpl dict_set. destruct (String.compare k k2);
        simpl; intros IH'; rewrite ?Hlt, ?H12; simpl; exact IH'.
Qed.

Lemma dict_set_forallb (P : string * json -> bool) (k : string) (v : json)
      (d : list (string * json)) :
  P (k, v) = true -> forallb P d = true -> forallb P (dict_set k v d) = true.
Proof.
  intros Hk. induction d as [|[k' v'] d IH]; simpl.
  - now rewrite Hk.
  - intros [H1 H2]%andb_prop. destruct (String.compare k k'); simpl.
    + now rewrite Hk, H2.
    + now rewrite Hk, H1, H2.
    + now rewrite H1, IH.
Qed.

Lemma dict_set_canonical (k : string) (v : json) (d : list (string * json)) :
  canonical v = true -> canonical (JObj d) = true ->
  canonical (JObj (dict_set k v d)) = true.
Proof.
  simpl. intros Hv [Hs Hf]%andb_prop.
  rewrite dict_set_keys_sorted by exact Hs.
  now rewrite (dict_set_forallb (fun kv => canonical (snd kv))).
Qed.

Lemma dict_of_pairs_canonical (ps : list (string * json)) :
  forallb (fun kv => canonical (snd kv)) ps = true ->
  canonical (JObj (dict_of_pairs ps)) = true.
Proof.
  unfold dict_of_pairs.
  assert (forall acc, canonical (JObj acc) = true ->
            forallb (fun kv => canonical (snd kv)) ps = true ->
            canonical (JObj (fold_left
               (fun d kv => dict_set (fst kv) (snd kv) d) ps acc)) = true) as G.
  { induction ps as [|[k v] ps IH]; intros acc Ha; [now intros _ |].
    simpl forallb. intros [Hv Hps]%andb_prop. simpl fold_left.
    apply IH; [| exact Hps]. now apply dict_set_canonical. }
  now apply G.
Qed.


(** *** Decoding an encoded document *)

Lemma parse_elements_eq (fuel : nat) (s : string) :
  parse_elements (S fuel) s
  = match parse_value fuel s with
    | Some (v, r1) =>
        match peek "]" (skip_ws r1) with
        | Some r2 => Some ([v], r2)
        | None =>
            match peek "," (skip_ws r1) with
            | Some r2 =>
                match parse_elements fuel (skip_ws r2) with
                | Some (vs, r3) => Some (v :: vs, r3)
                | None => None
                end
            | None => None
            end
        end
    | None => None
    end.
Proof. reflexivity. Qed.

Lemma parse_members_eq (fuel : nat) (s : string) :
  parse_members (S fuel) s
  = match peek dquote s with
    | Some r =>
        match scanstring r with
        | Some (k, r1) =>
            match peek ":" (skip_ws r1) with
            | Some r2 =>
                match parse_value fuel (skip_ws r2) with
                | Some (v, r3) =>
                    match peek "}" (skip_ws r3) with
                    | Some r4 => Some ([(k, v)], r4)
                    | None =>
                        match peek "," (skip_ws r3) with
                        | Some r4 =>
                            match parse_members fuel (skip_ws r4) with
                            | Some (ps, r5) => Some ((k, v) :: ps, r5)
                            | None => None
                            end
                        | None => None
                        end
                    end
                | None => None
                end
            | None => None
            end
        | None => None
        end
    | None => None
    end.
Proof. reflexivity. Qed.

Lemma parse_value_arr (fuel : nat) (r : string) :
  parse_value (S fuel) (String "[" r)
  = match peek "]" (skip_ws r) with
    | Some r' => Some (JArr [], r')
    | None =>
        match parse_elements fuel (skip_ws r) with
        | Some (vs, r') => Some (JArr vs, r')
        | None => None
        end
    end.
Proof. reflexivity. Qed.

Lemma parse_value_obj (fuel : nat) (r : string) :
  parse_value (S fuel) (String "{" r)
  = match peek "}" (skip_ws r) with
    | Some r' => Some (JObj [], r')
    | None =>
        match parse_members fuel (skip_ws r) with
        | Some (ps, r') => Some (JObj (dict_of_pairs ps), r')
        | None => None
        end
    end.
Proof. reflexivity. Qed.

Lemma parse_value_str (fuel : nat) (r : string) :
  parse_value (S fuel) (String dquote r)
  = match scanstring r with
    | Some (str, r') => Some (JStr str, r')
    | None => None
    end.
Proof. reflexivity. Qed.

Lemma members_text (d : list (string * json)) :
  map encode_member (map (fun kv => (fst kv, dumps (snd kv))) d)
  = map member_text d.
Proof. rewrite map_map. reflexivity. Qed.

Lemma skip_ws_nonws (c : ascii) (r : string) :
  is_ws c = false -> skip_ws (String c r) = String c r.
Proof. intros H. simpl. now rewrite H. Qed.

Lemma peek_hit (c : ascii) (r : string) : peek c (String c r) = Some r.
Proof. unfold peek. now rewrite Ascii.eqb_refl. Qed.

Lemma peek_miss (c c' : ascii) (r : string) :
  Ascii.eqb c c' = false -> peek c (String c' r) = None.
Proof. intros H. unfold peek. now rewrite H. Qed.

Lemma join_comma_cons (x : string) (l : list string) :
  l <> [] -> join_comma (x :: l) = x +:+ String "," (join_comma l).
Proof. destruct l; [congruence | reflexivity]. Qed.

Lemma join_comma_head {A} (f : A -> string) (x : A) (l : list A) :
  exists t, join_comma (map f (x :: l)) = f x +:+ t.
Proof.
  destruct l; [exists ""; now rewrite append_nil_r | eexists; reflexivity].
Qed.

Lemma parse_elements_dumps (l : list json) :
  l <> [] -> Forall roundtrips l -> forallb canonical l = true ->
  forall (fuel : nat) (rest : string),
    (String.length (join_comma (map dumps l)) < fuel)%nat ->
    parse_elements fuel (join_comma (map dumps l) +:+ String "]" rest)
    = Some (l, rest).
Proof.
  induction l as [|v l IH]; [congruence |].
  intros _ HF Hc fuel rest Hlen. inversion HF as [|? ? Hv HF']; subst.
  simpl in Hc. apply andb_prop in Hc as [Hcv Hcl].
  destruct fuel as [|fuel]; [lia |]. rewrite parse_elements_eq.
  destruct l as [|v' l0].
  - change (join_comma (map dumps [v])) with (dumps v) in *.
    rewrite (Hv Hcv) by (reflexivity || lia).
    rewrite skip_ws_nonws by reflexivity. now rewrite peek_hit.
  - destruct (join_comma_head dumps v' l0) as [t Et].
    assert (v' :: l0 <> []) as Hne by congruence.
    remember (v' :: l0) as l eqn:El. clear El.
    rewrite map_cons, join_comma_cons in * by (destruct l; simpl; congruence).
    rewrite length_append in Hlen. simpl String.length in Hlen.
    rewrite append_assoc, append_cons.
    rewrite (Hv Hcv) by (reflexivity || lia).
    rewrite skip_ws_nonws by reflexivity.
    rewrite peek_miss by reflexivity. rewrite peek_hit.
    assert (skip_ws (join_comma (map dumps l) +:+ String "]" rest)
            = join_comma (map dumps l) +:+ String "]" rest) as ->.
    { rewrite Et, append_assoc. apply skip_ws_dumps. }
    rewrite IH; [reflexivity | exact Hne | exact HF' | exact Hcl | lia].
Qed.

Lemma member_text_head (kv : string * json) :
  exists t, member_text kv = String dquote t.
Proof. destruct kv as [k v]. eexists. reflexivity. Qed.

Lemma parse_members_dumps (d : list (string * json)) :
  d <> [] -> Forall (fun kv => roundtrips (snd kv)) d ->
  forallb (fun kv => canonical (snd kv)) d = true ->
  forall (fuel : nat) (rest : string),
    (String.length (join_comma (map member_text d)) < fuel)%nat ->
    parse_members fuel (join_comma (map member_text d) +:+ String "}" rest)
    = Some (d, rest).
Proof.
  induction d as [|[k v] d IH]; [congruence |].
  intros _ HF Hc fuel rest Hlen. inversion HF as [|? ? Hv HF']; subst.
  simpl in Hv. simpl in Hc. apply andb_prop in Hc as [Hcv Hcl].
  destruct fuel as [|fuel]; [lia |]. rewrite parse_members_eq.
  assert (forall R, member_text (k, v) +:+ R
            = String dquote (escape_body k +:+ String dquote (String ":" (dumps v +:+ R))))
    as Em.
  { intros R. unfold member_text, encode_basestring_ascii. simpl fst. simpl snd.
    now rewrite !append_cons, !append_assoc, !append_cons, append_nil_l. }
  assert (String.length (dumps v) <= String.length (member_text (k, v)))%nat as Hl.
  { unfold member_text. rewrite length_append.
    cbn [String.length fst snd].
    lia. }
  destruct d as [|kv' d0].
  - change (join_comma (map member_text [(k, v)])) with (member_text (k, v)) in *.
    rewrite Em, peek_hit, scanstring_escape_body.
    rewrite skip_ws_nonws by reflexivity. rewrite peek_hit, skip_ws_dumps.
    rewrite (Hv Hcv) by (reflexivity || lia).
    rewrite skip_ws_nonws by reflexivity. now rewrite peek_hit.
  - destruct (join_comma_head member_text kv' d0) as [t Et].
    destruct (member_text_head kv') as [t' Et'].
    assert (kv' :: d0 <> []) as Hne by congruence.
    remember (kv' :: d0) as d eqn:Ed. clear Ed.
    rewrite map_cons, join_comma_cons in * by (destruct d; simpl; congruence).
    rewrite length_append in Hlen. cbn [String.length] in Hlen.
    rewrite append_assoc, append_cons.
    rewrite Em, peek_hit, scanstring_escape_body.
    rewrite skip_ws_nonws by reflexivity. rewrite peek_hit, skip_ws_dumps.
    rewrite (Hv Hcv) by (reflexivity || lia).
    rewrite skip_ws_nonws by reflexivity.
    rewrite peek_miss by reflexivity. rewrite peek_hit.
    assert (skip_ws (join_comma (map member_text d) +:+ String "}" rest)
            = join_comma (map member_text d) +:+ String "}" rest) as ->.
    { rewrite Et, Et', !append_cons. now apply skip_ws_nonws. }
    rewrite IH; [reflexivity | exact Hne | exact HF' | exact Hcl | lia].
Qed.

(** Every canonical document round-trips. *)
Lemma parse_dumps (v : json) : roundtrips v.
Proof.
  induction v as [| b | z | s | l IH | d IH] using json_nested_ind;
    intros Hc fuel rest Hr Hlen.
  - destruct fuel; [simpl in Hlen; lia | reflexivity].
  - destruct fuel; [destruct b; simpl in Hlen; lia | destruct b; reflexivity].
  - destruct fuel.
    + destruct (encode_int_head z) as (c & r & E & _).
      simpl dumps in Hlen. rewrite E in Hlen. simpl in Hlen. lia.
    + now apply parse_int.
  - destruct fuel; [simpl in Hlen; lia |].
    simpl dumps. unfold encode_basestring_ascii.
    rewrite append_cons, append_assoc, append_cons, append_nil_l.
    now rewrite parse_value_str, scanstring_escape_body.
  - destruct fuel; [simpl in Hlen; lia |].
    simpl dumps in *. simpl String.length in Hlen.
    rewrite length_append in Hlen. simpl String.length in Hlen.
    rewrite append_cons, append_assoc, append_cons, append_nil_l.
    rewrite parse_value_arr. destruct l as [|v l].
    + change (join_comma (map dumps [])) with "". rewrite append_nil_l.
      rewrite skip_ws_nonws by reflexivity. now rewrite peek_hit.
    + destruct (join_comma_head dumps v l) as [t Et].
      assert (skip_ws (join_comma (map dumps (v :: l)) +:+ String "]" rest)
              = join_comma (map dumps (v :: l)) +:+ String "]" rest) as ->.
      { rewrite Et, append_assoc. apply skip_ws_dumps. }
      assert (peek "]" (join_comma (map dumps (v :: l)) +:+ String "]" rest)
              = None) as ->.
      { rewrite Et, append_assoc. apply peek_close_dumps. }
      rewrite parse_elements_dumps; [reflexivity | congruence | exact IH
                                     | exact Hc | lia].
  - destruct fuel; [simpl in Hlen; lia |].
    simpl in Hc. apply andb_prop in Hc as [Hs Hcv].
    simpl dumps in *.
    rewrite sort_items_sorted in * by (now rewrite map_map).
    rewrite members_text in *.
    simpl String.length in Hlen.
    rewrite length_append in Hlen. simpl String.length in Hlen.
    rewrite append_cons, append_assoc, append_cons, append_nil_l.
    rewrite parse_value_obj. destruct d as [|kv d].
    + change (join_comma (map member_text [])) with "". rewrite append_nil_l.
      rewrite skip_ws_nonws by reflexivity. now rewrite peek_hit.
    + destruct (join_comma_head member_text kv d) as [t Et].
      destruct (member_text_head kv) as [t' Et'].
      assert (skip_ws (join_comma (map member_text (kv :: d)) +:+ String "}" rest)
              = join_comma (map member_text (kv :: d)) +:+ String "}" rest) as ->.
      { rewrite Et, Et', !append_cons. now apply skip_ws_nonws. }
      assert (peek "}" (join_comma (map member_text (kv :: d)) +:+ String "}" rest)
              = None) as ->.
      { rewrite Et, Et', !append_cons. now apply peek_miss. }
      rewrite parse_members_dumps; [| congruence | exact IH | exact Hcv | lia].
      now rewrite dict_of_pairs_sorted.
Qed.

(** [json.loads(json.dumps(v, sort_keys=True, separators=(",", ":"))) == v] *)
Lemma loads_dumps (v : json) : canonical v = true -> loads (dumps v) = Some v.
Proof.
  intros Hc. unfold loads.
  rewrite <- (append_nil_r (dumps v)) at 2. rewrite skip_ws_dumps.
  rewrite (parse_dumps v Hc) by (reflexivity || lia). reflexivity.
Qed.

(** *** Decoded documents are canonical *)

Lemma parse_canonical (fuel : nat) :
  (forall s v r, parse_value fuel s = Some (v, r) -> canonical v = true)
  /\ (forall s ps r, parse_members fuel s = Some (ps, r) ->
        forallb (fun kv => canonical (snd kv)) ps = true)
  /\ (forall s vs r, parse_elements fuel s = Some (vs, r) ->
        forallb canonical vs = true).
Proof.
  induction fuel as [|fuel (IHv & IHm & IHe)]; [repeat split; discriminate |].
  repeat split.
  - intros s v r H. destruct s as [|c s]; [discriminate |].
    cbn [parse_value] in H. split_match H; inversion H; subst; clear H;
      try reflexivity.
    + apply dict_of_pairs_canonical. eauto.
    + simpl. eauto.
  - intros s ps r H. rewrite parse_members_eq in H.
    split_match H; inversion H; subst; clear H; simpl.
    + erewrite IHv by eassumption. reflexivity.
    + erewrite IHv by eassumption. simpl. eauto.
  - intros s vs r H. rewrite parse_elements_eq in H.
    split_match H; inversion H; subst; clear H; simpl.
    + erewrite IHv by eassumption. reflexivity.
    + erewrite IHv by eassumption. simpl. eauto.
Qed.

Lemma loads_canonical (s : string) (v : json) :
  loads s = Some v -> canonical v = true.
Proof.
  unfold loads. intros H. split_match H. inversion H; subst.
  eapply (proj1 (parse_canonical _)). eassumption.
Qed.

End JsonFacts.
Import JsonFacts JsonShape.

(** * Facts about [SelfCheckState] *)

(** *** Running a computation step by step *)

Lemma outcome_eta {A} (o : outcome A) :
  {| result := result o; fs_after := fs_after o; emitted := emitted o |} = o.
Proof. now destruct o. Qed.

Lemma bind_eval {A B} (m : M A) (k : A -> M B) fs a fs' :
  m fs = {| result := Ret a; fs_after := fs'; emitted := [] |} ->
  bind m k fs = k a fs'.
Proof. intros H. unfold bind. rewrite H. cbn. apply outcome_eta. Qed.

Lemma bind_eval_raise {A B} (m : M A) (k : A -> M B) fs e fs' evs :
  m fs = {| result := Raise e; fs_after := fs'; emitted := evs |} ->
  bind m k fs = {| result := Raise e; fs_after := fs'; emitted := evs |}.
Proof. intros H. unfold bind. now rewrite H. Qed.

Lemma path_exists_eq path fs :
  path_exists path fs
  = ret (match files fs !! path with Some _ => true | None => false end) fs.
Proof. reflexivity. Qed.

Lemma load_json_file_eq path fs :
  load_json_file path fs
  = match files fs !! path with
    | Some (Regular text) =>
        match loads text with
        | Some v => ret v fs
        | None => raise ValueError fs
        end
    | _ => raise IOError fs
    end.
Proof.
  unfold load_json_file, bind, get_fs. cbn.
  destruct (files fs !! path) as [[text|]|]; try reflexivity.
  now destruct (loads text).
Qed.

Lemma dump_json_file_eq path v fs :
  dump_json_file path v fs
  = match files fs !! path with
    | Some Unreadable => raise IOError fs
    | _ => {| result := Ret tt;
              fs_after := {| files := <[path := Regular (dumps v)]> (files fs);
                             dirs := dirs fs; locks := locks fs |};
              emitted := [] |}
    end.
Proof.
  unfold dump_json_file, bind, get_fs, put_fs. cbn.
  now destruct (files fs !! path) as [[text|]|].
Qed.

(** *** The locked part of [save] *)

Section locked_facts.
Variables (w : World) (path pv : string) (t : datetime) (fs : FS).

Lemma locked_merges text d :
files fs !! path = Some (Regular text) -> loads text = Some (JObj d) ->
save_locked w path pv t fs
= {| result := Ret tt;
     fs_after :=
       {| files := <[path := Regular (dumps (JObj (dict_set (sys_prefix w)
                                        (entry pv t) d)))]> (files fs);
          dirs := dirs fs; locks := locks fs |};
     emitted := [] |}.
Proof.
intros Hf Hl. unfold save_locked.
rewrite (bind_eval (path_exists path) _ fs true fs)
  by (now rewrite path_exists_eq, Hf).
rewrite (bind_eval (load_json_file path) _ fs (JObj d) fs)
  by (now rewrite load_json_file_eq, Hf, Hl).
cbn [py_setitem lift].
rewrite (bind_eval (ret _) _ fs _ fs) by reflexivity.
now rewrite dump_json_file_eq, Hf.
Qed.

Lemma locked_creates :
files fs !! path = None ->
save_locked w path pv t fs
= {| result := Ret tt;
     fs_after :=
       {| files := <[path := Regular (dumps (JObj (dict_set (sys_prefix w)
                                        (entry pv t) [])))]> (files fs);
          dirs := dirs fs; locks := locks fs |};
     emitted := [] |}.
Proof.
intros Hf. unfold save_locked.
rewrite (bind_eval (path_exists path) _ fs false fs)
  by (now rewrite path_exists_eq, Hf).
rewrite (bind_eval (ret (JObj [])) _ fs _ fs) by reflexivity.
cbn [py_setitem lift].
rewrite (bind_eval (ret _) _ fs _ fs) by reflexivity.
now rewrite dump_json_file_eq, Hf.
Qed.

Lemma locked_unreadable :
files fs !! path = Some Unreadable ->
save_locked w path pv t fs = raise IOError fs.
Proof.
intros Hf. unfold save_locked.
rewrite (bind_eval (path_exists path) _ fs true fs)
  by (now rewrite path_exists_eq, Hf).
apply bind_eval_raise. now rewrite load_json_file_eq, Hf.
Qed.

Lemma locked_corrupt text :
files fs !! path = Some (Regular text) -> loads text = None ->
save_locked w path pv t fs = raise ValueError fs.
Proof.
intros Hf Hl. unfold save_locked.
rewrite (bind_eval (path_exists path) _ fs true fs)
  by (now rewrite path_exists_eq, Hf).
apply bind_eval_raise. now rewrite load_json_file_eq, Hf, Hl.
Qed.

Lemma locked_not_object text doc :
files fs !! path = Some (Regular text) -> loads text = Some doc ->
(forall d, doc <> JObj d) ->
save_locked w path pv t fs = raise TypeError fs.
Proof.
intros Hf Hl Hd. unfold save_locked.
rewrite (bind_eval (path_exists path) _ fs true fs)
  by (now rewrite path_exists_eq, Hf).
rewrite (bind_eval (load_json_file path) _ fs doc fs)
  by (now rewrite load_json_file_eq, Hf, Hl).
apply bind_eval_raise.
destruct doc; try reflexivity. now destruct (Hd members).
Qed.
End locked_facts.

(** *** [save] *)

Section save_facts.
Variables (w : World) (self : SelfCheckState) (pv : string) (t : datetime).
Variables (path : string) (fs : FS).
Hypothesis Hpath : statefile_path self = Some path.

Lemma save_not_owner :
check_path_owner w (path_dirname w path) = false ->
save w self pv t fs = ret tt fs.
Proof. intros H. unfold save. now rewrite Hpath, H. Qed.

Hypothesis Hown : check_path_owner w (path_dirname w path) = true.

Lemma save_makedirs_error e :
makedirs_error w (path_dirname w path) = Some e ->
save w self pv t fs = raise e fs.
Proof.
intros Hmk. unfold save. rewrite Hpath, Hown. cbn [negb].
apply bind_eval_raise. unfold ensure_dir. now rewrite Hmk.
Qed.

Hypothesis Hmk : makedirs_error w (path_dirname w path) = None.

Lemma save_lock_error e :
lock_error w path = Some e ->
save w self pv t fs = raise e (after_makedirs w path fs).
Proof.
intros Hlock. unfold save. rewrite Hpath, Hown. cbn [negb].
rewrite (bind_eval (ensure_dir w (path_dirname w path)) _ fs tt (after_makedirs w path fs))
  by (unfold ensure_dir; now rewrite Hmk).
unfold with_LockFile. apply bind_eval_raise.
unfold lock_acquire. now rewrite Hlock.
Qed.

Hypothesis Hlock : lock_error w path = None.

Lemma save_under_lock :
save w self pv t fs
= finally (save_locked w path pv t) (lock_release path) (while_locked w path fs).
Proof.
unfold save. rewrite Hpath, Hown. cbn [negb].
rewrite (bind_eval (ensure_dir w (path_dirname w path)) _ fs tt (after_makedirs w path fs))
  by (unfold ensure_dir; now rewrite Hmk).
unfold with_LockFile.
now rewrite (bind_eval (lock_acquire w path) _ (after_makedirs w path fs) tt (while_locked w path fs))
  by (unfold lock_acquire; now rewrite Hlock).
Qed.

Lemma save_locked_raises e :
save_locked w path pv t (while_locked w path fs) = raise e (while_locked w path fs) ->
result (save w self pv t fs) = Raise e
/\ files (fs_after (save w self pv t fs)) = files fs
/\ emitted (save w self pv t fs) = [].
Proof.
intros H. rewrite save_under_lock. unfold finally. rewrite H.
now repeat split.
Qed.

Lemma save_merges text d :
files fs !! path = Some (Regular text) -> loads text = Some (JObj d) ->
save w self pv t fs
= {| result := Ret tt; fs_after := written w path pv t d fs; emitted := [] |}.
Proof.
intros Hf Hl. rewrite save_under_lock. unfold finally.
now rewrite (locked_merges w path pv t (while_locked w path fs) text d Hf Hl).
Qed.

Lemma save_creates :
files fs !! path = None ->
save w self pv t fs
= {| result := Ret tt; fs_after := written w path pv t [] fs; emitted := [] |}.
Proof.
intros Hf. rewrite save_under_lock. unfold finally.
now rewrite (locked_creates w path pv t (while_locked w path fs) Hf).
Qed.
End save_facts.

(** No state file path: [save] does nothing. *)
Lemma save_no_cache w self pv t fs :
  statefile_path self = None -> save w self pv t fs = ret tt fs.
Proof. intros H. unfold save. now rewrite H. Qed.

Lemma save_inv w self pv t fs : save_end w self pv t fs (save w self pv t fs).
Proof.
  destruct (statefile_path self) as [path|] eqn:Hpath.
  2:{ unfold save. rewrite Hpath. apply save_skipped. now left. }
  destruct (check_path_owner w (path_dirname w path)) eqn:Hown.
  2:{ rewrite (save_not_owner w self pv t path fs Hpath Hown).
      apply save_skipped. right. eauto. }
  destruct (makedirs_error w (path_dirname w path)) as [e|] eqn:Hmk.
  { rewrite (save_makedirs_error w self pv t path fs Hpath Hown e Hmk).
    now apply (save_raised _ _ _ _ _ _ e). }
  destruct (lock_error w path) as [e|] eqn:Hlock.
  { rewrite (save_lock_error w self pv t path fs Hpath Hown Hmk e Hlock).
    now apply (save_raised _ _ _ _ _ _ e). }
  pose proof (save_locked_raises w self pv t path fs Hpath Hown Hmk Hlock)
    as Hraise.
  destruct (files fs !! path) as [[text|]|] eqn:Hf.
  - destruct (loads text) as [doc|] eqn:Hl.
    + destruct doc as [| b | z | s | l | d].
      1-5: destruct (Hraise TypeError) as (H1 & H2 & H3);
             [ eapply locked_not_object;
               [exact Hf | exact Hl | discriminate]
             | now apply (save_raised _ _ _ _ _ _ TypeError) ].
      rewrite (save_merges w self pv t path fs Hpath Hown Hmk Hlock text d Hf Hl).
      apply save_written; eauto.
    + destruct (Hraise ValueError) as (H1 & H2 & H3);
        [ eapply locked_corrupt; [exact Hf | exact Hl]
        | now apply (save_raised _ _ _ _ _ _ ValueError) ].
  - destruct (Hraise IOError) as (H1 & H2 & H3);
      [ apply locked_unreadable; exact Hf
      | now apply (save_raised _ _ _ _ _ _ IOError) ].
  - rewrite (save_creates w self pv t path fs Hpath Hown Hmk Hlock Hf).
    apply save_written; eauto.
Qed.

(** *** Loading *)

(** [__init__] reads only: the file system is as before and nothing is
    emitted, whatever the result. *)
Lemma init_reads_only w dir fs :
  fs_after (SelfCheckState_init w dir fs) = fs
  /\ emitted (SelfCheckState_init w dir fs) = [].
Proof.
  unfold SelfCheckState_init.
  destruct dir as [[|c dir]|]; try (now split).
  unfold try_except, bind, load_json_file, get_fs, ret, raise, lift. cbn.
  destruct (files fs !! _) as [[text|]|]; cbn; try (now split).
  destruct (loads text) as [doc|]; cbn; try (now split).
  destruct (py_getitem doc (sys_prefix w)) as [v|e]; cbn; try (now split).
  destruct (caught_on_load e); now split.
Qed.

Lemma init_outcome w dir fs self :
  result (SelfCheckState_init w dir fs) = Ret self ->
  SelfCheckState_init w dir fs
  = {| result := Ret self; fs_after := fs; emitted := [] |}.
Proof.
  intros H. destruct (init_reads_only w dir fs) as [H1 H2].
  destruct (SelfCheckState_init w dir fs) as [r f e]. cbn in *. now subst.
Qed.

(** No cache directory: nothing is read. *)
Lemma init_no_cache w dir fs :
  dir = None \/ dir = Some "" ->
  SelfCheckState_init w dir fs = ret (empty_state None) fs.
Proof. now intros [-> | ->]. Qed.

Section init_facts.
Variables (w : World) (dir path : string) (fs : FS).
Hypothesis Hdir : dir <> "".
Hypothesis Hjoin : path = path_join w dir "selfcheck.json".

Lemma init_unfold :
SelfCheckState_init w (Some dir) fs
= try_except
    (let! doc := load_json_file path in
     let! st := lift (py_getitem doc (sys_prefix w)) in
     ret {| state := st; statefile_path := Some path |})
    caught_on_load
    (ret {| state := JObj []; statefile_path := Some path |}) fs.
Proof.
unfold SelfCheckState_init. destruct dir; [congruence |]. now rewrite Hjoin.
Qed.

Lemma init_tolerates :
files fs !! path = None
\/ files fs !! path = Some Unreadable
\/ (exists text, files fs !! path = Some (Regular text)
                 /\ (loads text = None
                     \/ exists d, loads text = Some (JObj d)
                                  /\ dict_get (sys_prefix w) d = None)) ->
SelfCheckState_init w (Some dir) fs = ret (empty_state (Some path)) fs.
Proof.
intros H. rewrite init_unfold. unfold try_except.
destruct H as [Hf | [Hf | (text & Hf & [Hl | (d & Hl & Hk)])]].
- rewrite (bind_eval_raise (load_json_file path) _ fs IOError fs [])
    by (now rewrite load_json_file_eq, Hf).
  reflexivity.
- rewrite (bind_eval_raise (load_json_file path) _ fs IOError fs [])
    by (now rewrite load_json_file_eq, Hf).
  reflexivity.
- rewrite (bind_eval_raise (load_json_file path) _ fs ValueError fs [])
    by (now rewrite load_json_file_eq, Hf, Hl).
  reflexivity.
- rewrite (bind_eval (load_json_file path) _ fs (JObj d) fs)
    by (now rewrite load_json_file_eq, Hf, Hl).
  cbn [py_getitem]. rewrite Hk. reflexivity.
Qed.

Lemma init_loads text d v :
files fs !! path = Some (Regular text) -> loads text = Some (JObj d) ->
dict_get (sys_prefix w) d = Some v ->
SelfCheckState_init w (Some dir) fs
= ret {| state := v; statefile_path := Some path |} fs.
Proof.
intros Hf Hl Hk. rewrite init_unfold. unfold try_except.
rewrite (bind_eval (load_json_file path) _ fs (JObj d) fs)
  by (now rewrite load_json_file_eq, Hf, Hl).
cbn [py_getitem]. rewrite Hk. reflexivity.
Qed.

Lemma init_not_object text doc :
files fs !! path = Some (Regular text) -> loads text = Some doc ->
(forall d, doc <> JObj d) ->
SelfCheckState_init w (Some dir) fs = raise TypeError fs.
Proof.
intros Hf Hl Hd. rewrite init_unfold. unfold try_except.
rewrite (bind_eval (load_json_file path) _ fs doc fs)
  by (now rewrite load_json_file_eq, Hf, Hl).
destruct doc; try reflexivity. now destruct (Hd members).
Qed.
End init_facts.

(** *** The cached version *)

Lemma cached_entry d s lc pv now :
  dict_get "last_check" d = Some (JStr s) -> strptime s = Ret lc ->
  dict_get "pypi_version" d = Some (JStr pv) ->
  cached_pypi_version (JObj d) now
  = Ret (if Datetime.total_seconds_lt (Datetime.sub now lc) week_seconds
         then Some (JStr pv) else None).
Proof.
  intros Hl Hs Hp. unfold cached_pypi_version, py_contains, py_getitem.
  rewrite Hl, Hp. cbn. rewrite Hs.
  now destruct (Datetime.total_seconds_lt _ _).
Qed.

Lemma cached_bad_timestamp d s v now e :
  dict_get "last_check" d = Some (JStr s) -> strptime s = Raise e ->
  dict_get "pypi_version" d = Some v ->
  cached_pypi_version (JObj d) now = Raise e.
Proof.
  intros Hl Hs Hp. unfold cached_pypi_version, py_contains, py_getitem.
  rewrite Hl, Hp. cbn. now rewrite Hs.
Qed.

(** * Facts about the orchestrator *)

Lemma bind_outcome {A B} (m : M A) (k : A -> M B) fs a fs' evs :
  m fs = {| result := Ret a; fs_after := fs'; emitted := evs |} ->
  bind m k fs
  = {| result := result (k a fs'); fs_after := fs_after (k a fs');
       emitted := evs ++ emitted (k a fs') |}.
Proof. intros H. unfold bind. now rewrite H. Qed.

(** [save] emits nothing. *)
Lemma save_silent w self pv t fs : emitted (save w self pv t fs) = [].
Proof.
  destruct (save_inv w self pv t fs); try reflexivity. assumption.
Qed.

(** *** The comparison *)

Lemma compare_reads_only w vi v fs :
  fs_after (compare_and_warn w vi v fs) = fs.
Proof.
  unfold compare_and_warn, bind, lift, ret, raise, emit.
  destruct (parse_value_version w v) as [vr|e]; cbn; [| reflexivity].
  destruct (version_lt w vi vr && _); cbn; [| reflexivity].
  destruct (was_installed_by_ins w "ins") as [[]|e]; reflexivity.
Qed.

Lemma compare_emits w vi v fs :
  queried (emitted (compare_and_warn w vi v fs)) = false
  /\ saved (emitted (compare_and_warn w vi v fs)) = false.
Proof.
  unfold compare_and_warn, bind, lift, ret, raise, emit.
  destruct (parse_value_version w v) as [vr|e]; cbn; [| now split].
  destruct (version_lt w vi vr && _); cbn; [| now split].
  destruct (was_installed_by_ins w "ins") as [[]|e]; now split.
Qed.

Lemma compare_warns w vi pv vr fs :
  parse w pv = Ret vr ->
  warned (emitted (compare_and_warn w vi (JStr pv) fs)) = true
  <-> version_lt w vi vr = true
      /\ base_version w vi <> base_version w vr
      /\ was_installed_by_ins w "ins" = Ret true.
Proof.
  intros Hp. unfold compare_and_warn, bind, lift, ret, raise, emit. cbn.
  rewrite Hp. cbn.
  destruct (version_lt w vi vr); cbn.
  2:{ split; [discriminate | now intros [? _]]. }
  destruct (String.eqb_spec (base_version w vi) (base_version w vr)); cbn.
  { split; [discriminate | now intros (_ & ? & _)]. }
  destruct (was_installed_by_ins w "ins") as [[]|e]; cbn.
  - now split.
  - split; [discriminate | now intros (_ & _ & ?)].
  - split; [discriminate | now intros (_ & _ & ?)].
Qed.

(** *** The guard *)

Lemma guard_outcome (body : M unit) fs :
  match result (body fs) with
  | Ret _ => guard body fs = body fs
  | Raise e =>
      if is_Exception e then
        guard body fs
        = {| result := Ret tt; fs_after := fs_after (body fs);
             emitted := emitted (body fs) ++ [LogDebug debug_message] |}
      else guard body fs = body fs
  end.
Proof.
  unfold guard, try_except.
  destruct (result (body fs)) as [u|e]; [reflexivity |].
  now destruct (is_Exception e).
Qed.

(** *** The run *)

Section run_facts.
Variables (w : World) (session : nat) (options : Options) (fs : FS).
Variables (iv : string) (vi : version w).
Hypothesis Hiv : iv <> "".
Hypothesis Hinstalled : get_installed_version w "ins" = Ret (Some iv).
Hypothesis Hparse : parse w iv = Ret vi.

Lemma check_unfold :
ins_version_check w session options fs
= guard (guarded_check w session options vi) fs.
Proof.
unfold ins_version_check. rewrite Hinstalled.
destruct iv as [|c iv']; [congruence |].
unfold bind at 1. cbn [lift ret result fs_after emitted app].
rewrite outcome_eta. rewrite Hparse.
unfold bind at 1. cbn [lift ret result fs_after emitted app].
apply outcome_eta.
Qed.

Variable self : SelfCheckState.
Hypothesis Hload :
result (SelfCheckState_init w (cache_dir options) fs) = Ret self.

Lemma guarded_unfold :
guarded_check w session options vi fs
= bind (resolve_pypi_version w session options self (utcnow w))
    (fun pypi_version =>
       match pypi_version with
       | None => ret tt
       | Some v => compare_and_warn w vi v
       end) fs.
Proof.
unfold guarded_check.
rewrite (bind_outcome _ _ _ _ _ _ (init_outcome _ _ _ _ Hload)).
cbn [app]. apply outcome_eta.
Qed.

Lemma guarded_fresh v :
cached_pypi_version (state self) (utcnow w) = Ret (Some v) ->
guarded_check w session options vi fs = compare_and_warn w vi v fs.
Proof.
intros Hc. rewrite guarded_unfold. unfold resolve_pypi_version.
rewrite Hc. unfold bind, lift, ret. cbn -[compare_and_warn].
apply outcome_eta.
Qed.

Lemma guarded_cache_error e :
cached_pypi_version (state self) (utcnow w) = Raise e ->
guarded_check w session options vi fs = raise e fs.
Proof.
intros Hc. rewrite guarded_unfold. unfold resolve_pypi_version.
rewrite Hc. reflexivity.
Qed.

Lemma guarded_stale :
cached_pypi_version (state self) (utcnow w) = Ret None ->
exists evs,
  emitted (guarded_check w session options vi fs)
  = IndexQuery (make_finder session options) :: evs.
Proof.
intros Hc. rewrite guarded_unfold. unfold resolve_pypi_version.
rewrite Hc. cbn [lift]. unfold bind at 1. unfold bind at 1.
cbn. 
destruct (result (bind _ _ _)); cbn; eauto.
Qed.

Lemma run_fresh v :
cached_pypi_version (state self) (utcnow w) = Ret (Some v) ->
ins_version_check w session options fs
= guard (compare_and_warn w vi v) fs.
Proof.
intros Hc. rewrite check_unfold. unfold guard, try_except.
now rewrite (guarded_fresh v Hc).
Qed.

Lemma run_cache_error e :
cached_pypi_version (state self) (utcnow w) = Raise e ->
is_Exception e = true ->
ins_version_check w session options fs
= {| result := Ret tt; fs_after := fs; emitted := [LogDebug debug_message] |}.
Proof.
intros Hc He. rewrite check_unfold. unfold guard, try_except.
rewrite (guarded_cache_error e Hc). cbn. now rewrite He.
Qed.

Lemma run_stale :
cached_pypi_version (state self) (utcnow w) = Ret None ->
queried (emitted (ins_version_check w session options fs)) = true.
Proof.
intros Hc. rewrite check_unfold.
destruct (guarded_stale Hc) as [evs Hev].
pose proof (guard_outcome (guarded_check w session options vi) fs) as G.
destruct (result (guarded_check w session options vi fs)) as [u|e].
- now rewrite G, Hev.
- destruct (is_Exception e); rewrite G; cbn; now rewrite Hev.
Qed.
End run_facts.

Lemma guard_compare_quiet w vi v fs :
  let o := guard (compare_and_warn w vi v) fs in
  queried (emitted o) = false /\ saved (emitted o) = false /\ fs_after o = fs.
Proof.
  cbn zeta.
  pose proof (guard_outcome (compare_and_warn w vi v) fs) as G.
  destruct (compare_emits w vi v fs) as [Hq Hs].
  pose proof (compare_reads_only w vi v fs) as Hf.
  destruct (result (compare_and_warn w vi v fs)) as [u|e].
  - now rewrite G.
  - destruct (is_Exception e); rewrite G; [| easy]. cbn.
    unfold queried, saved in *. rewrite !existsb_app, Hq, Hs. easy.
Qed.

(** * The claims *)

Lemma resolve_no_warning w session options self now fs :
  warned (emitted (resolve_pypi_version w session options self now fs)) = false.
Proof.
  unfold resolve_pypi_version, bind, lift, ret, raise, emit.
  destruct (cached_pypi_version (state self) now) as [[v|]|e]; cbn;
    try reflexivity.
  destruct (find_best_candidate w _ "ins") as [[cv|]|e]; cbn; try reflexivity.
  rewrite save_silent.
  destruct (result (save w self (version_str w cv) now fs)); reflexivity.
Qed.

Lemma warned_app evs evs' : warned (evs ++ evs') = warned evs || warned evs'.
Proof. apply existsb_app. Qed.

(** C1: a save into a state file that holds entries of other
    environment keys leaves each of them as it was.  Whatever the save
    does (it may skip for want of ownership, or fail on the directory
    or the lock), the file on disk still decodes to a document with the
    same entry under every key other than [sys.prefix]; and when the
    ownership check passes and the directory and the lock are obtained,
    the save returns normally and the document holds the new
    [{last_check, pypi_version}] entry under [sys.prefix]. *)
Theorem save_keeps_other_keys
  (w : World) (self : SelfCheckState) (pv : string) (t : datetime)
  (fs : FS) (path text : string) (d : list (string * json)) :
  statefile_path self = Some path ->
  files fs !! path = Some (Regular text) ->
  loads text = Some (JObj d) ->
  let o := save w self pv t fs in
  (exists text' d',
      files (fs_after o) !! path = Some (Regular text')
      /\ loads text' = Some (JObj d')
      /\ forall k, k <> sys_prefix w -> dict_get k d' = dict_get k d)
  /\ (check_path_owner w (path_dirname w path) = true ->
      makedirs_error w (path_dirname w path) = None ->
      lock_error w path = None ->
      result o = Ret tt
      /\ exists text' d',
          files (fs_after o) !! path = Some (Regular text')
          /\ loads text' = Some (JObj d')
          /\ dict_get (sys_prefix w) d' = Some (entry pv t)).
Proof.
  intros Hpath Hf Hl o.
  assert (canonical (JObj (dict_set (sys_prefix w) (entry pv t) d)) = true)
    as Hcan.
  { apply dict_set_canonical; [reflexivity |]. now apply (loads_canonical text). }
  assert (files (written w path pv t d fs) !! path
          = Some (Regular (dumps (JObj (dict_set (sys_prefix w) (entry pv t) d)))))
    as Hw by (unfold written; cbn; apply lookup_insert_eq).
  split.
  - subst o. destruct (save_inv w self pv t fs) as [Hskip | o e He Hfiles _ | path0 d0 Hp0 _ _ _ Hd0].
    + exists text, d. cbn. now repeat split.
    + exists text, d. rewrite Hfiles. now repeat split.
    + assert (path0 = path) as -> by congruence.
      assert (d0 = d) as ->.
      { destruct Hd0 as [[Hn _] | (text0 & Hf0 & Hl0)]; congruence. }
      eexists _, _. cbn [fs_after]. split; [exact Hw |].
      split; [now apply loads_dumps |].
      intros k Hk. now apply dict_get_set_ne.
  - intros Hown Hmk Hlock. subst o.
    rewrite (save_merges w self pv t path fs Hpath Hown Hmk Hlock text d Hf Hl).
    cbn [result fs_after]. split; [reflexivity |].
    eexists _, _. split; [exact Hw |]. split; [now apply loads_dumps |].
    apply dict_get_set_eq.
Qed.

Lemma written_again w path pv t d fs :
  written w path pv t (dict_set (sys_prefix w) (entry pv t) d)
    (written w path pv t d fs)
  = written w path pv t d fs.
Proof.
  unfold written. cbn. rewrite dict_set_idem, insert_insert_eq.
  f_equal; apply set_eq; intros x;
    repeat (rewrite elem_of_difference || rewrite elem_of_union);
    tauto.
Qed.

(** C8: saving the same [(pypi_version, current_time)] twice in
    succession, with nothing written in between, gives the same bytes
    both times: when the first save returns normally, the second one
    returns normally too and leaves the file system, the state file's
    content included, exactly as the first one left it.  The encoder is
    [dumps], with sorted keys and compact separators, and the second
    save decodes what the first one wrote ([loads_dumps]). *)
Theorem save_twice_same_bytes
  (w : World) (self : SelfCheckState) (pv : string) (t : datetime) (fs : FS) :
  let o1 := save w self pv t fs in
  result o1 = Ret tt ->
  let o2 := save w self pv t (fs_after o1) in
  result o2 = Ret tt
  /\ fs_after o2 = fs_after o1
  /\ forall path, files (fs_after o2) !! path = files (fs_after o1) !! path.
Proof.
  intros o1 Hr o2.
  assert (result o2 = Ret tt /\ fs_after o2 = fs_after o1) as [H1 H2];
    [| now rewrite H2].
  subst o1 o2.
  destruct (save_inv w self pv t fs)
    as [Hskip | o e He _ _ | path d Hpath Hown Hmk Hlock Hd].
  - cbn [fs_after ret] in *.
    destruct Hskip as [Hnone | (path & Hpath & Hown)].
    + unfold save. now rewrite Hnone.
    + now rewrite (save_not_owner w self pv t path fs Hpath Hown).
  - congruence.
  - cbn [fs_after].
    assert (canonical (JObj d) = true) as Hcd.
    { destruct Hd as [[_ ->] | (text & _ & Hl)]; [reflexivity |].
      now apply (loads_canonical text). }
    assert (canonical (JObj (dict_set (sys_prefix w) (entry pv t) d)) = true)
      as Hcan by (now apply dict_set_canonical).
    rewrite (save_merges w self pv t path _ Hpath Hown Hmk Hlock
               (dumps (JObj (dict_set (sys_prefix w) (entry pv t) d)))
               (dict_set (sys_prefix w) (entry pv t) d)).
    + cbn [result fs_after]. split; [reflexivity | apply written_again].
    + unfold written. cbn. apply lookup_insert_eq.
    + now apply loads_dumps.
Qed.

(** C7: when the ownership predicate says that the directory of the
    state file is not the user's, [save] returns normally, raises
    nothing, and the file system is the one it was called with: no
    file is written or created, no directory made, no lock taken. *)
Theorem save_refuses_foreign_directory
  (w : World) (self : SelfCheckState) (pv : string) (t : datetime)
  (fs : FS) (path : string) :
  statefile_path self = Some path ->
  check_path_owner w (path_dirname w path) = false ->
  save w self pv t fs
  = {| result := Ret tt; fs_after := fs; emitted := [] |}.
Proof. intros Hpath Hown. now rewrite (save_not_owner w self pv t path fs). Qed.

Lemma total_seconds_lt_spec delta seconds :
  Datetime.total_seconds_lt delta seconds = true
  <-> (delta < seconds * 1000000)%Z.
Proof. unfold Datetime.total_seconds_lt. apply Z.ltb_lt. Qed.

(** C3: with a cached entry that holds a [last_check] timestamp and a
    [pypi_version], the index is left alone, and the cached version is
    the one compared, exactly when [utcnow() - last_check] is strictly
    less than 7*24*3600 seconds (the difference is in microseconds
    here); at 7 days and beyond the index is queried. *)
Theorem freshness_decides_query
  (w : World) (session : nat) (options : Options) (fs : FS)
  (iv : string) (vi : version w) (self : SelfCheckState)
  (d : list (string * json)) (s pv : string) (lc : datetime) :
  get_installed_version w "ins" = Ret (Some iv) -> iv <> "" ->
  parse w iv = Ret vi ->
  result (SelfCheckState_init w (cache_dir options) fs) = Ret self ->
  state self = JObj d ->
  dict_get "last_check" d = Some (JStr s) -> strptime s = Ret lc ->
  dict_get "pypi_version" d = Some (JStr pv) ->
  let elapsed := Datetime.sub (utcnow w) lc in
  let o := ins_version_check w session options fs in
  (queried (emitted o) = false <-> (elapsed < 7 * 24 * 3600 * 1000000)%Z)
  /\ ((elapsed < 7 * 24 * 3600 * 1000000)%Z ->
      o = guard (compare_and_warn w vi (JStr pv)) fs)
  /\ ((7 * 24 * 3600 * 1000000 <= elapsed)%Z -> queried (emitted o) = true).
Proof.
  intros Hi Hne Hp Hload Hst Hl Hs Hv elapsed o.
  pose proof (cached_entry d s lc pv (utcnow w) Hl Hs Hv) as Hc.
  rewrite <- Hst in Hc.
  pose proof (total_seconds_lt_spec elapsed week_seconds) as Hspec.
  change (week_seconds * 1000000)%Z with (7 * 24 * 3600 * 1000000)%Z in Hspec.
  fold elapsed in Hc.
  destruct (Datetime.total_seconds_lt elapsed week_seconds) eqn:E.
  - assert (elapsed < 7 * 24 * 3600 * 1000000)%Z as Hlt by (now apply Hspec).
    assert (o = guard (compare_and_warn w vi (JStr pv)) fs) as Ho.
    { subst o. now apply (run_fresh w session options fs iv vi Hne Hi Hp self). }
    split; [| split].
    + split; [now intros _ |]. intros _. rewrite Ho.
      apply guard_compare_quiet.
    + now intros _.
    + lia.
  - assert (~ (elapsed < 7 * 24 * 3600 * 1000000)%Z) as Hge.
    { intros H. apply Hspec in H. congruence. }
    assert (queried (emitted o) = true) as Hq.
    { subst o. now apply (run_stale w session options fs iv vi Hne Hi Hp self). }
    split; [| split].
    + split; [congruence | contradiction].
    + contradiction.
    + now intros _.
Qed.

(** C10: with a cached [last_check] that lies after [utcnow()], the
    elapsed time is negative, so below the 7-day window: the entry is
    fresh, the index is not queried and [save] is not called (the file
    system is the one the run started with). *)
Theorem future_timestamp_is_fresh
  (w : World) (session : nat) (options : Options) (fs : FS)
  (iv : string) (vi : version w) (self : SelfCheckState)
  (d : list (string * json)) (s pv : string) (lc : datetime) :
  get_installed_version w "ins" = Ret (Some iv) -> iv <> "" ->
  parse w iv = Ret vi ->
  result (SelfCheckState_init w (cache_dir options) fs) = Ret self ->
  state self = JObj d ->
  dict_get "last_check" d = Some (JStr s) -> strptime s = Ret lc ->
  dict_get "pypi_version" d = Some (JStr pv) ->
  (Datetime.to_microseconds (utcnow w) < Datetime.to_microseconds lc)%Z ->
  let o := ins_version_check w session options fs in
  Datetime.total_seconds_lt (Datetime.sub (utcnow w) lc) week_seconds = true
  /\ cached_pypi_version (state self) (utcnow w) = Ret (Some (JStr pv))
  /\ queried (emitted o) = false
  /\ saved (emitted o) = false
  /\ fs_after o = fs.
Proof.
  intros Hi Hne Hp Hload Hst Hl Hs Hv Hfuture o.
  assert (Datetime.total_seconds_lt (Datetime.sub (utcnow w) lc) week_seconds
          = true) as Hfresh.
  { apply total_seconds_lt_spec. unfold Datetime.sub.
    change (week_seconds * 1000000)%Z with 604800000000%Z. lia. }
  pose proof (cached_entry d s lc pv (utcnow w) Hl Hs Hv) as Hc.
  rewrite <- Hst, Hfresh in Hc.
  split; [exact Hfresh |]. split; [exact Hc |].
  subst o.
  rewrite (run_fresh w session options fs iv vi Hne Hi Hp self Hload _ Hc).
  apply guard_compare_quiet.
Qed.

(** C4: once the installed version and the remote version are
    resolved and parsed, the upgrade warning is logged if and only if
    the installed version is below the remote one, their base versions
    differ, and [was_installed_by_ins] says yes; with equal base
    versions (a pre-release or post-release of the same release) no
    warning is logged. *)
Theorem warning_iff_older_base_and_self_installed
  (w : World) (session : nat) (options : Options) (fs : FS)
  (iv : string) (vi : version w) (self : SelfCheckState)
  (pv : string) (vr : version w) :
  get_installed_version w "ins" = Ret (Some iv) -> iv <> "" ->
  parse w iv = Ret vi ->
  result (SelfCheckState_init w (cache_dir options) fs) = Ret self ->
  result (resolve_pypi_version w session options self (utcnow w) fs)
  = Ret (Some (JStr pv)) ->
  parse w pv = Ret vr ->
  let o := ins_version_check w session options fs in
  (warned (emitted o) = true
   <-> version_lt w vi vr = true
       /\ base_version w vi <> base_version w vr
       /\ was_installed_by_ins w "ins" = Ret true)
  /\ (base_version w vi = base_version w vr -> warned (emitted o) = false).
Proof.
  intros Hi Hne Hp Hload Hres Hpr o.
  assert (warned (emitted o) = true
          <-> version_lt w vi vr = true
              /\ base_version w vi <> base_version w vr
              /\ was_installed_by_ins w "ins" = Ret true) as Hiff.
  { subst o. rewrite (check_unfold w session options fs iv vi Hne Hi Hp).
    pose proof (guard_outcome (guarded_check w session options vi) fs) as G.
    assert (warned (emitted (guarded_check w session options vi fs)) = true
            <-> version_lt w vi vr = true
                /\ base_version w vi <> base_version w vr
                /\ was_installed_by_ins w "ins" = Ret true) as Hbody.
    { rewrite (guarded_unfold w session options fs vi self Hload).
      unfold bind. rewrite Hres. cbn [emitted].
      rewrite warned_app, resolve_no_warning. cbn [orb].
      now apply compare_warns. }
    destruct (result (guarded_check w session options vi fs)) as [u|e].
    - now rewrite G.
    - destruct (is_Exception e); rewrite G; [| exact Hbody].
      cbn [emitted]. rewrite warned_app. cbn. now rewrite orb_false_r. }
  split; [exact Hiff |].
  intros Heq. destruct (warned (emitted o)); [| reflexivity].
  destruct Hiff as [Hiff _]. now destruct (Hiff eq_refl) as (_ & Hb & _).
Qed.

(** C2, as the code has it: the [try] starts after the installed
    version is determined and parsed.  An exception raised by one of
    these two steps is raised to the caller.  From there on (loading
    the cache, reading the clock, querying the index, saving,
    comparing) an exception that derives from [Exception] is logged at
    debug level and the check returns normally; one that does not
    ([KeyboardInterrupt], [SystemExit]) is raised to the caller. *)
Theorem check_swallows_inside_the_try
  (w : World) (session : nat) (options : Options) (fs : FS) :
  let o := ins_version_check w session options fs in
  match get_installed_version w "ins" with
  | Raise e => o = raise e fs
  | Ret None => o = ret tt fs
  | Ret (Some EmptyString) => o = ret tt fs
  | Ret (Some iv) =>
      match parse w iv with
      | Raise e => o = raise e fs
      | Ret vi =>
          let body := guarded_check w session options vi fs in
          match result body with
          | Ret _ => o = body
          | Raise e =>
              if is_Exception e then
                o = {| result := Ret tt; fs_after := fs_after body;
                       emitted := emitted body ++ [LogDebug debug_message] |}
              else o = body
          end
      end
  end.
Proof.
  cbn zeta.
  destruct (get_installed_version w "ins") as [[[|c iv']|]|e] eqn:Hi.
  - unfold ins_version_check. now rewrite Hi.
  - destruct (parse w (String c iv')) as [vi|e] eqn:Hp.
    + rewrite (check_unfold w session options fs (String c iv') vi
                 ltac:(discriminate) Hi Hp).
      apply guard_outcome.
    + unfold ins_version_check. rewrite Hi.
      unfold bind, lift, ret, raise. cbn. now rewrite Hp.
  - unfold ins_version_check. now rewrite Hi.
  - unfold ins_version_check. now rewrite Hi.
Qed.

(** C9, as the code has it: a cached entry with both keys whose
    [last_check] is not in the expected format is not taken for an
    absent entry.  [strptime] raises [ValueError], the handler of the
    [try] logs it at debug level, and the check ends there: no query,
    no save, no warning, the file system untouched.  A cached version
    string is not validated either: inside the freshness window it is
    handed to the comparison as it is, and the index is not queried. *)
Theorem invalid_cached_entry_ends_the_check
  (w : World) (session : nat) (options : Options) (fs : FS)
  (iv : string) (vi : version w) (self : SelfCheckState)
  (d : list (string * json)) (s : string) (v : json) :
  get_installed_version w "ins" = Ret (Some iv) -> iv <> "" ->
  parse w iv = Ret vi ->
  result (SelfCheckState_init w (cache_dir options) fs) = Ret self ->
  state self = JObj d ->
  dict_get "last_check" d = Some (JStr s) ->
  dict_get "pypi_version" d = Some v ->
  let o := ins_version_check w session options fs in
  (strptime s = Raise ValueError ->
   o = {| result := Ret tt; fs_after := fs;
          emitted := [LogDebug debug_message] |})
  /\ (forall lc pv,
        strptime s = Ret lc -> v = JStr pv ->
        Datetime.total_seconds_lt (Datetime.sub (utcnow w) lc) week_seconds
        = true ->
        o = guard (compare_and_warn w vi (JStr pv)) fs
        /\ queried (emitted o) = false).
Proof.
  intros Hi Hne Hp Hload Hst Hl Hv o.
  split.
  - intros Hs. subst o.
    apply (run_cache_error w session options fs iv vi Hne Hi Hp self Hload
             ValueError); [| reflexivity].
    rewrite Hst. now apply (cached_bad_timestamp d s v).
  - intros lc pv Hs -> Hfresh.
    pose proof (cached_entry d s lc pv (utcnow w) Hl Hs Hv) as Hc.
    rewrite <- Hst, Hfresh in Hc.
    assert (o = guard (compare_and_warn w vi (JStr pv)) fs) as Ho.
    { subst o. now apply (run_fresh w session options fs iv vi Hne Hi Hp self). }
    split; [exact Ho |]. rewrite Ho. apply guard_compare_quiet.
Qed.

(** * The claims on the sample installation *)

Import Sample Cases.

Lemma save_keeps_other_keys_witness :
  statefile_path unloaded = Some statefile
  /\ files (fs_with other_text) !! statefile = Some (Regular other_text)
  /\ loads other_text = Some (JObj [("/opt/venv", other_entry)])
  /\ (exists text' d',
         files (fs_after (save w_upgrade unloaded "1.1.0" now
                            (fs_with other_text))) !! statefile
         = Some (Regular text')
         /\ loads text' = Some (JObj d')
         /\ forall k, k <> sys_prefix w_upgrade ->
                      dict_get k d' = dict_get k [("/opt/venv", other_entry)])
  /\ result (save w_upgrade unloaded "1.1.0" now (fs_with other_text)) = Ret tt
  /\ exists text' d',
        files (fs_after (save w_upgrade unloaded "1.1.0" now
                           (fs_with other_text))) !! statefile
        = Some (Regular text')
        /\ loads text' = Some (JObj d')
        /\ dict_get (sys_prefix w_upgrade) d' = Some (entry "1.1.0" now).
Proof.
  split; [reflexivity |]. split; [reflexivity |]. split; [reflexivity |].
  destruct (save_keeps_other_keys w_upgrade unloaded "1.1.0" now
              (fs_with other_text) statefile other_text
              [("/opt/venv", other_entry)] eq_refl eq_refl eq_refl)
    as [Hkeep Hnew].
  split; [exact Hkeep |].
  apply Hnew; reflexivity.
Defined.

Lemma save_twice_same_bytes_witness :
  result (save w_upgrade unloaded "1.1.0" now (fs_with other_text)) = Ret tt
  /\ fs_after (save w_upgrade unloaded "1.1.0" now
                 (fs_after (save w_upgrade unloaded "1.1.0" now
                              (fs_with other_text))))
     = fs_after (save w_upgrade unloaded "1.1.0" now (fs_with other_text)).
Proof.
  split; [reflexivity |].
  apply (save_twice_same_bytes w_upgrade unloaded "1.1.0" now
           (fs_with other_text)).
  reflexivity.
Defined.

Lemma save_refuses_foreign_directory_witness :
  statefile_path unloaded = Some statefile
  /\ check_path_owner w_foreign (path_dirname w_foreign statefile) = false
  /\ save w_foreign unloaded "1.1.0" now (fs_with other_text)
     = {| result := Ret tt; fs_after := fs_with other_text; emitted := [] |}.
Proof.
  split; [reflexivity |]. split; [reflexivity |].
  apply (save_refuses_foreign_directory w_foreign unloaded "1.1.0" now
           (fs_with other_text) statefile); reflexivity.
Defined.

Lemma freshness_decides_query_witness :
  get_installed_version w_upgrade "ins" = Ret (Some "1.0.0")
  /\ "1.0.0" <> ""
  /\ parse w_upgrade "1.0.0" = Ret (parse_sample "1.0.0")
  /\ result (SelfCheckState_init w_upgrade (cache_dir options)
               (fs_with (cached_text "2019-03-10T12:00:00Z")))
     = Ret (loaded "2019-03-10T12:00:00Z")
  /\ strptime "2019-03-10T12:00:00Z" = Ret (at_time 2019 3 10 12 0 0)
  /\ (queried (emitted (ins_version_check w_upgrade 0 options
                          (fs_with (cached_text "2019-03-10T12:00:00Z"))))
      = false
      <-> (Datetime.sub (utcnow w_upgrade) (at_time 2019 3 10 12 0 0)
           < 7 * 24 * 3600 * 1000000)%Z).
Proof.
  split; [reflexivity |]. split; [discriminate |]. split; [reflexivity |].
  split; [reflexivity |]. split; [reflexivity |].
  apply (freshness_decides_query w_upgrade 0 options
           (fs_with (cached_text "2019-03-10T12:00:00Z"))
           "1.0.0" (parse_sample "1.0.0") (loaded "2019-03-10T12:00:00Z")
           (cached_entry_at "2019-03-10T12:00:00Z")
           "2019-03-10T12:00:00Z" "1.1.0" (at_time 2019 3 10 12 0 0));
    (reflexivity || discriminate).
Defined.

Lemma future_timestamp_is_fresh_witness :
  result (SelfCheckState_init w_upgrade (cache_dir options)
            (fs_with (cached_text "2019-03-20T00:00:00Z")))
  = Ret (loaded "2019-03-20T00:00:00Z")
  /\ strptime "2019-03-20T00:00:00Z" = Ret (at_time 2019 3 20 0 0 0)
  /\ (Datetime.to_microseconds (utcnow w_upgrade)
      < Datetime.to_microseconds (at_time 2019 3 20 0 0 0))%Z
  /\ queried (emitted (ins_version_check w_upgrade 0 options
                         (fs_with (cached_text "2019-03-20T00:00:00Z"))))
     = false
  /\ saved (emitted (ins_version_check w_upgrade 0 options
                       (fs_with (cached_text "2019-03-20T00:00:00Z"))))
     = false.
Proof.
  split; [reflexivity |]. split; [reflexivity |]. split; [reflexivity |].
  pose proof (future_timestamp_is_fresh w_upgrade 0 options
           (fs_with (cached_text "2019-03-20T00:00:00Z"))
           "1.0.0" (parse_sample "1.0.0") (loaded "2019-03-20T00:00:00Z")
           (cached_entry_at "2019-03-20T00:00:00Z")
           "2019-03-20T00:00:00Z" "1.1.0" (at_time 2019 3 20 0 0 0)
           eq_refl ltac:(discriminate) eq_refl eq_refl eq_refl eq_refl
           eq_refl eq_refl eq_refl) as (_ & _ & Hq & Hs & _).
  split; [exact Hq | exact Hs].
Defined.

Lemma warning_iff_older_base_and_self_installed_witness :
  get_installed_version w_upgrade "ins" = Ret (Some "1.0.0")
  /\ result (SelfCheckState_init w_upgrade (cache_dir options) empty_fs)
     = Ret unloaded
  /\ result (resolve_pypi_version w_upgrade 0 options unloaded
               (utcnow w_upgrade) empty_fs)
     = Ret (Some (JStr "1.1.0"))
  /\ parse w_upgrade "1.1.0" = Ret (parse_sample "1.1.0")
  /\ (warned (emitted (ins_version_check w_upgrade 0 options empty_fs)) = true
      <-> version_lt w_upgrade (parse_sample "1.0.0") (parse_sample "1.1.0")
          = true
          /\ base_version w_upgrade (parse_sample "1.0.0")
             <> base_version w_upgrade (parse_sample "1.1.0")
          /\ was_installed_by_ins w_upgrade "ins" = Ret true).
Proof.
  split; [reflexivity |]. split; [reflexivity |]. split; [reflexivity |].
  split; [reflexivity |].
  apply (warning_iff_older_base_and_self_installed w_upgrade 0 options
           empty_fs "1.0.0" (parse_sample "1.0.0") unloaded "1.1.0"
           (parse_sample "1.1.0"));
    (reflexivity || discriminate).
Defined.

Lemma invalid_cached_entry_ends_the_check_witness :
  result (SelfCheckState_init w_upgrade (cache_dir options)
            (fs_with (cached_text "yesterday")))
  = Ret (loaded "yesterday")
  /\ strptime "yesterday" = Raise ValueError
  /\ ins_version_check w_upgrade 0 options (fs_with (cached_text "yesterday"))
     = {| result := Ret tt; fs_after := fs_with (cached_text "yesterday");
          emitted := [LogDebug debug_message] |}.
Proof.
  split; [reflexivity |]. split; [reflexivity |].
  apply (invalid_cached_entry_ends_the_check w_upgrade 0 options
           (fs_with (cached_text "yesterday"))
           "1.0.0" (parse_sample "1.0.0") (loaded "yesterday")
           (cached_entry_at "yesterday") "yesterday" (JStr "1.1.0"));
    (reflexivity || discriminate).
Defined.

(** C2, the claim as written fails: the lookup of the installed
    version raises an exception that derives from [Exception], and the
    check raises it to its caller. *)
Lemma version_lookup_error_escapes :
  get_installed_version w_conflict "ins"
  = Raise (OtherException "VersionConflict")
  /\ is_Exception (OtherException "VersionConflict") = true
  /\ result (ins_version_check w_conflict 0 options empty_fs)
     = Raise (OtherException "VersionConflict").
Proof. repeat split; reflexivity. Qed.

(** C9, the claim as written fails: with [last_check] set to
    ["yesterday"] the run logs at debug level and stops, and the index
    is not queried; with no entry for the environment the same run
    queries the index. *)
Lemma bad_timestamp_is_not_absent :
  emitted (ins_version_check w_upgrade 0 options
             (fs_with (cached_text "yesterday")))
  = [LogDebug debug_message]
  /\ queried (emitted (ins_version_check w_upgrade 0 options
                         (fs_with (cached_text "yesterday")))) = false
  /\ queried (emitted (ins_version_check w_upgrade 0 options (fs_with "{}")))
     = true.
Proof. repeat split; reflexivity. Qed.

(** C5 on the code: a state file that holds the JSON document [[]]
    (valid JSON, without the environment key) makes [__init__] raise
    [TypeError], which is not among the exceptions it suppresses; the
    check that called it logs at debug level and ends without a query. *)
Theorem load_raises_on_array_document :
  loads "[]" = Some (JArr [])
  /\ SelfCheckState_init w_upgrade (Some cache) (fs_with "[]")
     = raise TypeError (fs_with "[]")
  /\ ins_version_check w_upgrade 0 options (fs_with "[]")
     = {| result := Ret tt; fs_after := fs_with "[]";
          emitted := [LogDebug debug_message] |}.
Proof. repeat split; reflexivity. Qed.

(** C6 on the code: the state file holds text that is not JSON.
    [save] re-reads it under the lock, [json.load] raises [ValueError],
    nothing catches it in [save]: the exception leaves [save], the lock
    is released, and the file is as it was.  In the check the index has
    been queried by then, and the comparison is never reached. *)
Theorem save_raises_on_corrupt_file :
  loads "{not json" = None
  /\ result (save w_upgrade unloaded "1.1.0" now (fs_with "{not json"))
     = Raise ValueError
  /\ files (fs_after (save w_upgrade unloaded "1.1.0" now
                        (fs_with "{not json"))) !! statefile
     = Some (Regular "{not json")
  /\ locks (fs_after (save w_upgrade unloaded "1.1.0" now
                        (fs_with "{not json"))) = ∅
  /\ emitted (ins_version_check w_upgrade 0 options (fs_with "{not json"))
     = [IndexQuery (make_finder 0 options); SaveCall "1.1.0" now;
        LogDebug debug_message].
Proof. repeat split; reflexivity. Qed.

(** * Facts about the timestamp format *)

Module DatetimeFacts.
Import Datetime.

Lemma digit_char_code k :
  N_of_ascii (digit_char k) = (48 + Z.to_N (k mod 10))%N.
Proof.
  unfold digit_char. apply N_ascii_embedding.
  pose proof (Z.mod_pos_bound k 10 ltac:(lia)). lia.
Qed.

Lemma digit_char_digit k : in_class Digit (digit_char k) = true.
Proof.
  unfold in_class. rewrite digit_char_code.
  pose proof (Z.mod_pos_bound k 10 ltac:(lia)).
  apply andb_true_intro; split; apply N.leb_le; lia.
Qed.

Lemma digit_char_value k :
  Z.of_N (N_of_ascii (digit_char k) - 48) = (k mod 10)%Z.
Proof.
  rewrite digit_char_code.
  pose proof (Z.mod_pos_bound k 10 ltac:(lia)). lia.
Qed.

Lemma int_of_pad2 n : (0 <= n <= 99)%Z -> int_of_group (pad2 n) = n.
Proof.
  intros Hn. unfold int_of_group, pad2. cbn [String.list_ascii_of_string fold_left].
  rewrite !digit_char_digit, !digit_char_value.
  Z.to_euclidean_division_equations. lia.
Qed.

Lemma int_of_pad4 n : (0 <= n <= 9999)%Z -> int_of_group (pad4 n) = n.
Proof.
  intros Hn. unfold int_of_group, pad4, pad2.
  cbn [String.list_ascii_of_string fold_left].
  rewrite !digit_char_digit, !digit_char_value.
  Z.to_euclidean_division_equations. lia.
Qed.

Lemma pad2_append n r :
  pad2 n +:+ r = String (digit_char (n / 10)) (String (digit_char n) r).
Proof. reflexivity. Qed.

Lemma pad4_append n r :
  pad4 n +:+ r
  = String (digit_char (n / 1000)) (String (digit_char (n / 100)) (pad2 n +:+ r)).
Proof. reflexivity. Qed.

Lemma literal_matches c ps r :
  match_pieces (Literal c :: ps) (String c "" +:+ r) = match_pieces ps r.
Proof.
  change (String c "" +:+ r) with (String c r).
  cbn [match_pieces]. now rewrite Ascii.eqb_refl.
Qed.

Lemma in_class_digit_char cls k :
  in_class cls (digit_char k) = accepts_digit cls (k mod 10).
Proof.
  pose proof (Z.mod_pos_bound k 10 ltac:(lia)).
  destruct cls as [| lo hi |]; cbn [accepts_digit].
  - apply digit_char_digit.
  - unfold in_class. rewrite digit_char_code. f_equal.
    + destruct (Z.leb_spec (Z.of_N lo) (k mod 10)).
      * apply N.leb_le. lia.
      * apply N.leb_gt. lia.
    + destruct (Z.leb_spec (k mod 10) (Z.of_N hi)).
      * apply N.leb_le. lia.
      * apply N.leb_gt. lia.
  - unfold in_class. rewrite digit_char_code. apply N.eqb_neq. lia.
Qed.

(** An alternative of two classes on a text of two characters or more. *)
Lemma match_two_classes k1 k2 c1 c2 r :
  match_classes [k1; k2] (String c1 (String c2 r))
  = if in_class k1 c1 && in_class k2 c2
    then Some (String c1 (String c2 ""), r) else None.
Proof.
  cbn [match_classes].
  destruct (in_class k1 c1); [| reflexivity].
  now destruct (in_class k2 c2).
Qed.

(** A directive takes the first of its alternatives that matches when
    the rest of the format matches what follows. *)
Lemma directive_first_match pre a post ps s m r gs r' :
  Forall (fun b => match_classes b s = None) pre ->
  match_classes a s = Some (m, r) ->
  match_pieces ps r = Some (gs, r') ->
  match_pieces (Directive (pre ++ a :: post) :: ps) s = Some (m :: gs, r').
Proof.
  intros Hpre Ha Hrest. cbn [match_pieces].
  induction Hpre as [| b pre Hb _ IH]; cbn [app].
  - now rewrite Ha, Hrest.
  - now rewrite Hb.
Qed.

(** A two-digit field that [strftime] wrote is matched whole by its
    directive, whatever follows, when the rest of the format matches
    the rest of the text. *)
Section fields.
Variables (ps : list piece) (r : string) (gs : list string) (r' : string).
Hypothesis Hrest : match_pieces ps r = Some (gs, r').

Lemma field_matches pre k1 k2 post n :
Forall (fun b => exists j1 j2,
          b = [j1; j2]
          /\ accepts_digit j1 ((n / 10) mod 10) && accepts_digit j2 (n mod 10)
             = false) pre ->
accepts_digit k1 ((n / 10) mod 10) && accepts_digit k2 (n mod 10) = true ->
match_pieces (Directive (pre ++ [k1; k2] :: post) :: ps) (pad2 n +:+ r)
= Some (pad2 n :: gs, r').
Proof.
intros Hpre Ha. rewrite pad2_append.
apply directive_first_match with (r := r); [| | exact Hrest].
- eapply Forall_impl; [exact Hpre |].
  intros b (j1 & j2 & -> & Hb).
  now rewrite match_two_classes, !in_class_digit_char, Hb.
- now rewrite match_two_classes, !in_class_digit_char, Ha.
Qed.

Lemma dir_M_pad2 n :
(0 <= n <= 59)%Z ->
match_pieces (dir_M :: ps) (pad2 n +:+ r) = Some (pad2 n :: gs, r').
Proof.
intros Hn. apply (field_matches [] (Between 0 5) Digit [[Digit]]).
- constructor.
- decide_digits.
Qed.

Lemma dir_S_pad2 n :
(0 <= n <= 59)%Z ->
match_pieces (dir_S :: ps) (pad2 n +:+ r) = Some (pad2 n :: gs, r').
Proof.
intros Hn.
apply (field_matches [[Between 6 6; Between 0 1]] (Between 0 5) Digit [[Digit]]).
- repeat constructor. eexists _, _. split; [reflexivity | decide_digits].
- decide_digits.
Qed.

Lemma dir_H_pad2 n :
(0 <= n <= 23)%Z ->
match_pieces (dir_H :: ps) (pad2 n +:+ r) = Some (pad2 n :: gs, r').
Proof.
intros Hn. destruct (Z.le_gt_cases 20 n) as [Hhi | Hlo].
- apply (field_matches [] (Between 2 2) (Between 0 3)
           [[Between 0 1; Digit]; [Digit]]).
  + constructor.
  + decide_digits.
- apply (field_matches [[Between 2 2; Between 0 3]] (Between 0 1) Digit
           [[Digit]]).
  + repeat constructor. eexists _, _. split; [reflexivity | decide_digits].
  + decide_digits.
Qed.

Lemma dir_m_pad2 n :
(1 <= n <= 12)%Z ->
match_pieces (dir_m :: ps) (pad2 n +:+ r) = Some (pad2 n :: gs, r').
Proof.
intros Hn. destruct (Z.le_gt_cases 10 n) as [Hhi | Hlo].
- apply (field_matches [] (Between 1 1) (Between 0 2)
           [[Between 0 0; Between 1 9]; [Between 1 9]]).
  + constructor.
  + decide_digits.
- apply (field_matches [[Between 1 1; Between 0 2]] (Between 0 0) (Between 1 9)
           [[Between 1 9]]).
  + repeat constructor. eexists _, _. split; [reflexivity | decide_digits].
  + decide_digits.
Qed.

Lemma dir_d_pad2 n :
(1 <= n <= 31)%Z ->
match_pieces (dir_d :: ps) (pad2 n +:+ r) = Some (pad2 n :: gs, r').
Proof.
intros Hn. destruct (Z.le_gt_cases 30 n) as [H30 | H30].
{ apply (field_matches [] (Between 3 3) (Between 0 1)
           [[Between 1 2; Digit]; [Between 0 0; Between 1 9]; [Between 1 9];
            [Space; Between 1 9]]).
  - constructor.
  - decide_digits. }
destruct (Z.le_gt_cases 10 n) as [H10 | H10].
{ apply (field_matches [[Between 3 3; Between 0 1]] (Between 1 2) Digit
           [[Between 0 0; Between 1 9]; [Between 1 9]; [Space; Between 1 9]]).
  - repeat constructor. eexists _, _. split; [reflexivity | decide_digits].
  - decide_digits. }
apply (field_matches [[Between 3 3; Between 0 1]; [Between 1 2; Digit]]
         (Between 0 0) (Between 1 9) [[Between 1 9]; [Space; Between 1 9]]).
- repeat constructor; eexists _, _; (split; [reflexivity | decide_digits]).
- decide_digits.
Qed.

End fields.

Lemma dir_Y_pad4 ps r gs r' n :
  match_pieces ps r = Some (gs, r') ->
  match_pieces (dir_Y :: ps) (pad4 n +:+ r) = Some (pad4 n :: gs, r').
Proof.
  intros Hrest. rewrite pad4_append, pad2_append.
  cbn [match_pieces dir_Y match_classes]. rewrite !digit_char_digit.
  now rewrite Hrest.
Qed.

Lemma days_in_month_le y m : (days_in_month y m <= 31)%Z.
Proof.
  unfold days_in_month.
  destruct (m =? 2)%Z; [destruct (is_leap y); lia |].
  destruct (_ || _); lia.
Qed.

End DatetimeFacts.

(** What [strftime] writes, [strptime] reads back: the same date and
    time of day, without the microseconds. *)
Lemma strptime_strftime (t : datetime) :
  Datetime.valid t = true -> (1000 <= Datetime.year t)%Z ->
  strptime (strftime t) = Ret (whole_second t).
Proof.
  intros Hv Hy.
  assert (Datetime.valid (whole_second t) = true) as Hv'.
  { unfold Datetime.valid in *. cbn [whole_second Datetime.year Datetime.month
      Datetime.day Datetime.hour Datetime.minute Datetime.second
      Datetime.microsecond].
    repeat (apply andb_prop in Hv; destruct Hv as [Hv ?]).
    repeat (apply andb_true_intro; split); try assumption; reflexivity. }
  unfold Datetime.valid in Hv.
  repeat (apply andb_prop in Hv; destruct Hv as [Hv ?]).
  repeat match goal with H : (_ <=? _)%Z = true |- _ => apply Z.leb_le in H end.
  pose proof (DatetimeFacts.days_in_month_le (Datetime.year t) (Datetime.month t)).
  unfold strptime, strftime, SELFCHECK_DATE_FMT.
  rewrite (DatetimeFacts.dir_Y_pad4 _ _
             [Datetime.pad2 (Datetime.month t); Datetime.pad2 (Datetime.day t);
              Datetime.pad2 (Datetime.hour t); Datetime.pad2 (Datetime.minute t);
              Datetime.pad2 (Datetime.second t)] "").
  - rewrite DatetimeFacts.int_of_pad4 by lia.
    rewrite !DatetimeFacts.int_of_pad2 by lia.
    fold (whole_second t). now rewrite Hv'.
  - rewrite DatetimeFacts.literal_matches.
    apply DatetimeFacts.dir_m_pad2; [| lia].
    rewrite DatetimeFacts.literal_matches.
    apply DatetimeFacts.dir_d_pad2; [| lia].
    rewrite DatetimeFacts.literal_matches.
    apply DatetimeFacts.dir_H_pad2; [| lia].
    rewrite DatetimeFacts.literal_matches.
    apply DatetimeFacts.dir_M_pad2; [| lia].
    rewrite DatetimeFacts.literal_matches.
    apply DatetimeFacts.dir_S_pad2; [| lia].
    reflexivity.
Qed.

(** * Further properties of the code *)

(** ** Loading *)

(** The three ends of [__init__] with a cache directory: nothing usable
    on disk, the value stored under [sys.prefix], or a document that is
    not an object. *)
Lemma init_cases w dir fs :
  dir <> "" ->
  let path := path_join w dir "selfcheck.json" in
  SelfCheckState_init w (Some dir) fs = ret (empty_state (Some path)) fs
  \/ (exists text d v,
         files fs !! path = Some (Regular text)
         /\ loads text = Some (JObj d)
         /\ dict_get (sys_prefix w) d = Some v
         /\ SelfCheckState_init w (Some dir) fs
            = ret {| state := v; statefile_path := Some path |} fs)
  \/ (exists text doc,
         files fs !! path = Some (Regular text)
         /\ loads text = Some doc
         /\ (forall d, doc <> JObj d)
         /\ SelfCheckState_init w (Some dir) fs = raise TypeError fs).
Proof.
  intros Hdir path.
  pose proof (init_tolerates w dir path fs Hdir eq_refl) as Htol.
  destruct (files fs !! path) as [[text|]|] eqn:Hf; [| left; auto | left; auto].
  destruct (loads text) as [doc|] eqn:Hl; [| left; eauto 8].
  destruct doc as [| b | z | s | l | d].
  1-5: right; right; exists text; eexists; split; [reflexivity |];
       split; [exact Hl |]; split; [discriminate |];
       eapply (init_not_object w dir path fs Hdir eq_refl);
       [exact Hf | exact Hl | discriminate].
  destruct (dict_get (sys_prefix w) d) as [v|] eqn:Hk.
  - right; left. exists text, d, v. repeat (split; [assumption || reflexivity |]).
    now apply (init_loads w dir path fs Hdir eq_refl text d v).
  - left. apply Htol. right; right. exists text. split; [reflexivity |].
    right. eauto.
Qed.

Lemma init_path w dir fs self :
  dir <> "" ->
  result (SelfCheckState_init w (Some dir) fs) = Ret self ->
  statefile_path self = Some (path_join w dir "selfcheck.json").
Proof.
  intros Hdir Hr.
  destruct (init_cases w dir fs Hdir)
    as [E | [(text & d & v & _ & _ & _ & E) | (text & doc & _ & _ & _ & E)]];
    rewrite E in Hr; cbn in Hr; [| | discriminate];
    injection Hr as <-; reflexivity.
Qed.

(** X1: constructing the store only reads.  Whatever the cache
    directory holds and whatever the result, the file system is the one
    it was given and nothing is logged. *)
Theorem load_leaves_the_disk_alone
  (w : World) (dir : option string) (fs : FS) :
  let o := SelfCheckState_init w dir fs in
  fs_after o = fs /\ emitted o = []
  /\ forall self, result o = Ret self ->
       statefile_path self
       = match dir with
         | Some (String _ _ as d) => Some (path_join w d "selfcheck.json")
         | _ => None
         end.
Proof.
  cbn zeta. destruct (init_reads_only w dir fs) as [Hfs Hev].
  split; [exact Hfs |]. split; [exact Hev |].
  intros self Hr. destruct dir as [[|c d]|].
  - cbn in Hr. now injection Hr as <-.
  - now apply (init_path w (String c d) fs).
  - cbn in Hr. now injection Hr as <-.
Qed.



(** ** Saving *)

Lemma dict_set_set (k : string) (v1 v2 : json) (d : list (string * json)) :
  dict_set k v2 (dict_set k v1 d) = dict_set k v2 d.
Proof.
  induction d as [| [k' v'] d IH]; cbn [dict_set].
  - now rewrite compare_refl.
  - destruct (String.compare k k') eqn:E; cbn [dict_set].
    + now rewrite compare_refl.
    + now rewrite compare_refl.
    + rewrite E. now rewrite IH.
Qed.

Lemma written_over w path pv1 t1 pv2 t2 d fs :
  written w path pv2 t2 (dict_set (sys_prefix w) (entry pv1 t1) d)
    (written w path pv1 t1 d fs)
  = written w path pv2 t2 d fs.
Proof.
  unfold written. cbn [files dirs locks].
  rewrite dict_set_set, insert_insert_eq.
  f_equal; apply set_eq; intros x;
    repeat (rewrite elem_of_difference || rewrite elem_of_union);
    tauto.
Qed.

(** What [save] wrote can be read: the file of a save that passed the
    ownership check and returned holds the entry. *)
Lemma save_then_lookup w self pv t fs path :
  statefile_path self = Some path ->
  check_path_owner w (path_dirname w path) = true ->
  result (save w self pv t fs) = Ret tt ->
  exists d,
    fs_after (save w self pv t fs) = written w path pv t d fs
    /\ canonical (JObj d) = true
    /\ (files fs !! path = None /\ d = []
        \/ exists text, files fs !! path = Some (Regular text)
                        /\ loads text = Some (JObj d)).
Proof.
  intros Hpath Hown Hr.
  destruct (save_inv w self pv t fs)
    as [[Hnone | (p & Hp & Hno)] | o e He _ _ | p d Hp _ _ _ Hd].
  - congruence.
  - assert (p = path) as -> by congruence. congruence.
  - congruence.
  - assert (p = path) as -> by congruence.
    exists d. split; [reflexivity |]. split; [| exact Hd].
    destruct Hd as [[_ ->] | (text & _ & Hl)]; [reflexivity |].
    now apply (loads_canonical text).
Qed.

(** A store constructed after a save that wrote holds the entry. *)
Lemma save_then_init w dir self pv t fs :
  dir <> "" ->
  statefile_path self = Some (path_join w dir "selfcheck.json") ->
  check_path_owner w (path_dirname w (path_join w dir "selfcheck.json")) = true ->
  result (save w self pv t fs) = Ret tt ->
  SelfCheckState_init w (Some dir) (fs_after (save w self pv t fs))
  = ret {| state := entry pv t;
           statefile_path := Some (path_join w dir "selfcheck.json") |}
      (fs_after (save w self pv t fs)).
Proof.
  intros Hdir Hpath Hown Hr.
  destruct (save_then_lookup w self pv t fs _ Hpath Hown Hr)
    as (d & -> & Hcan & _).
  apply (init_loads w dir _ _ Hdir eq_refl
           (dumps (JObj (dict_set (sys_prefix w) (entry pv t) d)))
           (dict_set (sys_prefix w) (entry pv t) d)).
  - unfold written. cbn [files]. apply lookup_insert_eq.
  - apply loads_dumps. now apply dict_set_canonical.
  - apply dict_get_set_eq.
Qed.

(** X4: what [save] writes, [__init__] reads back.  After a save that
    passed the ownership check and returned, a store constructed on the
    same cache directory holds exactly the entry
    [{last_check, pypi_version}] that was saved. *)
Theorem saved_entry_is_loaded_back
  (w : World) (dir : string) (self : SelfCheckState) (pv : string)
  (t : datetime) (fs : FS) :
  dir <> "" ->
  let path := path_join w dir "selfcheck.json" in
  statefile_path self = Some path ->
  check_path_owner w (path_dirname w path) = true ->
  let o := save w self pv t fs in
  result o = Ret tt ->
  SelfCheckState_init w (Some dir) (fs_after o)
  = {| result := Ret {| state := entry pv t; statefile_path := Some path |};
       fs_after := fs_after o; emitted := [] |}.
Proof.
  intros Hdir path Hpath Hown o Hr. now apply save_then_init.
Qed.

(** X5: of two saves in a row from the same environment the later one
    is kept.  When the first returns, the second leaves the file system
    as it would have left the one the first started from: the state file
    holds the second entry, and nothing of the first. *)
Theorem later_save_replaces_entry
  (w : World) (self : SelfCheckState) (pv1 pv2 : string) (t1 t2 : datetime)
  (fs : FS) :
  let o1 := save w self pv1 t1 fs in
  result o1 = Ret tt ->
  let o2 := save w self pv2 t2 (fs_after o1) in
  result o2 = Ret tt
  /\ fs_after o2 = fs_after (save w self pv2 t2 fs).
Proof.
  intros o1 Hr o2. subst o1 o2.
  destruct (save_inv w self pv1 t1 fs)
    as [Hskip | o e He _ _ | path d Hpath Hown Hmk Hlock Hd].
  - cbn [fs_after ret].
    destruct Hskip as [Hnone | (path & Hpath & Hown)].
    + rewrite !(save_no_cache w self pv2 t2 _ Hnone). now split.
    + rewrite !(save_not_owner w self pv2 t2 path _ Hpath Hown). now split.
  - congruence.
  - cbn [fs_after].
    assert (canonical (JObj d) = true) as Hcd.
    { destruct Hd as [[_ ->] | (text & _ & Hl)]; [reflexivity |].
      now apply (loads_canonical text). }
    rewrite (save_merges w self pv2 t2 path _ Hpath Hown Hmk Hlock
               (dumps (JObj (dict_set (sys_prefix w) (entry pv1 t1) d)))
               (dict_set (sys_prefix w) (entry pv1 t1) d)).
    + cbn [result fs_after]. split; [reflexivity |].
      rewrite written_over.
      destruct Hd as [[Hf ->] | (text & Hf & Hl)].
      * now rewrite (save_creates w self pv2 t2 path fs Hpath Hown Hmk Hlock Hf).
      * now rewrite (save_merges w self pv2 t2 path fs Hpath Hown Hmk Hlock
                       text d Hf Hl).
    + unfold written. cbn [files]. apply lookup_insert_eq.
    + apply loads_dumps. now apply dict_set_canonical.
Qed.

Lemma compare_lt_gt (a b : string) :
  String.compare a b = Lt -> String.compare b a = Gt.
Proof. intros H. rewrite String.compare_antisym, H. reflexivity. Qed.

Lemma compare_gt_lt (a b : string) :
  String.compare a b = Gt -> String.compare b a = Lt.
Proof. intros H. rewrite String.compare_antisym, H. reflexivity. Qed.

Lemma compare_lt_trans (a b c : string) :
  String.compare a b = Lt -> String.compare b c = Lt -> String.compare a c = Lt.
Proof.
  intros Hab Hbc.
  assert (String.ltb a c = true) as H.
  { apply (ltb_trans a b c); unfold String.ltb; now rewrite ?Hab, ?Hbc. }
  unfold String.ltb in H. now destruct (String.compare a c).
Qed.

Lemma compare_lt_irrefl (a : string) : String.compare a a <> Lt.
Proof. now rewrite compare_refl. Qed.

(** Setting two different keys, in either order. *)
Lemma dict_set_ordered (k1 k2 : string) (v1 v2 : json) (d : list (string * json)) :
  String.compare k1 k2 = Lt ->
  dict_set k1 v1 (dict_set k2 v2 d) = dict_set k2 v2 (dict_set k1 v1 d).
Proof.
  intros H12. pose proof (compare_lt_gt _ _ H12) as H21.
  induction d as [| [k' v'] d IH]; cbn [dict_set].
  - now rewrite H12, H21.
  - destruct (String.compare k1 k') eqn:E1;
      destruct (String.compare k2 k') eqn:E2; cbn [dict_set];
      rewrite ?E1, ?E2, ?H12, ?H21; cbn [dict_set]; rewrite ?E1, ?E2;
      try reflexivity.
    all: try (apply String.compare_eq_iff in E1; subst k').
    all: try (apply String.compare_eq_iff in E2; subst k').
    all: try (exfalso; rewrite ?H12, ?H21 in *; congruence).
    + exfalso. apply (compare_lt_irrefl k').
      apply (compare_lt_trans k' k1 k'); [now apply compare_gt_lt |].
      now apply (compare_lt_trans k1 k2 k').
    + now rewrite IH.
Qed.

Lemma dict_set_comm (k1 k2 : string) (v1 v2 : json) (d : list (string * json)) :
  k1 <> k2 ->
  dict_set k1 v1 (dict_set k2 v2 d) = dict_set k2 v2 (dict_set k1 v1 d).
Proof.
  intros Hne. destruct (String.compare k1 k2) eqn:E.
  - now apply String.compare_eq_iff in E.
  - now apply dict_set_ordered.
  - symmetry. apply dict_set_ordered. now apply compare_gt_lt.
Qed.


(** X6: two environments that share the state file.  After a save
    from each, one after the other, the document holds the entry of
    both, and every other key is as it was before the two saves. *)
Theorem saves_of_two_environments
  (w1 w2 : World) (self : SelfCheckState) (pv1 pv2 : string)
  (t1 t2 : datetime) (fs : FS) (path : string) (d0 : list (string * json)) :
  statefile_path self = Some path ->
  check_path_owner w1 (path_dirname w1 path) = true ->
  makedirs_error w1 (path_dirname w1 path) = None ->
  lock_error w1 path = None ->
  check_path_owner w2 (path_dirname w2 path) = true ->
  makedirs_error w2 (path_dirname w2 path) = None ->
  lock_error w2 path = None ->
  sys_prefix w1 <> sys_prefix w2 ->
  (files fs !! path = None /\ d0 = []
   \/ exists text, files fs !! path = Some (Regular text)
                   /\ loads text = Some (JObj d0)) ->
  let o1 := save w1 self pv1 t1 fs in
  let o2 := save w2 self pv2 t2 (fs_after o1) in
  result o1 = Ret tt /\ result o2 = Ret tt
  /\ exists text d,
      files (fs_after o2) !! path = Some (Regular text)
      /\ loads text = Some (JObj d)
      /\ dict_get (sys_prefix w1) d = Some (entry pv1 t1)
      /\ dict_get (sys_prefix w2) d = Some (entry pv2 t2)
      /\ forall k, k <> sys_prefix w1 -> k <> sys_prefix w2 ->
                   dict_get k d = dict_get k d0.
Proof.
  intros Hpath Ho1 Hm1 Hl1 Ho2 Hm2 Hl2 Hne Hd0 o1 o2.
  assert (canonical (JObj d0) = true) as Hc0.
  { destruct Hd0 as [[_ ->] | (text & _ & Hl)]; [reflexivity |].
    now apply (loads_canonical text). }
  set (d1 := dict_set (sys_prefix w1) (entry pv1 t1) d0).
  assert (canonical (JObj d1) = true) as Hc1
    by (now apply dict_set_canonical).
  assert (o1 = {| result := Ret tt; fs_after := written w1 path pv1 t1 d0 fs;
                  emitted := [] |}) as E1.
  { subst o1. destruct Hd0 as [[Hf ->] | (text & Hf & Hl)].
    - now apply save_creates.
    - now apply (save_merges w1 self pv1 t1 path fs Hpath Ho1 Hm1 Hl1 text). }
  assert (o2 = {| result := Ret tt;
                  fs_after := written w2 path pv2 t2 d1 (fs_after o1);
                  emitted := [] |}) as E2.
  { subst o2. apply (save_merges w2 self pv2 t2 path _ Hpath Ho2 Hm2 Hl2
                       (dumps (JObj d1))).
    - rewrite E1. cbn [fs_after]. unfold written. cbn [files].
      apply lookup_insert_eq.
    - now apply loads_dumps. }
  split; [now rewrite E1 |]. split; [now rewrite E2 |].
  exists (dumps (JObj (dict_set (sys_prefix w2) (entry pv2 t2) d1))),
         (dict_set (sys_prefix w2) (entry pv2 t2) d1).
  split.
  { rewrite E2. cbn [fs_after]. unfold written at 1. cbn [files].
    apply lookup_insert_eq. }
  split; [apply loads_dumps; now apply dict_set_canonical |].
  split.
  { rewrite dict_get_set_ne by congruence. apply dict_get_set_eq. }
  split; [apply dict_get_set_eq |].
  intros k Hk1 Hk2. unfold d1.
  now rewrite !dict_get_set_ne by congruence.
Qed.

(** The file system after a save from each of two environments. *)
Lemma two_saves_written
  (w1 w2 : World) (self : SelfCheckState) (pv1 pv2 : string)
  (t1 t2 : datetime) (fs : FS) (path : string) (d0 : list (string * json)) :
  statefile_path self = Some path ->
  check_path_owner w1 (path_dirname w1 path) = true ->
  makedirs_error w1 (path_dirname w1 path) = None ->
  lock_error w1 path = None ->
  check_path_owner w2 (path_dirname w2 path) = true ->
  makedirs_error w2 (path_dirname w2 path) = None ->
  lock_error w2 path = None ->
  (files fs !! path = None /\ d0 = []
   \/ exists text, files fs !! path = Some (Regular text)
                   /\ loads text = Some (JObj d0)) ->
  save w2 self pv2 t2 (fs_after (save w1 self pv1 t1 fs))
  = {| result := Ret tt;
       fs_after :=
         written w2 path pv2 t2 (dict_set (sys_prefix w1) (entry pv1 t1) d0)
           (written w1 path pv1 t1 d0 fs);
       emitted := [] |}.
Proof.
  intros Hpath Ho1 Hm1 Hl1 Ho2 Hm2 Hl2 Hd0.
  assert (canonical (JObj d0) = true) as Hc0.
  { destruct Hd0 as [[_ ->] | (text & _ & Hl)]; [reflexivity |].
    now apply (loads_canonical text). }
  assert (save w1 self pv1 t1 fs
          = {| result := Ret tt; fs_after := written w1 path pv1 t1 d0 fs;
               emitted := [] |}) as ->.
  { destruct Hd0 as [[Hf ->] | (text & Hf & Hl)].
    - now apply save_creates.
    - now apply (save_merges w1 self pv1 t1 path fs Hpath Ho1 Hm1 Hl1 text). }
  cbn [fs_after].
  apply (save_merges w2 self pv2 t2 path _ Hpath Ho2 Hm2 Hl2
           (dumps (JObj (dict_set (sys_prefix w1) (entry pv1 t1) d0)))).
  - unfold written. cbn [files]. apply lookup_insert_eq.
  - apply loads_dumps. now apply dict_set_canonical.
Qed.

(** X7: the saves of two environments that share the state file can
    come in either order: the file system after both, the bytes of the
    state file included, is the same. *)
Theorem saves_of_two_environments_commute
  (w1 w2 : World) (self : SelfCheckState) (pv1 pv2 : string)
  (t1 t2 : datetime) (fs : FS) (path : string) (d0 : list (string * json)) :
  statefile_path self = Some path ->
  check_path_owner w1 (path_dirname w1 path) = true ->
  makedirs_error w1 (path_dirname w1 path) = None ->
  lock_error w1 path = None ->
  check_path_owner w2 (path_dirname w2 path) = true ->
  makedirs_error w2 (path_dirname w2 path) = None ->
  lock_error w2 path = None ->
  sys_prefix w1 <> sys_prefix w2 ->
  (files fs !! path = None /\ d0 = []
   \/ exists text, files fs !! path = Some (Regular text)
                   /\ loads text = Some (JObj d0)) ->
  fs_after (save w2 self pv2 t2 (fs_after (save w1 self pv1 t1 fs)))
  = fs_after (save w1 self pv1 t1 (fs_after (save w2 self pv2 t2 fs))).
Proof.
  intros Hpath Ho1 Hm1 Hl1 Ho2 Hm2 Hl2 Hne Hd0.
  rewrite (two_saves_written w1 w2 self pv1 pv2 t1 t2 fs path d0) by assumption.
  rewrite (two_saves_written w2 w1 self pv2 pv1 t2 t1 fs path d0) by assumption.
  cbn [fs_after]. unfold written. cbn [files dirs locks].
  rewrite !insert_insert_eq.
  rewrite (dict_set_comm (sys_prefix w2) (sys_prefix w1)) by congruence.
  f_equal; apply set_eq; intros x;
    repeat (rewrite elem_of_difference || rewrite elem_of_union);
    tauto.
Qed.

(** What [__init__] returns, by what the state file holds. *)
Lemma init_result w dir fs :
  dir <> "" ->
  result (SelfCheckState_init w (Some dir) fs)
  = match files fs !! path_join w dir "selfcheck.json" with
    | Some (Regular text) =>
        match loads text with
        | Some (JObj d) =>
            Ret {| state := match dict_get (sys_prefix w) d with
                            | Some v => v
                            | None => JObj []
                            end;
                   statefile_path := Some (path_join w dir "selfcheck.json") |}
        | Some _ => Raise TypeError
        | None =>
            Ret (empty_state (Some (path_join w dir "selfcheck.json")))
        end
    | _ => Ret (empty_state (Some (path_join w dir "selfcheck.json")))
    end.
Proof.
  intros Hdir.
  pose proof (init_tolerates w dir _ fs Hdir eq_refl) as Htol.
  destruct (files fs !! path_join w dir "selfcheck.json") as [[text|]|] eqn:Hf.
  - destruct (loads text) as [doc|] eqn:Hl.
    + destruct doc as [| b | z | s | l | d].
      1-5: erewrite (init_not_object w dir _ fs Hdir eq_refl);
             [reflexivity | exact Hf | exact Hl | discriminate].
      destruct (dict_get (sys_prefix w) d) as [v|] eqn:Hk.
      * now rewrite (init_loads w dir _ fs Hdir eq_refl text d v Hf Hl Hk).
      * rewrite Htol; [reflexivity |]. right; right. exists text.
        split; [reflexivity |]. right. eauto.
    + rewrite Htol; [reflexivity |]. right; right. exists text.
      split; [reflexivity |]. now left.
  - rewrite Htol; [reflexivity |]. now right; left.
  - rewrite Htol; [reflexivity |]. now left.
Qed.

(** X8: a save of one environment is not seen by another.  Whatever
    the save does, a store that another environment (another
    [sys.prefix]) constructs on the same state file afterwards is the
    one it would have constructed before. *)
Theorem save_is_invisible_to_other_environments
  (w1 w2 : World) (dir : string) (self : SelfCheckState) (pv : string)
  (t : datetime) (fs : FS) :
  dir <> "" ->
  statefile_path self = Some (path_join w2 dir "selfcheck.json") ->
  sys_prefix w1 <> sys_prefix w2 ->
  result (SelfCheckState_init w2 (Some dir) (fs_after (save w1 self pv t fs)))
  = result (SelfCheckState_init w2 (Some dir) fs).
Proof.
  intros Hdir Hpath Hne. rewrite !init_result by exact Hdir.
  destruct (save_inv w1 self pv t fs)
    as [Hskip | o e He Hfiles _ | path d Hp _ _ _ Hd].
  - reflexivity.
  - now rewrite Hfiles.
  - assert (path = path_join w2 dir "selfcheck.json") as -> by congruence.
    assert (canonical (JObj d) = true) as Hcd.
    { destruct Hd as [[_ ->] | (text & _ & Hl)]; [reflexivity |].
      now apply (loads_canonical text). }
    cbn [fs_after]. unfold written. cbn [files].
    rewrite lookup_insert_eq.
    rewrite loads_dumps by (now apply dict_set_canonical).
    rewrite dict_get_set_ne by congruence.
    destruct Hd as [[Hf ->] | (text & Hf & Hl)].
    + now rewrite Hf.
    + now rewrite Hf, Hl.
Qed.

Lemma save_locked_locks w path pv t fs :
  locks (fs_after (save_locked w path pv t fs)) = locks fs.
Proof.
  destruct (files fs !! path) as [[text|]|] eqn:Hf.
  - destruct (loads text) as [doc|] eqn:Hl.
    + destruct doc as [| b | z | s | l | d].
      1-5: erewrite locked_not_object; [reflexivity | exact Hf | exact Hl |
                                        discriminate].
      now rewrite (locked_merges w path pv t fs text d Hf Hl).
    + now rewrite (locked_corrupt w path pv t fs text Hf Hl).
  - now rewrite (locked_unreadable w path pv t fs Hf).
  - now rewrite (locked_creates w path pv t fs Hf).
Qed.

(** X9: [save] leaves no lock behind.  Every lock held after a save was
    held before it; and when the lock of the state file was taken, it
    is released at the end, whether the locked part returned or raised. *)
Theorem save_leaves_no_lock_behind
  (w : World) (self : SelfCheckState) (pv : string) (t : datetime) (fs : FS) :
  let o := save w self pv t fs in
  (forall p, p ∈ locks (fs_after o) -> p ∈ locks fs)
  /\ forall path,
       statefile_path self = Some path ->
       check_path_owner w (path_dirname w path) = true ->
       makedirs_error w (path_dirname w path) = None ->
       lock_error w path = None ->
       path ∉ locks (fs_after o).
Proof.
  cbn zeta.
  assert (forall path,
            statefile_path self = Some path ->
            check_path_owner w (path_dirname w path) = true ->
            makedirs_error w (path_dirname w path) = None ->
            lock_error w path = None ->
            locks (fs_after (save w self pv t fs))
            = ({[path]} ∪ locks fs) ∖ {[path]}) as Hlocked.
  { intros path Hpath Hown Hmk Hlock.
    rewrite (save_under_lock w self pv t path fs Hpath Hown Hmk Hlock).
    unfold finally, lock_release, bind, get_fs, put_fs.
    cbn [fs_after locks result].
    now rewrite save_locked_locks. }
  split.
  - intros p.
    destruct (statefile_path self) as [path|] eqn:Hpath.
    2:{ now rewrite (save_no_cache w self pv t fs Hpath). }
    destruct (check_path_owner w (path_dirname w path)) eqn:Hown.
    2:{ now rewrite (save_not_owner w self pv t path fs Hpath Hown). }
    destruct (makedirs_error w (path_dirname w path)) as [e|] eqn:Hmk.
    { now rewrite (save_makedirs_error w self pv t path fs Hpath Hown e Hmk). }
    destruct (lock_error w path) as [e|] eqn:Hlock.
    { now rewrite (save_lock_error w self pv t path fs Hpath Hown Hmk e Hlock). }
    rewrite (Hlocked path eq_refl Hown Hmk Hlock).
    rewrite elem_of_difference, elem_of_union, elem_of_singleton. tauto.
  - intros path Hpath Hown Hmk Hlock.
    rewrite (Hlocked path Hpath Hown Hmk Hlock).
    rewrite elem_of_difference, elem_of_singleton. tauto.
Qed.

(** X10: a save that raises has written nothing.  Whatever the
    exception (from making the directory, from the lock, from reading
    or decoding the state file, from a document that is not an object),
    every file is as it was before the call. *)
Theorem save_failure_writes_nothing
  (w : World) (self : SelfCheckState) (pv : string) (t : datetime) (fs : FS)
  (e : exn) :
  result (save w self pv t fs) = Raise e ->
  files (fs_after (save w self pv t fs)) = files fs.
Proof.
  intros Hr.
  destruct (save_inv w self pv t fs) as [Hskip | o e' He Hfiles _ | ? ? ? ? ? ? ?].
  - reflexivity.
  - exact Hfiles.
  - discriminate.
Qed.


(** ** Provenance *)

(** X12: [was_installed_by_ins] answers [True] exactly when the
    distribution is found, has [INSTALLER] metadata, and one line of it
    is [ins] (the whole line, not a part of it).  It never raises
    [DistributionNotFound]: a distribution that is not found gives
    [False]. *)
Theorem installed_by_ins_iff_installer_line (w : World) (pkg : string) :
  (was_installed_by_ins w pkg = Ret true
   <-> exists dist lines,
         get_distribution w pkg = Ret dist
         /\ has_metadata dist "INSTALLER" = true
         /\ get_metadata_lines dist "INSTALLER" = Ret lines
         /\ In "ins" lines)
  /\ was_installed_by_ins w pkg <> Raise DistributionNotFound
  /\ (get_distribution w pkg = Raise DistributionNotFound ->
      was_installed_by_ins w pkg = Ret false).
Proof.
  unfold was_installed_by_ins.
  assert (forall lines, existsb (String.eqb "ins") lines = true
                        <-> In "ins" lines) as Hmem.
  { intros lines. rewrite existsb_exists. split.
    - intros (x & Hin & Heq). apply String.eqb_eq in Heq. now subst x.
    - intros Hin. exists "ins". now split. }
  destruct (get_distribution w pkg) as [dist|e] eqn:Hd.
  - destruct (has_metadata dist "INSTALLER") eqn:Hm.
    + destruct (get_metadata_lines dist "INSTALLER") as [lines|e] eqn:Hl.
      * split; [| split; [discriminate | discriminate]].
        split.
        -- intros H. injection H as H. apply Hmem in H.
           exists dist, lines. now repeat split.
        -- intros (dist' & lines' & Hd' & _ & Hl' & Hin).
           injection Hd' as <-. rewrite Hl in Hl'. injection Hl' as <-.
           f_equal. now apply Hmem.
      * split; [| split; [| discriminate]].
        -- split.
           ++ now destruct e.
           ++ intros (dist' & lines' & Hd' & _ & Hl' & _).
              injection Hd' as <-. congruence.
        -- now destruct e.
    + split; [| split; [discriminate | discriminate]].
      split; [discriminate |].
      intros (dist' & lines' & Hd' & Hm' & _). injection Hd' as <-. congruence.
  - split; [| split].
    + split.
      * now destruct e.
      * intros (dist' & lines' & Hd' & _). discriminate.
    + now destruct e.
    + intros He. injection He as ->. reflexivity.
Qed.

(** ** The run *)

(** The comparison changes no file; it logs the warning, and then
    returns, or logs nothing. *)
Lemma compare_outcome w vi v fs :
  let o := compare_and_warn w vi v fs in
  fs_after o = fs
  /\ (emitted o = []
      \/ exists m, emitted o = [LogWarning m] /\ result o = Ret tt).
Proof.
  cbn zeta. split; [apply compare_reads_only |].
  unfold compare_and_warn, bind, lift, ret, raise, emit.
  destruct (parse_value_version w v) as [vr|e]; cbn; [| now left].
  destruct (version_lt w vi vr && _); cbn; [| now left].
  destruct (was_installed_by_ins w "ins") as [[]|e]; cbn; eauto.
Qed.

(** Lines 123-138 when the cache gives no version. *)
Lemma resolve_refresh w session options self now fs :
  cached_pypi_version (state self) now = Ret None ->
  resolve_pypi_version w session options self now fs
  = match find_best_candidate w (make_finder session options) "ins" with
    | Raise e =>
        {| result := Raise e; fs_after := fs;
           emitted := [IndexQuery (make_finder session options)] |}
    | Ret None =>
        {| result := Ret None; fs_after := fs;
           emitted := [IndexQuery (make_finder session options)] |}
    | Ret (Some cv) =>
        let s := save w self (version_str w cv) now fs in
        {| result := match result s with
                     | Ret _ => Ret (Some (JStr (version_str w cv)))
                     | Raise e => Raise e
                     end;
           fs_after := fs_after s;
           emitted := [IndexQuery (make_finder session options);
                       SaveCall (version_str w cv) now] |}
    end.
Proof.
  intros Hc. unfold resolve_pypi_version. rewrite Hc.
  unfold bind, lift, emit, ret, raise. cbn -[save].
  destruct (find_best_candidate w _ "ins") as [[cv|]|e]; cbn -[save];
    try reflexivity.
  rewrite save_silent.
  now destruct (result (save w self (version_str w cv) now fs)).
Qed.

(** The body of the [try]: at most one query, then at most one save,
    then at most the warning. *)
Lemma guarded_shape w session options vi fs :
  let b := guarded_check w session options vi fs in
  exists q s x,
    emitted b = q ++ s ++ x
    /\ (q = [] \/ q = [IndexQuery (make_finder session options)])
    /\ (s = [] \/ q <> [] /\ exists pv, s = [SaveCall pv (utcnow w)])
    /\ (x = [] \/ exists m, x = [LogWarning m] /\ result b = Ret tt)
    /\ (s = [] -> fs_after b = fs).
Proof.
  cbn zeta.
  destruct (init_reads_only w (cache_dir options) fs) as [Hfs Hev].
  destruct (result (SelfCheckState_init w (cache_dir options) fs))
    as [self|e] eqn:Hload.
  2:{ exists [], [], []. unfold guarded_check, bind. rewrite Hload.
      cbn [emitted result fs_after]. rewrite Hev, Hfs. intuition. }
  rewrite (guarded_unfold w session options fs vi self Hload).
  destruct (cached_pypi_version (state self) (utcnow w)) as [[v|]|e] eqn:Hc.
  - fold (guarded_check w session options vi fs).
    rewrite <- (guarded_unfold w session options fs vi self Hload).
    rewrite (guarded_fresh w session options fs vi self Hload v Hc).
    destruct (compare_outcome w vi v fs) as [Hf Hx].
    exists [], [], (emitted (compare_and_warn w vi v fs)).
    cbn [app]. intuition.
  - unfold bind. rewrite (resolve_refresh w session options self _ fs Hc).
    destruct (find_best_candidate w _ "ins") as [[cv|]|e].
    + cbn zeta. cbn [result fs_after emitted].
      destruct (result (save w self (version_str w cv) (utcnow w) fs))
        as [[]|e] eqn:Hs.
      * destruct (compare_outcome w vi (JStr (version_str w cv))
                    (fs_after (save w self (version_str w cv) (utcnow w) fs)))
          as [Hf Hx].
        exists [IndexQuery (make_finder session options)],
               [SaveCall (version_str w cv) (utcnow w)],
               (emitted (compare_and_warn w vi (JStr (version_str w cv))
                  (fs_after (save w self (version_str w cv) (utcnow w) fs)))).
        cbn [result emitted fs_after].
        split; [reflexivity |]. split; [now right |].
        split; [right; split; [discriminate | eauto] |].
        split; [exact Hx | discriminate].
      * exists [IndexQuery (make_finder session options)],
               [SaveCall (version_str w cv) (utcnow w)], [].
        cbn [result emitted fs_after].
        split; [reflexivity |]. split; [now right |].
        split; [right; split; [discriminate | eauto] |].
        split; [now left | discriminate].
    + exists [IndexQuery (make_finder session options)], [], [].
      cbn. intuition.
    + exists [IndexQuery (make_finder session options)], [], [].
      cbn. intuition.
  - exists [], [], []. unfold resolve_pypi_version. rewrite Hc.
    cbn. intuition.
Qed.

(** X13: the shape of every run.  Whatever the installation, the
    options and the disk, a run queries the index at most once, calls
    [save] at most once and only after the query, and then logs at most
    one record: the upgrade warning or the debug record of the handler,
    never both, and in both cases it returns.  A run that did not call
    [save] leaves the file system as it found it. *)
Theorem run_trace_shape
  (w : World) (session : nat) (options : Options) (fs : FS) :
  let o := ins_version_check w session options fs in
  exists q s x,
    emitted o = q ++ s ++ x
    /\ (q = [] \/ q = [IndexQuery (make_finder session options)])
    /\ (s = [] \/ q <> [] /\ exists pv, s = [SaveCall pv (utcnow w)])
    /\ (x = []
        \/ (exists m, x = [LogWarning m] /\ result o = Ret tt)
        \/ x = [LogDebug debug_message] /\ result o = Ret tt)
    /\ (s = [] -> fs_after o = fs).
Proof.
  cbn zeta.
  assert (forall o : outcome unit,
            emitted o = [] -> fs_after o = fs ->
            exists q s x,
              emitted o = q ++ s ++ x
              /\ (q = [] \/ q = [IndexQuery (make_finder session options)])
              /\ (s = [] \/ q <> [] /\ exists pv, s = [SaveCall pv (utcnow w)])
              /\ (x = []
                  \/ (exists m, x = [LogWarning m] /\ result o = Ret tt)
                  \/ x = [LogDebug debug_message] /\ result o = Ret tt)
              /\ (s = [] -> fs_after o = fs)) as Hquiet.
  { intros o He Hf. exists [], [], []. rewrite He. intuition. }
  destruct (get_installed_version w "ins") as [[[|c iv']|]|e] eqn:Hi.
  - apply Hquiet; unfold ins_version_check; now rewrite Hi.
  - destruct (parse w (String c iv')) as [vi|e] eqn:Hp.
    2:{ apply Hquiet; unfold ins_version_check; rewrite Hi;
          unfold bind, lift, ret, raise; cbn; now rewrite Hp. }
    rewrite (check_unfold w session options fs (String c iv') vi
               ltac:(discriminate) Hi Hp).
    pose proof (guard_outcome (guarded_check w session options vi) fs) as G.
    destruct (guarded_shape w session options vi fs)
      as (q & s & x & Hev & Hq & Hs & Hx & Hf).
    destruct (result (guarded_check w session options vi fs)) as [u|e] eqn:Hr.
    + rewrite G. exists q, s, x. rewrite Hr.
      repeat (split; [assumption |]).
      split; [| exact Hf].
      destruct Hx as [-> | (m & -> & _)]; [now left |].
      right; left. exists m. split; [reflexivity |]. now destruct u.
    + assert (x = []) as ->.
      { destruct Hx as [-> | (m & _ & Hm)]; [reflexivity | discriminate]. }
      destruct (is_Exception e); rewrite G.
      * exists q, s, [LogDebug debug_message].
        cbn [emitted result fs_after]. rewrite Hev, app_nil_r, <- app_assoc.
        intuition.
      * exists q, s, []. rewrite Hev. intuition.
  - apply Hquiet; unfold ins_version_check; now rewrite Hi.
  - apply Hquiet; unfold ins_version_check; now rewrite Hi.
Qed.

(** The run when the cache gives no version: where the file system
    ends. *)
Lemma run_refresh_fs w session options fs iv vi self :
  iv <> "" -> get_installed_version w "ins" = Ret (Some iv) ->
  parse w iv = Ret vi ->
  result (SelfCheckState_init w (cache_dir options) fs) = Ret self ->
  cached_pypi_version (state self) (utcnow w) = Ret None ->
  fs_after (ins_version_check w session options fs)
  = match find_best_candidate w (make_finder session options) "ins" with
    | Ret (Some cv) => fs_after (save w self (version_str w cv) (utcnow w) fs)
    | _ => fs
    end.
Proof.
  intros Hne Hi Hp Hload Hc.
  rewrite (check_unfold w session options fs iv vi Hne Hi Hp).
  assert (fs_after (guard (guarded_check w session options vi) fs)
          = fs_after (guarded_check w session options vi fs)) as ->.
  { pose proof (guard_outcome (guarded_check w session options vi) fs) as G.
    destruct (result (guarded_check w session options vi fs)) as [u|e];
      [now rewrite G |].
    destruct (is_Exception e); now rewrite G. }
  rewrite (guarded_unfold w session options fs vi self Hload).
  unfold bind. rewrite (resolve_refresh w session options self _ fs Hc).
  destruct (find_best_candidate w _ "ins") as [[cv|]|e]; try reflexivity.
  cbn zeta. cbn [result fs_after].
  destruct (result (save w self (version_str w cv) (utcnow w) fs));
    [| reflexivity].
  cbn [fs_after]. apply compare_reads_only.
Qed.

(** X14: when the index has no candidate for [ins], the run ends
    there: the query is its only event, nothing is saved, nothing is
    logged, and the file system is as before. *)
Theorem no_candidate_ends_the_run
  (w : World) (session : nat) (options : Options) (fs : FS)
  (iv : string) (vi : version w) (self : SelfCheckState) :
  get_installed_version w "ins" = Ret (Some iv) -> iv <> "" ->
  parse w iv = Ret vi ->
  result (SelfCheckState_init w (cache_dir options) fs) = Ret self ->
  cached_pypi_version (state self) (utcnow w) = Ret None ->
  find_best_candidate w (make_finder session options) "ins" = Ret None ->
  ins_version_check w session options fs
  = {| result := Ret tt; fs_after := fs;
       emitted := [IndexQuery (make_finder session options)] |}.
Proof.
  intros Hi Hne Hp Hload Hc Hfind.
  rewrite (check_unfold w session options fs iv vi Hne Hi Hp).
  unfold guard, try_except.
  rewrite (guarded_unfold w session options fs vi self Hload).
  unfold bind. rewrite (resolve_refresh w session options self _ fs Hc), Hfind.
  reflexivity.
Qed.

(** X15: a save that fails costs the warning.  When the index was
    queried and [save] raises (the directory cannot be made, the lock
    cannot be taken, the state file cannot be read or is not a JSON
    object), the handler logs the debug record and the run returns: the
    comparison is not reached, no warning is logged, and no file has
    changed. *)
Theorem failed_save_ends_the_run
  (w : World) (session : nat) (options : Options) (fs : FS)
  (iv : string) (vi : version w) (self : SelfCheckState)
  (cv : version w) (e : exn) :
  get_installed_version w "ins" = Ret (Some iv) -> iv <> "" ->
  parse w iv = Ret vi ->
  result (SelfCheckState_init w (cache_dir options) fs) = Ret self ->
  cached_pypi_version (state self) (utcnow w) = Ret None ->
  find_best_candidate w (make_finder session options) "ins" = Ret (Some cv) ->
  result (save w self (version_str w cv) (utcnow w) fs) = Raise e ->
  is_Exception e = true ->
  let o := ins_version_check w session options fs in
  result o = Ret tt
  /\ emitted o = [IndexQuery (make_finder session options);
                  SaveCall (version_str w cv) (utcnow w);
                  LogDebug debug_message]
  /\ warned (emitted o) = false
  /\ files (fs_after o) = files fs.
Proof.
  intros Hi Hne Hp Hload Hc Hfind Hs He o.
  assert (files (fs_after o) = files fs) as Hfiles.
  { subst o.
    rewrite (run_refresh_fs w session options fs iv vi self Hne Hi Hp Hload Hc).
    rewrite Hfind.
    destruct (save_inv w self (version_str w cv) (utcnow w) fs)
      as [Hskip | o' e' He' Hf _ | ? ? ? ? ? ? ?]; [reflexivity | exact Hf |].
    discriminate. }
  assert (o = {| result := Ret tt; fs_after := fs_after o;
                 emitted := [IndexQuery (make_finder session options);
                             SaveCall (version_str w cv) (utcnow w);
                             LogDebug debug_message] |}) as Ho.
  { subst o.
    rewrite (check_unfold w session options fs iv vi Hne Hi Hp).
    unfold guard, try_except.
    rewrite (guarded_unfold w session options fs vi self Hload).
    unfold bind. rewrite (resolve_refresh w session options self _ fs Hc), Hfind.
    cbn zeta. cbn [result fs_after emitted]. rewrite Hs.
    cbn [result fs_after emitted]. rewrite He. reflexivity. }
  rewrite Ho. cbn [result emitted]. now repeat split.
Qed.

(** X16: without a cache directory nothing is remembered.  Every run
    queries the index, and the file system is left as it was: [save]
    returns at once for want of a path. *)
Theorem no_cache_dir_queries_every_time
  (w : World) (session : nat) (options : Options) (fs : FS)
  (iv : string) (vi : version w) :
  get_installed_version w "ins" = Ret (Some iv) -> iv <> "" ->
  parse w iv = Ret vi ->
  cache_dir options = None \/ cache_dir options = Some "" ->
  let o := ins_version_check w session options fs in
  queried (emitted o) = true /\ fs_after o = fs.
Proof.
  intros Hi Hne Hp Hdir o.
  assert (SelfCheckState_init w (cache_dir options) fs
          = ret (empty_state None) fs) as Hinit
    by (now apply init_no_cache).
  assert (result (SelfCheckState_init w (cache_dir options) fs)
          = Ret (empty_state None)) as Hload by (now rewrite Hinit).
  assert (cached_pypi_version (state (empty_state None)) (utcnow w) = Ret None)
    as Hc by reflexivity.
  split.
  - now apply (run_stale w session options fs iv vi Hne Hi Hp (empty_state None)).
  - subst o.
    rewrite (run_refresh_fs w session options fs iv vi (empty_state None)
               Hne Hi Hp Hload Hc).
    destruct (find_best_candidate w _ "ins") as [[cv|]|e]; reflexivity.
Qed.

(** X17: an entry that cannot serve is refreshed.  When the loaded
    entry lacks [last_check] or [pypi_version], or holds [null] for
    [pypi_version] beside a timestamp that parses, the index is queried,
    inside the 7-day window as well. *)
Theorem incomplete_entry_is_refreshed
  (w : World) (session : nat) (options : Options) (fs : FS)
  (iv : string) (vi : version w) (self : SelfCheckState)
  (d : list (string * json)) :
  get_installed_version w "ins" = Ret (Some iv) -> iv <> "" ->
  parse w iv = Ret vi ->
  result (SelfCheckState_init w (cache_dir options) fs) = Ret self ->
  state self = JObj d ->
  (dict_get "last_check" d = None
   \/ dict_get "pypi_version" d = None
   \/ (dict_get "pypi_version" d = Some JNull
       /\ exists s lc, dict_get "last_check" d = Some (JStr s)
                       /\ strptime s = Ret lc)) ->
  queried (emitted (ins_version_check w session options fs)) = true.
Proof.
  intros Hi Hne Hp Hload Hst Hd.
  apply (run_stale w session options fs iv vi Hne Hi Hp self Hload).
  rewrite Hst. unfold cached_pypi_version, py_contains, py_getitem.
  destruct Hd as [Hl | [Hv | (Hv & s & lc & Hl & Hs)]].
  - now rewrite Hl.
  - rewrite Hv. now destruct (dict_get "last_check" d).
  - rewrite Hl, Hv. cbn. rewrite Hs.
    now destruct (Datetime.total_seconds_lt _ _).
Qed.

Lemma compare_warning w vi v fs m :
  In (LogWarning m) (emitted (compare_and_warn w vi v fs)) ->
  exists pv vr,
    v = JStr pv /\ parse w pv = Ret vr
    /\ version_lt w vi vr = true
    /\ base_version w vi <> base_version w vr
    /\ was_installed_by_ins w "ins" = Ret true
    /\ m = upgrade_message (version_str w vi) pv
             (if WINDOWS w then "python -m ins" else "ins").
Proof.
  unfold compare_and_warn, bind, lift, ret, raise, emit.
  destruct v as [| b | z | pv | l | d]; cbn; try tauto.
  destruct (parse w pv) as [vr|e] eqn:Hp; cbn; [| tauto].
  destruct (version_lt w vi vr) eqn:Hlt; cbn; [| tauto].
  destruct (String.eqb_spec (base_version w vi) (base_version w vr)); cbn;
    [tauto |].
  destruct (was_installed_by_ins w "ins") as [[]|e] eqn:Hins; cbn; try tauto.
  intros [Hm | []]. injection Hm as <-.
  exists pv, vr. now repeat split.
Qed.

(** X18: every warning is justified.  In any run, a warning that is
    logged names the installed version, a version string that parses to
    a strictly greater version with another base version, and the
    command of the platform ([python -m ins] on Windows, [ins]
    elsewhere); and [ins] was installed by itself. *)
Theorem every_warning_is_justified
  (w : World) (session : nat) (options : Options) (fs : FS)
  (iv : string) (vi : version w) (m : string) :
  get_installed_version w "ins" = Ret (Some iv) ->
  parse w iv = Ret vi ->
  In (LogWarning m) (emitted (ins_version_check w session options fs)) ->
  exists pv vr,
    parse w pv = Ret vr
    /\ version_lt w vi vr = true
    /\ base_version w vi <> base_version w vr
    /\ was_installed_by_ins w "ins" = Ret true
    /\ m = upgrade_message (version_str w vi) pv
             (if WINDOWS w then "python -m ins" else "ins").
Proof.
  intros Hi Hp Hin.
  destruct iv as [|c iv']; [unfold ins_version_check in Hin; now rewrite Hi in Hin |].
  rewrite (check_unfold w session options fs (String c iv') vi
             ltac:(discriminate) Hi Hp) in Hin.
  assert (In (LogWarning m) (emitted (guarded_check w session options vi fs)))
    as Hbody.
  { pose proof (guard_outcome (guarded_check w session options vi) fs) as G.
    destruct (result (guarded_check w session options vi fs)) as [u|e];
      [now rewrite G in Hin |].
    destruct (is_Exception e); rewrite G in Hin; [| exact Hin].
    cbn [emitted] in Hin. apply in_app_or in Hin.
    destruct Hin as [Hin | [Hd | []]]; [exact Hin | discriminate]. }
  clear Hin.
  assert (exists v fs', In (LogWarning m) (emitted (compare_and_warn w vi v fs')))
    as (v & fs' & Hcmp).
  { destruct (init_reads_only w (cache_dir options) fs) as [Hfs Hev].
    destruct (result (SelfCheckState_init w (cache_dir options) fs))
      as [self|e] eqn:Hload.
    2:{ unfold guarded_check, bind in Hbody. rewrite Hload in Hbody.
        cbn [emitted] in Hbody. now rewrite Hev in Hbody. }
    rewrite (guarded_unfold w session options fs vi self Hload) in Hbody.
    destruct (cached_pypi_version (state self) (utcnow w)) as [[v|]|e] eqn:Hc.
    - rewrite <- (guarded_unfold w session options fs vi self Hload) in Hbody.
      rewrite (guarded_fresh w session options fs vi self Hload v Hc) in Hbody.
      eauto.
    - unfold bind in Hbody.
      rewrite (resolve_refresh w session options self _ fs Hc) in Hbody.
      destruct (find_best_candidate w _ "ins") as [[cv|]|e].
      + cbn zeta in Hbody. cbn [result fs_after emitted] in Hbody.
        destruct (result (save w self (version_str w cv) (utcnow w) fs))
          as [[]|e]; cbn [emitted app] in Hbody.
        * destruct Hbody as [Hq | [Hs | Hcmp]]; [discriminate | discriminate |].
          eauto.
        * destruct Hbody as [Hq | [Hs | []]]; discriminate.
      + cbn in Hbody. destruct Hbody as [Hq | []]; discriminate.
      + cbn in Hbody. destruct Hbody as [Hq | []]; discriminate.
    - unfold resolve_pypi_version, bind in Hbody. rewrite Hc in Hbody.
      cbn in Hbody. tauto. }
  destruct (compare_warning w vi v fs' m Hcmp)
    as (pv & vr & _ & Hpr & Hlt & Hb & Hins & Hm).
  exists pv, vr. now repeat split.
Qed.

(** ** Once per week *)

(** X19: the timestamp format loses only the microseconds.  For a
    valid time from the year 1900 on, [strptime] reads what [strftime]
    wrote as the same date and time of day with the microseconds at 0:
    the stored [last_check] is the time of the check, less than one
    second earlier. *)
Theorem timestamp_round_trip (t : datetime) :
  Datetime.valid t = true -> (1900 <= Datetime.year t)%Z ->
  strptime (strftime t) = Ret (whole_second t)
  /\ (0 <= Datetime.sub t (whole_second t) < 1000000)%Z.
Proof.
  intros Hv Hy. split; [apply strptime_strftime; [exact Hv | lia] |].
  unfold Datetime.sub, Datetime.to_microseconds, whole_second.
  cbn [Datetime.year Datetime.month Datetime.day Datetime.hour
       Datetime.minute Datetime.second Datetime.microsecond].
  unfold Datetime.valid in Hv.
  repeat (apply andb_prop in Hv; destruct Hv as [Hv ?]).
  repeat match goal with H : (_ <=? _)%Z = true |- _ => apply Z.leb_le in H end.
  lia.
Qed.

(** X20: the check is limited to once per week.  A run that found no
    usable cached version, got a candidate from the index and saved it,
    is followed by runs that leave the index alone: a later run on the
    file system it left, with the clock less than 7 days after the
    stored second, compares with the saved version, queries nothing and
    writes nothing; from 7 days on it queries the index again. *)
Theorem check_is_limited_to_once_per_week
  (w : World) (session : nat) (options : Options) (fs : FS) (dir : string)
  (iv : string) (vi : version w) (self : SelfCheckState) (cv : version w)
  (later : datetime) :
  cache_dir options = Some dir -> dir <> "" ->
  get_installed_version w "ins" = Ret (Some iv) -> iv <> "" ->
  parse w iv = Ret vi ->
  result (SelfCheckState_init w (Some dir) fs) = Ret self ->
  cached_pypi_version (state self) (utcnow w) = Ret None ->
  find_best_candidate w (make_finder session options) "ins" = Ret (Some cv) ->
  check_path_owner w (path_dirname w (path_join w dir "selfcheck.json")) = true ->
  result (save w self (version_str w cv) (utcnow w) fs) = Ret tt ->
  Datetime.valid (utcnow w) = true -> (1900 <= Datetime.year (utcnow w))%Z ->
  let o1 := ins_version_check w session options fs in
  let o2 := ins_version_check (at_clock w later) session options (fs_after o1) in
  let elapsed := Datetime.sub later (whole_second (utcnow w)) in
  ((elapsed < 7 * 24 * 3600 * 1000000)%Z ->
   o2 = guard (compare_and_warn (at_clock w later) vi
                 (JStr (version_str w cv))) (fs_after o1)
   /\ queried (emitted o2) = false
   /\ saved (emitted o2) = false
   /\ fs_after o2 = fs_after o1)
  /\ ((7 * 24 * 3600 * 1000000 <= elapsed)%Z -> queried (emitted o2) = true).
Proof.
  intros Hdir Hne Hi Hiv Hp Hload Hc Hfind Hown Hs Hv Hy o1 o2 elapsed.
  pose proof (init_path w dir fs self Hne Hload) as Hpath.
  assert (fs_after o1 = fs_after (save w self (version_str w cv) (utcnow w) fs))
    as Hfs.
  { subst o1.
    rewrite (run_refresh_fs w session options fs iv vi self Hiv Hi Hp)
      by (rewrite ?Hdir; assumption).
    now rewrite Hfind. }
  set (w' := at_clock w later) in *.
  set (self' := {| state := entry (version_str w cv) (utcnow w);
                   statefile_path := Some (path_join w dir "selfcheck.json") |}).
  assert (result (SelfCheckState_init w' (cache_dir options) (fs_after o1))
          = Ret self') as Hload'.
  { rewrite Hdir, Hfs.
    change (SelfCheckState_init w' (Some dir)) with (SelfCheckState_init w (Some dir)).
    now rewrite (save_then_init w dir self _ _ fs Hne Hpath Hown Hs). }
  assert (cached_pypi_version (state self') (utcnow w')
          = Ret (if Datetime.total_seconds_lt elapsed week_seconds
                 then Some (JStr (version_str w cv)) else None)) as Hc'.
  { apply (cached_entry _ (strftime (utcnow w)) (whole_second (utcnow w))).
    - reflexivity.
    - apply strptime_strftime; [exact Hv | lia].
    - reflexivity. }
  pose proof (total_seconds_lt_spec elapsed week_seconds) as Hspec.
  change (week_seconds * 1000000)%Z with (7 * 24 * 3600 * 1000000)%Z in Hspec.
  split.
  - intros Hlt. apply Hspec in Hlt. rewrite Hlt in Hc'.
    assert (o2 = guard (compare_and_warn w' vi (JStr (version_str w cv)))
                   (fs_after o1)) as Ho2.
    { subst o2.
      now apply (run_fresh w' session options (fs_after o1) iv vi Hiv Hi Hp self'). }
    split; [exact Ho2 |]. rewrite Ho2. apply guard_compare_quiet.
  - intros Hge.
    assert (Datetime.total_seconds_lt elapsed week_seconds = false) as Hst.
    { destruct (Datetime.total_seconds_lt elapsed week_seconds) eqn:E;
        [| reflexivity].
      destruct Hspec as [Hlt _]. specialize (Hlt eq_refl). lia. }
    rewrite Hst in Hc'. subst o2.
    now apply (run_stale w' session options (fs_after o1) iv vi Hiv Hi Hp self').
Qed.

(** ** The state file's format *)

(** X21: the state file's codec round-trips.  A document with its keys
    in order, written as [json.dump] writes it with [sort_keys=True] and
    compact separators, is decoded by [json.load] to the same document;
    and what [json.load] decodes from any text is such a document, so
    loading and dumping again gives text that loads to the same. *)
Theorem state_file_codec_round_trip (v : json) (text : string) :
  (canonical v = true -> loads (dumps v) = Some v)
  /\ (loads text = Some v ->
      canonical v = true /\ loads (dumps v) = Some v).
Proof.
  split.
  - apply loads_dumps.
  - intros Hl. pose proof (loads_canonical text v Hl) as Hc.
    split; [exact Hc | now apply loads_dumps].
Qed.

Lemma printable_app (a b : string) :
  printable (a +:+ b) = printable a && printable b.
Proof.
  induction a as [|c a IH]; [reflexivity |].
  rewrite append_cons. cbn [printable]. rewrite IH. now rewrite andb_assoc.
Qed.

Lemma printable_code (n : N) (r : string) :
  (32 <= n <= 126)%N -> printable r = true ->
  printable (String (ascii_of_N n) r) = true.
Proof.
  intros Hn Hr. cbn [printable].
  rewrite N_ascii_embedding by lia. rewrite Hr.
  apply andb_true_intro; split; [| reflexivity].
  apply andb_true_intro; split; apply N.leb_le; lia.
Qed.

Lemma printable_hex_digit (n : N) (r : string) :
  (n < 16)%N -> printable r = true -> printable (String (hex_digit n) r) = true.
Proof.
  intros Hn Hr. unfold hex_digit.
  destruct (N.ltb_spec n 10); apply printable_code; (lia || assumption).
Qed.

Lemma printable_escape_char (c : ascii) : printable (escape_char c) = true.
Proof.
  unfold escape_char.
  repeat match goal with
         | |- context [if ?b then _ else _] =>
             destruct b eqn:?; [reflexivity |]
         end.
  destruct ((32 <=? N_of_ascii c)%N && (N_of_ascii c <=? 126)%N) eqn:E.
  - cbn [printable]. now rewrite E.
  - rewrite printable_app. apply andb_true_intro; split; [reflexivity |].
    pose proof (N_ascii_bounded c).
    apply printable_hex_digit.
    + apply N.Div0.div_lt_upper_bound. lia.
    + apply printable_hex_digit; [| reflexivity].
      apply N.mod_lt. lia.
Qed.

Lemma printable_escape_body (s : string) : printable (escape_body s) = true.
Proof.
  induction s as [|c s IH]; [reflexivity |].
  cbn [escape_body]. now rewrite printable_app, printable_escape_char, IH.
Qed.

Lemma printable_basestring (s : string) :
  printable (encode_basestring_ascii s) = true.
Proof.
  unfold encode_basestring_ascii.
  change (String dquote (escape_body s +:+ String dquote ""))
    with (String dquote "" +:+ (escape_body s +:+ String dquote "")).
  now rewrite !printable_app, printable_escape_body.
Qed.

Lemma printable_uint (u : Decimal.uint) :
  printable (NilEmpty.string_of_uint u) = true.
Proof.
  induction u; cbn [NilEmpty.string_of_uint printable]; now rewrite ?IHu.
Qed.

Lemma printable_encode_int (z : Z) : printable (encode_int z) = true.
Proof.
  assert (forall u, printable (NilZero.string_of_uint u) = true) as Hu.
  { intros u. unfold NilZero.string_of_uint.
    destruct u; try reflexivity; apply printable_uint. }
  destruct z as [| p | p]; cbn [encode_int printable]; [reflexivity | apply Hu |].
  now rewrite Hu.
Qed.

Lemma printable_join_comma (l : list string) :
  Forall (fun s => printable s = true) l -> printable (join_comma l) = true.
Proof.
  induction 1 as [| x l Hx Hl IH]; [reflexivity |].
  destruct l as [| y l]; [exact Hx |].
  cbn [join_comma] in *.
  change (String "," ?t) with ("," +:+ t).
  now rewrite !printable_app, Hx, IH.
Qed.

Lemma Forall_insert_item {A} (P : string * A -> Prop) kv l :
  P kv -> Forall P l -> Forall P (insert_item kv l).
Proof.
  intros Hkv Hl. induction Hl as [| kv' l Hkv' Hl IH]; cbn [insert_item].
  - now constructor.
  - destruct (String.leb (fst kv) (fst kv')); repeat constructor; assumption.
Qed.

Lemma Forall_sort_items {A} (P : string * A -> Prop) l :
  Forall P l -> Forall P (sort_items l).
Proof.
  induction 1; cbn [sort_items]; [constructor |].
  now apply Forall_insert_item.
Qed.

Lemma printable_dumps (v : json) : printable (dumps v) = true.
Proof.
  induction v as [| b | z | s | l IH | d IH] using json_nested_ind.
  - reflexivity.
  - now destruct b.
  - apply printable_encode_int.
  - apply printable_basestring.
  - cbn [dumps].
    change (String "[" ?t) with ("[" +:+ t).
    rewrite !printable_app, printable_join_comma; [reflexivity |].
    apply Forall_map. exact IH.
  - cbn [dumps].
    change (String "{" ?t) with ("{" +:+ t).
    rewrite !printable_app, printable_join_comma; [reflexivity |].
    apply Forall_map. apply Forall_sort_items. apply Forall_map.
    eapply Forall_impl; [exact IH |].
    intros [k x] Hx. unfold encode_member. cbn [fst snd] in *.
    change (String ":" ?t) with (":" +:+ t).
    now rewrite !printable_app, printable_basestring, Hx.
Qed.

(** X22: the state file is one line of printable ASCII.  After a save
    that passed the ownership check and returned, every character of
    the state file is between the space and the tilde, whatever
    characters [sys.prefix], the version string and the other entries
    hold: the encoder escapes the rest. *)
Theorem state_file_is_printable_ascii
  (w : World) (self : SelfCheckState) (pv : string) (t : datetime) (fs : FS)
  (path : string) :
  statefile_path self = Some path ->
  check_path_owner w (path_dirname w path) = true ->
  result (save w self pv t fs) = Ret tt ->
  exists text,
    files (fs_after (save w self pv t fs)) !! path = Some (Regular text)
    /\ printable text = true.
Proof.
  intros Hpath Hown Hr.
  destruct (save_then_lookup w self pv t fs path Hpath Hown Hr)
    as (d & -> & _ & _).
  eexists. split.
  - unfold written. cbn [files]. apply lookup_insert_eq.
  - apply printable_dumps.
Qed.

(** * The further properties on the sample installation *)

Import Situations.


Lemma saved_entry_is_loaded_back_witness :
  statefile_path unloaded = Some (path_join w_upgrade cache "selfcheck.json")
  /\ result (save w_upgrade unloaded "1.1.0" now (fs_with other_text)) = Ret tt
  /\ result (SelfCheckState_init w_upgrade (Some cache)
               (fs_after (save w_upgrade unloaded "1.1.0" now
                            (fs_with other_text))))
     = Ret {| state := entry "1.1.0" now; statefile_path := Some statefile |}.
Proof.
  split; [reflexivity |]. split; [reflexivity |].
  rewrite (saved_entry_is_loaded_back w_upgrade cache unloaded "1.1.0" now
             (fs_with other_text));
    (reflexivity || discriminate).
Defined.

Lemma later_save_replaces_entry_witness :
  result (save w_upgrade unloaded "1.0.5" (at_time 2019 3 1 8 0 0) empty_fs)
  = Ret tt
  /\ fs_after (save w_upgrade unloaded "1.1.0" now
                 (fs_after (save w_upgrade unloaded "1.0.5"
                              (at_time 2019 3 1 8 0 0) empty_fs)))
     = fs_after (save w_upgrade unloaded "1.1.0" now empty_fs).
Proof.
  split; [reflexivity |].
  apply (later_save_replaces_entry w_upgrade unloaded "1.0.5" "1.1.0"
           (at_time 2019 3 1 8 0 0) now empty_fs).
  reflexivity.
Defined.

Lemma saves_of_two_environments_witness :
  sys_prefix w_upgrade <> sys_prefix w_venv
  /\ exists text d,
       files (fs_after (save w_venv unloaded "1.1.0" now
                          (fs_after (save w_upgrade unloaded "1.0.5"
                                       (at_time 2019 3 1 8 0 0) empty_fs))))
       !! statefile = Some (Regular text)
       /\ loads text = Some (JObj d)
       /\ dict_get "/usr" d = Some (entry "1.0.5" (at_time 2019 3 1 8 0 0))
       /\ dict_get "/opt/venv" d = Some (entry "1.1.0" now).
Proof.
  split; [discriminate |].
  destruct (saves_of_two_environments w_upgrade w_venv unloaded "1.0.5" "1.1.0"
              (at_time 2019 3 1 8 0 0) now empty_fs statefile []
              eq_refl eq_refl eq_refl eq_refl eq_refl eq_refl eq_refl
              ltac:(discriminate) ltac:(left; split; reflexivity))
    as (_ & _ & text & d & Hf & Hl & H1 & H2 & _).
  exists text, d. repeat split; assumption.
Defined.

Lemma saves_of_two_environments_commute_witness :
  sys_prefix w_upgrade <> sys_prefix w_venv
  /\ fs_after (save w_venv unloaded "1.1.0" now
                 (fs_after (save w_upgrade unloaded "1.0.5"
                              (at_time 2019 3 1 8 0 0) empty_fs)))
     = fs_after (save w_upgrade unloaded "1.0.5" (at_time 2019 3 1 8 0 0)
                   (fs_after (save w_venv unloaded "1.1.0" now empty_fs))).
Proof.
  split; [discriminate |].
  apply (saves_of_two_environments_commute w_upgrade w_venv unloaded
           "1.0.5" "1.1.0" (at_time 2019 3 1 8 0 0) now empty_fs statefile []);
    try reflexivity; [discriminate | left; split; reflexivity].
Defined.

Lemma save_is_invisible_to_other_environments_witness :
  sys_prefix w_upgrade <> sys_prefix w_venv
  /\ result (SelfCheckState_init w_venv (Some cache) (fs_with other_text))
     = Ret {| state := other_entry; statefile_path := Some statefile |}
  /\ result (SelfCheckState_init w_venv (Some cache)
               (fs_after (save w_upgrade unloaded "1.1.0" now
                            (fs_with other_text))))
     = Ret {| state := other_entry; statefile_path := Some statefile |}.
Proof.
  split; [discriminate |]. split; [reflexivity |].
  rewrite (save_is_invisible_to_other_environments w_upgrade w_venv cache
             unloaded "1.1.0" now (fs_with other_text));
    (reflexivity || discriminate).
Defined.

Lemma save_failure_writes_nothing_witness :
  result (save w_upgrade unloaded "1.1.0" now (fs_with "{not json"))
  = Raise ValueError
  /\ files (fs_after (save w_upgrade unloaded "1.1.0" now
                        (fs_with "{not json")))
     = files (fs_with "{not json").
Proof.
  split; [reflexivity |].
  apply (save_failure_writes_nothing w_upgrade unloaded "1.1.0" now
           (fs_with "{not json") ValueError).
  reflexivity.
Defined.


Lemma no_candidate_ends_the_run_witness :
  find_best_candidate w_no_candidate (make_finder 0 options) "ins" = Ret None
  /\ ins_version_check w_no_candidate 0 options empty_fs
     = {| result := Ret tt; fs_after := empty_fs;
          emitted := [IndexQuery (make_finder 0 options)] |}.
Proof.
  split; [reflexivity |].
  apply (no_candidate_ends_the_run w_no_candidate 0 options empty_fs
           "1.0.0" (parse_sample "1.0.0") unloaded);
    (reflexivity || discriminate).
Defined.

Lemma failed_save_ends_the_run_witness :
  result (save w_lock_fails unloaded "1.1.0" now empty_fs) = Raise LockFailed
  /\ result (ins_version_check w_lock_fails 0 options empty_fs) = Ret tt
  /\ warned (emitted (ins_version_check w_lock_fails 0 options empty_fs))
     = false.
Proof.
  split; [reflexivity |].
  destruct (failed_save_ends_the_run w_lock_fails 0 options empty_fs
              "1.0.0" (parse_sample "1.0.0") unloaded (parse_sample "1.1.0")
              LockFailed eq_refl ltac:(discriminate) eq_refl eq_refl eq_refl
              eq_refl eq_refl eq_refl)
    as (Hr & _ & Hw & _).
  split; [exact Hr | exact Hw].
Defined.

Lemma no_cache_dir_queries_every_time_witness :
  cache_dir options_no_cache = None
  /\ queried (emitted (ins_version_check w_upgrade 0 options_no_cache
                         (fs_with (cached_text "2019-03-10T12:00:00Z"))))
     = true
  /\ fs_after (ins_version_check w_upgrade 0 options_no_cache
                 (fs_with (cached_text "2019-03-10T12:00:00Z")))
     = fs_with (cached_text "2019-03-10T12:00:00Z").
Proof.
  split; [reflexivity |].
  apply (no_cache_dir_queries_every_time w_upgrade 0 options_no_cache
           (fs_with (cached_text "2019-03-10T12:00:00Z"))
           "1.0.0" (parse_sample "1.0.0"));
    [reflexivity | discriminate | reflexivity | now left].
Defined.

Lemma incomplete_entry_is_refreshed_witness :
  result (SelfCheckState_init w_upgrade (cache_dir options) (fs_with "{}"))
  = Ret unloaded
  /\ dict_get "last_check" [] = None
  /\ queried (emitted (ins_version_check w_upgrade 0 options (fs_with "{}")))
     = true.
Proof.
  split; [reflexivity |]. split; [reflexivity |].
  apply (incomplete_entry_is_refreshed w_upgrade 0 options (fs_with "{}")
           "1.0.0" (parse_sample "1.0.0") unloaded []);
    [reflexivity | discriminate | reflexivity | reflexivity | reflexivity
    | now left].
Defined.

Lemma every_warning_is_justified_witness :
  In (LogWarning (upgrade_message "1.0.0" "1.1.0" "ins"))
    (emitted (ins_version_check w_upgrade 0 options empty_fs))
  /\ exists pv vr,
       parse w_upgrade pv = Ret vr
       /\ version_lt w_upgrade (parse_sample "1.0.0") vr = true
       /\ base_version w_upgrade (parse_sample "1.0.0")
          <> base_version w_upgrade vr
       /\ was_installed_by_ins w_upgrade "ins" = Ret true
       /\ upgrade_message "1.0.0" "1.1.0" "ins"
          = upgrade_message (version_str w_upgrade (parse_sample "1.0.0")) pv
              (if WINDOWS w_upgrade then "python -m ins" else "ins").
Proof.
  assert (In (LogWarning (upgrade_message "1.0.0" "1.1.0" "ins"))
            (emitted (ins_version_check w_upgrade 0 options empty_fs))) as Hin.
  { assert (emitted (ins_version_check w_upgrade 0 options empty_fs)
            = [IndexQuery (make_finder 0 options); SaveCall "1.1.0" now;
               LogWarning (upgrade_message "1.0.0" "1.1.0" "ins")]) as ->
      by reflexivity.
    right; right; left. reflexivity. }
  split; [exact Hin |].
  apply (every_warning_is_justified w_upgrade 0 options empty_fs "1.0.0"
           (parse_sample "1.0.0") _ eq_refl eq_refl Hin).
Defined.

Lemma timestamp_round_trip_witness :
  Datetime.valid now = true
  /\ strftime now = "2019-03-15T12:00:00Z"
  /\ strptime (strftime now) = Ret (at_time 2019 3 15 12 0 0).
Proof.
  split; [reflexivity |]. split; [reflexivity |].
  apply (timestamp_round_trip now); [reflexivity | discriminate].
Defined.

Lemma check_is_limited_to_once_per_week_witness :
  result (save w_upgrade unloaded "1.1.0" now empty_fs) = Ret tt
  /\ (Datetime.sub five_days_later (whole_second now)
      < 7 * 24 * 3600 * 1000000)%Z
  /\ queried (emitted (ins_version_check w_upgrade 0 options empty_fs)) = true
  /\ queried (emitted (ins_version_check (at_clock w_upgrade five_days_later)
                         0 options
                         (fs_after (ins_version_check w_upgrade 0 options
                                      empty_fs))))
     = false.
Proof.
  split; [reflexivity |]. split; [reflexivity |]. split; [reflexivity |].
  destruct (check_is_limited_to_once_per_week w_upgrade 0 options empty_fs
              cache "1.0.0" (parse_sample "1.0.0") unloaded
              (parse_sample "1.1.0") five_days_later
              eq_refl ltac:(discriminate) eq_refl ltac:(discriminate) eq_refl
              eq_refl eq_refl eq_refl eq_refl eq_refl eq_refl
              ltac:(discriminate))
    as [Hfresh _].
  destruct (Hfresh eq_refl) as (_ & Hq & _). exact Hq.
Defined.

Lemma state_file_is_printable_ascii_witness :
  result (save w_upgrade unloaded "1.1.0" now (fs_with other_text)) = Ret tt
  /\ exists text,
       files (fs_after (save w_upgrade unloaded "1.1.0" now
                          (fs_with other_text))) !! statefile
       = Some (Regular text)
       /\ printable text = true.
Proof.
  split; [reflexivity |].
  apply (state_file_is_printable_ascii w_upgrade unloaded "1.1.0" now
           (fs_with other_text) statefile);
    reflexivity.
Defined.
